(** * YummyCraft Launcher: build bootstrap and mod reconciliation

    A shallow embedding of the part of [main.py] that prepares a build
    before the game is launched:

    - [ModManager]: [download_mod], [get_remote_mods_dict],
      [get_local_mods_dict], [check_mods];
    - [VersionManager]: [check_fabric_version], [download_fabric_base],
      [delete_build];
    - the first two steps of the thread body [run] of [Launcher.play_game].

    The Python code talks to three things: the file system below the
    [builds] directory, the launcher's HTTP server, and the user (status
    line and log file).  The file system is an explicit state, the server is
    a function from requests to replies, and everything the code does to the
    outside is recorded in a list of events.  Python exceptions are an
    explicit outcome. *)

From Stdlib Require Import ZArith Sorted SpecFloat.
From stdpp Require Import base tactics option list strings gmap.

Local Open Scope Z_scope.

(** ** Data *)

(** File contents and HTTP bodies are byte strings. *)
Abbreviation bytes := (list Byte.byte).

(** An entry of a [mods] directory.  A regular file may be unreadable, in
    which case [open(f, "rb")] raises; any entry for which [Path.is_file()]
    is false is a [SubDir]. *)
Inductive node : Type :=
  | RegFile (readable : bool) (data : bytes)
  | SubDir.

(** The listing of a directory, in the order [iterdir] yields it. *)
Abbreviation listing := (list (string * node)).

(** What the code can see of [builds/<server_name>]:
    - [installed]: the [id]s that
      [minecraft_launcher_lib.utils.get_installed_versions] reports for it;
    - [archive]: the contents of [base_fabric.zip], when the file exists;
    - [mods]: the listing of the [mods] sub-directory, when it exists.
    Build and mod names are single path components. *)
Record build : Type := Build {
  installed : list string;
  archive : option bytes;
  mods : option listing
}.

Definition set_archive (a : option bytes) (b : build) : build :=
  Build (installed b) a (mods b).

Definition set_mods (m : option listing) (b : build) : build :=
  Build (installed b) (archive b) m.

(** The [builds] directory: one sub-directory per build name. *)
Abbreviation fsys := (gmap string build).

(** A Python [dict] from strings to strings, in insertion order. *)
Abbreviation dict := (list (string * string)).

(** The three URLs the modelled code requests, all below
    [{api_url}/launcher/{server_name}/]: [list_mod],
    [download_mod/{mod_name}] and [download_fabric]. *)
Inductive request : Type :=
  | ListMod (server_name : string)
  | DownloadMod (server_name mod_name : string)
  | DownloadFabric (server_name : string).

(** A response as the code reads it: the status code, the [Content-Length]
    header when there is one, as the integer that [int] makes of it (a
    header that is not a number, on which [int] raises a [ValueError], is
    not among these responses), the chunks that [iter_content(1024)] yields
    and whether the stream then breaks (the generator raises a
    [RequestException]) instead of ending, and the key/value pairs of the
    JSON object in the body ([None] when [response.json()] raises). *)
Record response : Type := Response {
  status_code : Z;
  content_length : option Z;
  chunks : list bytes;
  broken : bool;
  json_pairs : option dict
}.

(** [requests.get] either raises ([ConnectionFailed]) or returns. *)
Inductive reply : Type :=
  | ConnectionFailed
  | Reply (r : response).

(** The exceptions that can occur in the modelled code.
    [FileNotFoundError], [PermissionError] and [IsADirectoryError] are
    subclasses of [OSError] (which is [IOError] in Python 3); all of them
    are subclasses of [Exception]. *)
Inductive exn : Type :=
  | RequestException
  | ZeroDivisionError
  | TypeError
  | AttributeError
  | FileNotFoundError
  | PermissionError
  | IsADirectoryError
  | BadZipFile
  | JSONDecodeError.

Definition is_OSError (e : exn) : bool :=
  match e with
  | FileNotFoundError | PermissionError | IsADirectoryError => true
  | _ => false
  end.

(** The texts passed to [set_status_message] and to [logging]; each
    constructor stands for one f-string of the source. *)
Inductive msg : Type :=
  | MsgModProgress (mod_name : string) (percent : Z)
  | MsgModDownloaded (mod_name : string)
  | MsgModStatus (mod_name : string) (status : Z)
  | MsgModFailed (mod_name : string)
  | MsgModError (mod_name : string) (e : exn)
  | MsgModErrorShort (mod_name : string)
  | MsgModRemoved (mod_name : string)
  | MsgModMissing (mod_name : string)
  | MsgModMismatch (mod_name : string)
  | MsgVersionMissing (required_version : string)
  | MsgVersionInstalled (required_version : string)
  | MsgFabricProgress (percent : Z)
  | MsgFabricDownloaded
  | MsgExtracting
  | MsgExtractError (e : exn)
  | MsgArchiveRemoveError (e : exn)
  | MsgDone
  | MsgFabricStatus (status : Z)
  | MsgFabricFailed
  | MsgBuildDeleted (server_name : string)
  | MsgBuildDeleteError (server_name : string) (e : exn).

Inductive level : Type := INFO | ERROR.

(** The files the code removes or writes: [builds/<s>/mods/<mod_name>] and
    [builds/<s>/base_fabric.zip].  The code joins [server_name] and
    [mod_name] to the directory unchecked; a [ModPath s k] is the entry
    [k] of the [mods] directory of the build [s] for names that are single
    path components ([plain_name] below), and the statements about the
    names of a manifest or of a caller are made for such names. *)
Inductive path : Type :=
  | ModPath (server_name mod_name : string)
  | ArchivePath (server_name : string).

(** What a run does to the outside, in order: the requests it sends, the
    files it removes ([os.remove]) or opens for writing ([open(p, "wb")]),
    the build trees it removes ([shutil.rmtree]), and what it tells the
    user. *)
Inductive event : Type :=
  | EGet (r : request)
  | ERemove (p : path)
  | EOpenW (p : path)
  | ERmtree (server_name : string)
  | EStatus (m : msg)
  | ELog (l : level) (m : msg).

(** ** The monad of the embedding *)

Inductive outcome (A : Type) : Type :=
  | Return (a : A)
  | Raise (e : exn).
Arguments Return {A} a.
Arguments Raise {A} e.

(** A computation takes the file system and gives an outcome, the new file
    system and the events it produced. *)
Definition M (A : Type) : Type := fsys → outcome A * fsys * list event.

Definition ret {A} (a : A) : M A := λ fs, (Return a, fs, []).

Definition raise {A} (e : exn) : M A := λ fs, (Raise e, fs, []).

Definition bind {A B} (m : M A) (f : A → M B) : M B := λ fs,
  match m fs with
  | (Return a, fs1, ev1) =>
      match f a fs1 with
      | (o, fs2, ev2) => (o, fs2, ev1 ++ ev2)
      end
  | (Raise e, fs1, ev1) => (Raise e, fs1, ev1)
  end.

#[global] Instance M_ret : MRet M := @ret.
#[global] Instance M_bind : MBind M := λ A B f m, bind m f.

(** [try: body except <classes in catch>: handler]. *)
Definition try_except {A} (body : M A) (catch : exn → bool)
    (handler : exn → M A) : M A := λ fs,
  match body fs with
  | (Return a, fs1, ev1) => (Return a, fs1, ev1)
  | (Raise e, fs1, ev1) =>
      if catch e then
        match handler e fs1 with
        | (o, fs2, ev2) => (o, fs2, ev1 ++ ev2)
        end
      else (Raise e, fs1, ev1)
  end.

Definition emit (e : event) : M unit := λ fs, (Return tt, fs, [e]).

(** [for x in xs: body x]. *)
Fixpoint for_each {X} (xs : list X) (body : X → M unit) : M unit :=
  match xs with
  | [] => ret tt
  | x :: xs' => body x;; for_each xs' body
  end.

(** [set_status_message] catches every exception of its own body, and the
    [logging] calls write to the log file; both only produce an event. *)
Definition set_status_message (m : msg) : M unit := emit (EStatus m).
Definition logging_info (m : msg) : M unit := emit (ELog INFO m).
Definition logging_error (m : msg) : M unit := emit (ELog ERROR m).

(** ** Python dictionaries *)

(** [d.get(k)]. *)
Fixpoint dict_get (d : dict) (k : string) : option string :=
  match d with
  | [] => None
  | (k', v) :: d' => if String.eqb k' k then Some v else dict_get d' k
  end.

(** [d[k] = v]: an existing key keeps its position. *)
Fixpoint dict_set (d : dict) (k v : string) : dict :=
  match d with
  | [] => [(k, v)]
  | (k', v') :: d' =>
      if String.eqb k' k then (k', v) :: d' else (k', v') :: dict_set d' k v
  end.

(** [k in d]. *)
Definition dict_mem (d : dict) (k : string) : bool :=
  match dict_get d k with Some _ => true | None => false end.

(** [list(d.keys())]. *)
Definition dict_keys (d : dict) : list string := d.*1.

(** The [dict] that [json] builds from the pairs of a JSON object: a
    repeated key keeps its first position and its last value. *)
Definition dict_of_pairs (ps : dict) : dict :=
  foldl (λ d p, dict_set d p.1 p.2) [] ps.

(** ** Directory listings *)

(** [Path.is_file()]. *)
Definition is_file (f : node) : bool :=
  match f with RegFile _ _ => true | SubDir => false end.

Fixpoint lookup_entry (l : listing) (name : string) : option node :=
  match l with
  | [] => None
  | (n, f) :: l' => if String.eqb n name then Some f else lookup_entry l' name
  end.

Definition remove_entry (l : listing) (name : string) : listing :=
  filter (λ e, e.1 ≠ name) l.

Fixpoint alter_entry (g : node → node) (l : listing) (name : string)
    : listing :=
  match l with
  | [] => []
  | (n, f) :: l' =>
      if String.eqb n name then (n, g f) :: l'
      else (n, f) :: alter_entry g l' name
  end.

(** Opening a file for writing empties it. *)
Definition truncate (f : node) : node :=
  match f with RegFile r _ => RegFile r [] | SubDir => SubDir end.

Definition append (chunk : bytes) (f : node) : node :=
  match f with RegFile r d => RegFile r (d ++ chunk) | SubDir => SubDir end.

(** The listing of [builds/<s>/mods], when the directory exists. *)
Definition mods_of (fs : fsys) (s : string) : option listing :=
  match fs !! s with Some b => mods b | None => None end.

(** The entry called [name] of [builds/<s>/mods]. *)
Definition entry_at (fs : fsys) (s name : string) : option node :=
  match mods_of fs s with
  | Some l => lookup_entry l name
  | None => None
  end.

(** The file at a path, when there is a regular file there. *)
Definition file_at (fs : fsys) (p : path) : option bytes :=
  match p with
  | ModPath s name =>
      match entry_at fs s name with
      | Some (RegFile _ d) => Some d
      | _ => None
      end
  | ArchivePath s =>
      match fs !! s with Some b => archive b | None => None end
  end.

(** ** The operating system and the network *)

Section Launcher.

(** [hashlib.sha256(data).hexdigest()]. *)
Variable sha256 : bytes → string.

(** [zipfile.ZipFile(archive).extractall(build_path)]: from the bytes of the
    archive and the build directory, whether the extraction completed and
    the build directory it leaves (on a failure, whatever was extracted
    before the exception). *)
Variable extractall : bytes → build → bool * build.

(** The launcher's server. *)
Variable net : request → reply.

(** [requests.get(url, ...)]. *)
Definition requests_get (r : request) : M response :=
  emit (EGet r);;
  match net r with
  | ConnectionFailed => raise RequestException
  | Reply response => mret response
  end.

(** [os.makedirs(builds_path / s, exist_ok=True)]. *)
Definition makedirs_build (s : string) : M unit := λ fs,
  match fs !! s with
  | Some _ => (Return tt, fs, [])
  | None => (Return tt, <[s := Build [] None None]> fs, [])
  end.

(** [os.makedirs(builds_path / s / "mods", exist_ok=True)]: creates the
    build directory too when it is missing. *)
Definition makedirs_mods (s : string) : M unit := λ fs,
  match fs !! s with
  | Some b =>
      match mods b with
      | Some _ => (Return tt, fs, [])
      | None => (Return tt, <[s := set_mods (Some []) b]> fs, [])
      end
  | None => (Return tt, <[s := Build [] None (Some [])]> fs, [])
  end.

(** [mods_directory.iterdir()]. *)
Definition iterdir (s : string) : M listing := λ fs,
  match mods_of fs s with
  | Some l => (Return l, fs, [])
  | None => (Raise FileNotFoundError, fs, [])
  end.

(** [with open(f, "rb") as file: file.read()], for an entry [f] that
    [iterdir] has just yielded. *)
Definition read_file (f : node) : M bytes :=
  match f with
  | RegFile true data => mret data
  | RegFile false _ => raise PermissionError
  | SubDir => raise IsADirectoryError
  end.

(** [os.remove(p)]; it fails only when there is no regular file at [p]. *)
Definition os_remove (p : path) : M unit := λ fs,
  match p with
  | ModPath s name =>
      match fs !! s with
      | Some b =>
          match mods b with
          | Some l =>
              match lookup_entry l name with
              | Some (RegFile _ _) =>
                  (Return tt,
                   <[s := set_mods (Some (remove_entry l name)) b]> fs,
                   [ERemove p])
              | Some SubDir => (Raise IsADirectoryError, fs, [])
              | None => (Raise FileNotFoundError, fs, [])
              end
          | None => (Raise FileNotFoundError, fs, [])
          end
      | None => (Raise FileNotFoundError, fs, [])
      end
  | ArchivePath s =>
      match fs !! s with
      | Some b =>
          match archive b with
          | Some _ => (Return tt, <[s := set_archive None b]> fs, [ERemove p])
          | None => (Raise FileNotFoundError, fs, [])
          end
      | None => (Raise FileNotFoundError, fs, [])
      end
  end.

(** [open(p, "wb")]: an existing file is emptied where it is, a new one is
    created.  The launcher works in its own directory, where it may write:
    opening fails only on a sub-directory or in a missing directory. *)
Definition open_wb (p : path) : M unit := λ fs,
  match p with
  | ModPath s name =>
      match fs !! s with
      | Some b =>
          match mods b with
          | Some l =>
              match lookup_entry l name with
              | Some (RegFile _ _) =>
                  (Return tt,
                   <[s := set_mods (Some (alter_entry truncate l name)) b]> fs,
                   [EOpenW p])
              | Some SubDir => (Raise IsADirectoryError, fs, [])
              | None =>
                  (Return tt,
                   <[s := set_mods (Some (l ++ [(name, RegFile true [])])) b]>
                     fs,
                   [EOpenW p])
              end
          | None => (Raise FileNotFoundError, fs, [])
          end
      | None => (Raise FileNotFoundError, fs, [])
      end
  | ArchivePath s =>
      match fs !! s with
      | Some b => (Return tt, <[s := set_archive (Some []) b]> fs, [EOpenW p])
      | None => (Raise FileNotFoundError, fs, [])
      end
  end.

(** [file.write(chunk)] on the file opened at [p]. *)
Definition file_write (p : path) (chunk : bytes) : M unit := λ fs,
  match p with
  | ModPath s name =>
      match fs !! s with
      | Some b =>
          match mods b with
          | Some l =>
              (Return tt,
               <[s := set_mods (Some (alter_entry (append chunk) l name)) b]>
                 fs,
               [])
          | None => (Return tt, fs, [])
          end
      | None => (Return tt, fs, [])
      end
  | ArchivePath s =>
      match fs !! s with
      | Some b =>
          match archive b with
          | Some d =>
              (Return tt, <[s := set_archive (Some (d ++ chunk)) b]> fs, [])
          | None => (Return tt, fs, [])
          end
      | None => (Return tt, fs, [])
      end
  end.

(** [with zipfile.ZipFile(local_zip_path, 'r') as zip_ref:
    zip_ref.extractall(build_path)]. *)
Definition zip_extractall (s : string) : M unit := λ fs,
  match fs !! s with
  | Some b =>
      match archive b with
      | Some data =>
          match extractall data b with
          | (true, b') => (Return tt, <[s := b']> fs, [])
          | (false, b') => (Raise BadZipFile, <[s := b']> fs, [])
          end
      | None => (Raise FileNotFoundError, fs, [])
      end
  | None => (Raise FileNotFoundError, fs, [])
  end.

(** [shutil.rmtree(builds_path / s)], for a build name that is a single
    path component: the tree of that build.  (For the empty name or [.]
    the path is the [builds] directory itself; see [plain_name].) *)
Definition rmtree (s : string) : M unit := λ fs,
  match fs !! s with
  | Some _ => (Return tt, delete s fs, [ERmtree s])
  | None => (Raise FileNotFoundError, fs, [])
  end.

(** [minecraft_launcher_lib.utils.get_installed_versions(builds/<s>)]: the
    library returns the empty list when the directory is missing. *)
Definition get_installed_versions (s : string) : M (list string) := λ fs,
  match fs !! s with
  | Some b => (Return (installed b), fs, [])
  | None => (Return [], fs, [])
  end.

(** [int(downloaded * 100 / total_size)]: the division raises when
    [total_size] is zero; [int] truncates the quotient.  (Python divides
    in floating point; for the sizes of the files a launcher moves, far
    below 2^46 bytes, the truncated quotient is the integer one.) *)
Definition percent_of (downloaded total_size : Z) : M Z :=
  if total_size =? 0 then raise ZeroDivisionError
  else mret (Z.quot (downloaded * 100) total_size).

(** The generator [response.iter_content(1024)] once its chunks are
    consumed: it ends, or raises when the connection broke. *)
Definition end_of_stream (response : response) : M unit :=
  if broken response then raise RequestException else mret tt.

(** [int(response.headers.get('Content-Length', 0))]. *)
Definition total_size_of (response : response) : Z :=
  default 0 (content_length response).

(** ** ModManager *)

Definition catch_RequestException (e : exn) : bool :=
  match e with RequestException | JSONDecodeError => true | _ => false end.

(** [except Exception]. *)
Definition catch_Exception (e : exn) : bool := true.

(** The body of [for chunk in response.iter_content(1024)] in
    [download_mod]. *)
Fixpoint write_mod_chunks (mod_name server_name : string) (total_size : Z)
    (cs : list bytes) (downloaded : Z) : M unit :=
  match cs with
  | [] => mret tt
  | chunk :: cs' =>
      file_write (ModPath server_name mod_name) chunk;;
      let downloaded := downloaded + Z.of_nat (length chunk) in
      percent ← percent_of downloaded total_size;
      set_status_message (MsgModProgress mod_name percent);;
      write_mod_chunks mod_name server_name total_size cs' downloaded
  end.

Definition download_mod (mod_name server_name : string) : M unit :=
  try_except
    (response ← requests_get (DownloadMod server_name mod_name);
     if status_code response =? 200 then
       let total_size := total_size_of response in
       open_wb (ModPath server_name mod_name);;
       write_mod_chunks mod_name server_name total_size (chunks response) 0;;
       end_of_stream response;;
       logging_info (MsgModDownloaded mod_name);;
       set_status_message (MsgModDownloaded mod_name)
     else
       logging_error (MsgModStatus mod_name (status_code response));;
       set_status_message (MsgModFailed mod_name))
    catch_RequestException
    (λ e,
       logging_error (MsgModError mod_name e);;
       set_status_message (MsgModErrorShort mod_name)).

(** Returns [None] (Python's implicit return) when the status is not 200. *)
Definition get_remote_mods_dict (server_name : string) : M (option dict) :=
  response ← requests_get (ListMod server_name);
  if status_code response =? 200 then
    match json_pairs response with
    | Some ps => mret (Some (dict_of_pairs ps))
    | None => raise JSONDecodeError
    end
  else mret None.

(** The loop of [get_local_mods_dict], with the dictionary [files] it
    fills. *)
Fixpoint hash_files (entries : listing) (files : dict) : M dict :=
  match entries with
  | [] => mret files
  | (name, f) :: entries' =>
      if is_file f then
        data ← read_file f;
        hash_files entries' (dict_set files name (sha256 data))
      else hash_files entries' files
  end.

Definition get_local_mods_dict (server_name : string) : M dict :=
  entries ← iterdir server_name;
  hash_files entries [].

(** [k not in d], where [d] may be [None]: [None] is not iterable. *)
Definition not_in (k : string) (d : option dict) : M bool :=
  match d with
  | Some d => mret (negb (dict_mem d k))
  | None => raise TypeError
  end.

(** [d.items()], where [d] may be [None]: [None] has no attribute
    [items]. *)
Definition items (d : option dict) : M dict :=
  match d with
  | Some d => mret d
  | None => raise AttributeError
  end.

(** [local_hash != remote_hash], where [local_hash] is a string or
    [None]. *)
Definition differs (local_hash : option string) (remote_hash : string)
    : bool :=
  match local_hash with
  | Some h => negb (String.eqb h remote_hash)
  | None => true
  end.

(** The body of the first loop of [check_mods], over the local names. *)
Definition remove_stale (server_name : string) (remote_mods : option dict)
    (local_mod : string) : M unit :=
  absent ← not_in local_mod remote_mods;
  if absent : bool then
    os_remove (ModPath server_name local_mod);;
    logging_info (MsgModRemoved local_mod);;
    set_status_message (MsgModRemoved local_mod)
  else mret tt.

(** The body of the second loop of [check_mods], over the items of the
    remote manifest. *)
Definition fetch_changed (server_name : string) (local_mods : dict)
    (item : string * string) : M unit :=
  let remote_mod := item.1 in
  let remote_hash := item.2 in
  let local_hash := dict_get local_mods remote_mod in
  if differs local_hash remote_hash then
    match local_hash with
    | None =>
        logging_info (MsgModMissing remote_mod);;
        set_status_message (MsgModMissing remote_mod)
    | Some _ =>
        logging_info (MsgModMismatch remote_mod);;
        set_status_message (MsgModMismatch remote_mod)
    end;;
    download_mod remote_mod server_name
  else mret tt.

Definition check_mods (server_name : string) : M unit :=
  makedirs_mods server_name;;
  remote_mods ← get_remote_mods_dict server_name;
  local_mods ← get_local_mods_dict server_name;
  for_each (dict_keys local_mods) (remove_stale server_name remote_mods);;
  remote_items ← items remote_mods;
  for_each remote_items (fetch_changed server_name local_mods).

(** ** VersionManager *)

(** The body of [for data in response.iter_content(1024)] in
    [download_fabric_base]. *)
Fixpoint write_fabric_chunks (server_name : string) (total_size : Z)
    (cs : list bytes) (downloaded last_percent : Z) : M unit :=
  match cs with
  | [] => mret tt
  | data :: cs' =>
      file_write (ArchivePath server_name) data;;
      let downloaded := downloaded + Z.of_nat (length data) in
      percent ← percent_of downloaded total_size;
      if percent >? last_percent then
        set_status_message (MsgFabricProgress percent);;
        write_fabric_chunks server_name total_size cs' downloaded percent
      else
        write_fabric_chunks server_name total_size cs' downloaded last_percent
  end.

Definition download_fabric_base (server_name : string) : M unit :=
  makedirs_build server_name;;
  response ← requests_get (DownloadFabric server_name);
  if status_code response =? 200 then
    let total_size := total_size_of response in
    open_wb (ArchivePath server_name);;
    write_fabric_chunks server_name total_size (chunks response) 0 0;;
    end_of_stream response;;
    set_status_message MsgFabricDownloaded;;
    try_except
      (set_status_message MsgExtracting;;
       zip_extractall server_name)
      catch_Exception
      (λ e, logging_error (MsgExtractError e));;
    try_except
      (os_remove (ArchivePath server_name))
      catch_Exception
      (λ e, logging_error (MsgArchiveRemoveError e));;
    set_status_message MsgDone
  else
    logging_error (MsgFabricStatus (status_code response));;
    set_status_message MsgFabricFailed.

(** The loop of [check_fabric_version] that sets [found]. *)
Fixpoint find_version (installed_versions : list string)
    (required_version : string) : bool :=
  match installed_versions with
  | [] => false
  | version :: rest =>
      if String.eqb version required_version then true
      else find_version rest required_version
  end.

Definition check_fabric_version (server_name required_version : string)
    : M unit :=
  installed_versions ← get_installed_versions server_name;
  let found := find_version installed_versions required_version in
  if negb found then
    logging_info (MsgVersionMissing required_version);;
    set_status_message (MsgVersionMissing required_version);;
    download_fabric_base server_name
  else
    logging_info (MsgVersionInstalled required_version);;
    set_status_message (MsgVersionInstalled required_version).

Definition delete_build (server_name : string) : M unit :=
  try_except
    (rmtree server_name;;
     logging_info (MsgBuildDeleted server_name))
    catch_Exception
    (λ e, logging_error (MsgBuildDeleteError server_name e)).

(** ** Launcher *)

(** The thread body [run] of [play_game], from the version check to the
    end of the mod check.  The call of [on_game_start] before them only
    switches the page shown by the window, and what follows them (building
    the command line and starting the game) is not modelled. *)
Definition run (server_name required_version : string) : M unit :=
  check_fabric_version server_name required_version;;
  check_mods server_name.

End Launcher.

(** ** What a run is observed to do *)

(** The paths removed with [os.remove], the paths opened for writing and
    the requests sent, in order. *)
Definition removed (ev : list event) : list path :=
  omap (λ e, match e with ERemove p => Some p | _ => None end) ev.

Definition opened (ev : list event) : list path :=
  omap (λ e, match e with EOpenW p => Some p | _ => None end) ev.

Definition requests (ev : list event) : list request :=
  omap (λ e, match e with EGet r => Some r | _ => None end) ev.

(** The names of the mod files removed, requested from the server and
    opened for writing. *)
Definition removed_mods (ev : list event) : list string :=
  omap (λ p, match p with ModPath _ k => Some k | _ => None end) (removed ev).

Definition requested_mods (ev : list event) : list string :=
  omap (λ r, match r with DownloadMod _ k => Some k | _ => None end)
    (requests ev).

Definition written_mods (ev : list event) : list string :=
  omap (λ p, match p with ModPath _ k => Some k | _ => None end) (opened ev).

(** The key set of a dictionary. *)
Definition keys (d : dict) : gset string := list_to_set (dict_keys d).

(** The decisions of a reconciliation pass as its events show them: the
    names it deleted, the names it downloaded, and the names of the two
    inventories it neither deleted, nor requested, nor wrote. *)
Definition Delete_set (ev : list event) : gset string :=
  list_to_set (removed_mods ev).

Definition Download_set (ev : list event) : gset string :=
  list_to_set (requested_mods ev).

Definition Keep_set (L R : dict) (ev : list event) : gset string :=
  (keys L ∪ keys R) ∖
  list_to_set (removed_mods ev ++ requested_mods ev ++ written_mods ev).

(** A reply on which the request for the manifest or for a download
    fails: the transport fails, or the status is not 200 (every status
    outside 2xx is such a status). *)
Definition request_fails (rp : reply) : Prop :=
  match rp with
  | ConnectionFailed => True
  | Reply r => status_code r ≠ 200
  end.

(** The names of the unreadable regular files of a listing. *)
Definition unreadable (f : node) : bool :=
  match f with RegFile false _ => true | _ => false end.

(** [fs'] differs from [fs] at most in the entry [k] of the [mods]
    directory of build [s], a directory that both have. *)
Definition only_changes (s k : string) (fs fs' : fsys) : Prop :=
  is_Some (mods_of fs s) ∧ is_Some (mods_of fs' s) ∧
  (∀ k', k' ≠ k → entry_at fs' s k' = entry_at fs s k') ∧
  (∀ s', s' ≠ s → fs' !! s' = fs !! s').

(** [fs'] differs from [fs] at most in the entries of the [mods] directory
    of build [s] whose names are in [ks]. *)
Definition changes_within (s : string) (ks : list string) (fs fs' : fsys)
    : Prop :=
  is_Some (mods_of fs s) ∧ is_Some (mods_of fs' s) ∧
  (∀ k', k' ∉ ks → entry_at fs' s k' = entry_at fs s k') ∧
  (∀ s', s' ≠ s → fs' !! s' = fs !! s').

(** A reply to a download request whose progress percentage can be
    computed: when the body is streamed (status 200) and has a chunk, the
    [Content-Length] header is there and is not zero. *)
Definition has_usable_length (rp : reply) : Prop :=
  match rp with
  | ConnectionFailed => True
  | Reply r => status_code r = 200 → total_size_of r ≠ 0 ∨ chunks r = []
  end.

(** Events that remove nothing, write nothing and request nothing. *)
Definition quiet (ev : list event) : Prop :=
  removed ev = [] ∧ opened ev = [] ∧ requests ev = [].

(** The version identifiers that [get_installed_versions] lists for a
    build. *)
Definition installed_ids (fs : fsys) (s : string) : list string :=
  match fs !! s with Some b => installed b | None => [] end.

(** A name that is a single path component: not empty, not [.] or [..],
    and without a separator of POSIX or Windows: the slash (code 47),
    the backslash (92) or the colon (58).  Joined to a directory, such a
    name is an entry of that directory. *)
Definition is_separator (c : Ascii.ascii) : bool :=
  let code := Ascii.N_of_ascii c in
  ((code =? 47) || (code =? 92) || (code =? 58))%N.

Definition plain_name (name : string) : bool :=
  negb (String.eqb name "") && negb (String.eqb name ".") &&
  negb (String.eqb name "..") &&
  forallb (λ c, negb (is_separator c)) (String.list_ascii_of_string name).

(** The names of the manifest of build [s], when the server sends one,
    are single path components. *)
Definition plain_manifest (net : request → reply) (s : string) : Prop :=
  ∀ response ps,
    net (ListMod s) = Reply response → json_pairs response = Some ps →
    ∀ k, k ∈ dict_keys ps → plain_name k = true.

(** A reply whose body is streamed and whose progress can be computed. *)
Definition streams (rp : reply) (r : response) : Prop :=
  rp = Reply r ∧ status_code r = 200 ∧
  (total_size_of r ≠ 0 ∨ chunks r = []).

(** ** Example worlds

    The scenario of the specification: the local mods are [a.jar] and
    [b.jar], the manifest lists [b.jar] with the digest of the local file
    and [c.jar].  The digest of the examples is the content itself, read as
    a string. *)

Definition ex_digest (data : bytes) : string :=
  String.string_of_list_byte data.

Definition ex_extract_fails (data : bytes) (b : build) : bool * build :=
  (false, b).

Definition ex_fs : fsys :=
  {[ "srv"%string :=
       Build [] None
         (Some [("a.jar"%string, RegFile true [Byte.x61]);
                ("b.jar"%string, RegFile true [Byte.x62])]) ]}.

Definition ex_manifest : response :=
  Response 200 None [] false
    (Some [("b.jar"%string, "b"%string); ("c.jar"%string, "c"%string)]).

(** The server answers every download with the one byte [c] and refuses
    the bootstrap archive. *)
Definition ex_net (r : request) : reply :=
  match r with
  | ListMod _ => Reply ex_manifest
  | DownloadMod _ _ => Reply (Response 200 (Some 1) [[Byte.x63]] false None)
  | DownloadFabric _ => Reply (Response 404 None [] false None)
  end.

(** The stream of a download breaks after one of two bytes. *)
Definition ex_net_broken (r : request) : reply :=
  match r with
  | ListMod _ => Reply ex_manifest
  | _ => Reply (Response 200 (Some 2) [[Byte.x63]] true None)
  end.

(** The downloads carry no [Content-Length] header. *)
Definition ex_net_no_length (r : request) : reply :=
  match r with
  | ListMod _ => Reply ex_manifest
  | _ => Reply (Response 200 None [[Byte.x63]] false None)
  end.

(** The bootstrap archive is served whole. *)
Definition ex_net_archive (r : request) : reply :=
  match r with
  | ListMod _ => Reply ex_manifest
  | _ => Reply (Response 200 (Some 1) [[Byte.x50]] false None)
  end.

(** The server is down. *)
Definition ex_net_down (r : request) : reply := ConnectionFailed.

(** The server answers 503 to everything. *)
Definition ex_net_503 (r : request) : reply :=
  Reply (Response 503 None [] false None).

(** [a.jar] cannot be read; [b.jar] is as before. *)
Definition ex_fs_unreadable : fsys :=
  {[ "srv"%string :=
       Build [] None
         (Some [("a.jar"%string, RegFile false [Byte.x61]);
                ("b.jar"%string, RegFile true [Byte.x62])]) ]}.

(** A build with an installed version and no [mods] directory. *)
Definition ex_fs_installed : fsys :=
  {[ "srv"%string := Build ["fabric-1.20.1"%string] None None ]}.

(** ** Invariants of the file system *)

(** A computation keeps the invariant [I] of the file system, whatever
    its outcome. *)
Definition preserves {A} (I : fsys → Prop) (m : M A) : Prop :=
  ∀ fs o fs' ev, I fs → m fs = (o, fs', ev) → I fs'.

(** No two entries of the [mods] directory of build [s] share a name. *)
Definition distinct_names (s : string) (fs : fsys) : Prop :=
  ∀ l, mods_of fs s = Some l → NoDup l.*1.

(** Every regular file of the [mods] directory of build [s] can be
    read. *)
Definition all_readable (s : string) (fs : fsys) : Prop :=
  ∀ k r d, entry_at fs s k = Some (RegFile r d) → r = true.


(** The digest of the regular file called [k] in the [mods] directory of
    build [s], when there is one. *)
Definition digest_at (sha256 : bytes → string) (fs : fsys) (s k : string)
    : option string :=
  match entry_at fs s k with
  | Some (RegFile _ d) => Some (sha256 d)
  | _ => None
  end.

(** The server delivers the mod [k] whole, and its content has the digest
    [h]. *)
Definition delivers (sha256 : bytes → string) (net : request → reply)
    (s k h : string) : Prop :=
  ∃ r, streams (net (DownloadMod s k)) r ∧ broken r = false ∧
       sha256 (concat (chunks r)) = h.

(** What the code does to the listing of a [mods] directory, at the entry
    called [k]: [os.remove], [open(_, "wb")] on an existing file,
    [file.write], and [open(_, "wb")] on a new name. *)
Inductive listing_step (k : string) : listing → listing → Prop :=
  | step_remove l : listing_step k l (remove_entry l k)
  | step_truncate l : listing_step k l (alter_entry truncate l k)
  | step_append l chunk : listing_step k l (alter_entry (append chunk) l k)
  | step_create l :
      lookup_entry l k = None →
      listing_step k l (l ++ [(k, RegFile true [])]).

(** What [check_mods] does to the file system, one step at a time: a step
    on the listing of the [mods] directory of build [s], or the creation
    of that directory by [os.makedirs]. *)
Inductive mods_step (s : string) : fsys → fsys → Prop :=
  | step_listing fs b l l' k :
      fs !! s = Some b → mods b = Some l → listing_step k l l' →
      mods_step s fs (<[s := set_mods (Some l') b]> fs)
  | step_mkdir_mods fs b :
      fs !! s = Some b → mods b = None →
      mods_step s fs (<[s := set_mods (Some []) b]> fs)
  | step_mkdir_build fs :
      fs !! s = None →
      mods_step s fs (<[s := Build [] None (Some [])]> fs).

(** An invariant that every such step keeps. *)
Definition step_closed (s : string) (I : fsys → Prop) : Prop :=
  ∀ fs fs', I fs → mods_step s fs fs' → I fs'.

(** ** Progress reports *)


Definition fabric_progress (ev : list event) : list Z :=
  omap (λ e, match e with
             | EStatus (MsgFabricProgress p) => Some p
             | _ => None
             end) ev.

(** The percentage computed after each chunk of [cs], when [downloaded]
    bytes came before them. *)
Fixpoint percents (total_size : Z) (cs : list bytes) (downloaded : Z)
    : list Z :=
  match cs with
  | [] => []
  | chunk :: cs' =>
      let downloaded := downloaded + Z.of_nat (length chunk) in
      Z.quot (downloaded * 100) total_size :: percents total_size cs' downloaded
  end.

(** The percentages of [ps] that exceed all those before them and
    [last_percent]: the ones the loop of [download_fabric_base] shows. *)
Fixpoint advancing (last_percent : Z) (ps : list Z) : list Z :=
  match ps with
  | [] => []
  | percent :: ps' =>
      if percent >? last_percent then percent :: advancing percent ps'
      else advancing last_percent ps'
  end.

(** ** The rest of the launcher

    What [run] does after the mod pass up to the options of the game, the
    MAC address it derives the player's UUID from, and the arguments of
    the window. *)

(** A Python [str]: the list of its code points. *)
Abbreviation pystr := (list N).

(** An ASCII literal of the source as a [str]. *)
Definition str_of (s : string) : pystr :=
  Ascii.N_of_ascii <$> String.list_ascii_of_string s.

(** The values [json.load] and [response.json()] build, and the API
    object that the window is given.  The items of a [dict] are listed in
    insertion order. *)
#[warnings="-register-all"] Inductive pyval : Type :=
  | PNone
  | PBool (b : bool)
  | PInt (n : Z)
  | PFloat (x : spec_float)
  | PStr (s : pystr)
  | PList (l : list pyval)
  | PDict (d : list (pystr * pyval))
  | PApi.

(** [bool(v)]. *)
Definition truthy (v : pyval) : bool :=
  match v with
  | PNone => false
  | PBool b => b
  | PInt n => negb (n =? 0)
  | PFloat (S754_zero _) => false
  | PFloat _ => true
  | PStr [] => false
  | PStr _ => true
  | PList [] => false
  | PList _ => true
  | PDict [] => false
  | PDict _ => true
  | PApi => true
  end.

(** [x or y] and [x and y]. *)
Definition py_or (x y : pyval) : pyval := if truthy x then x else y.
Definition py_and (x y : pyval) : pyval := if truthy x then y else x.

(** [d.get(k, default)] and [d[k] = v] on the items of a [dict]. *)
Fixpoint py_get (d : list (pystr * pyval)) (k : pystr) (default : pyval)
    : pyval :=
  match d with
  | [] => default
  | (k', v) :: d' => if decide (k' = k) then v else py_get d' k default
  end.

Fixpoint py_set (d : list (pystr * pyval)) (k : pystr) (v : pyval)
    : list (pystr * pyval) :=
  match d with
  | [] => [(k, v)]
  | (k', v') :: d' =>
      if decide (k' = k) then (k', v) :: d' else (k', v') :: py_set d' k v
  end.

(** [str.isspace] on one code point: the characters that [str.strip()]
    and [str.split()] take as white space. *)
Definition isspace (c : N) : bool :=
  ((9 <=? c) && (c <=? 13) || (28 <=? c) && (c <=? 32) ||
   (c =? 133) || (c =? 160) || (c =? 5760) ||
   (8192 <=? c) && (c <=? 8202) || (c =? 8232) || (c =? 8233) ||
   (c =? 8239) || (c =? 8287) || (c =? 12288))%N.

Fixpoint lstrip (s : pystr) : pystr :=
  match s with
  | [] => []
  | c :: s' => if isspace c then lstrip s' else s
  end.

(** [s.strip()]. *)
Definition strip (s : pystr) : pystr :=
  reverse (lstrip (reverse (lstrip s))).

(** [s.split()]: the maximal runs of characters that are not white space;
    [word] is the run being read. *)
Fixpoint split_from (s : pystr) (word : pystr) : list pystr :=
  match s with
  | [] => match word with [] => [] | _ => [word] end
  | c :: s' =>
      if isspace c then
        match word with
        | [] => split_from s' []
        | _ => word :: split_from s' []
        end
      else split_from s' (word ++ [c])
  end.

Definition split (s : pystr) : list pystr := split_from s [].

(** Computations that return or raise, without other effects. *)
#[global] Instance outcome_ret : MRet outcome := @Return.
#[global] Instance outcome_bind : MBind outcome := λ A B f o,
  match o with
  | Return a => f a
  | Raise e => Raise e
  end.

(** *** get_first_mac_address *)

(** An address of a network interface, as [psutil] reports it. *)
Record snicaddr : Type := Snicaddr {
  family : Z;
  address : pystr
}.

Section Host.

(** [psutil.AF_LINK], a constant of the platform. *)
Variable AF_LINK : Z.

(** The inner loop: the first link-layer address of an interface. *)
Fixpoint first_link (addrs : list snicaddr) : option pystr :=
  match addrs with
  | [] => None
  | addr :: addrs' =>
      if family addr =? AF_LINK then Some (address addr)
      else first_link addrs'
  end.

(** The outer loop, over the items of [psutil.net_if_addrs()]. *)
Fixpoint first_mac (interfaces : list (pystr * list snicaddr))
    : option pystr :=
  match interfaces with
  | [] => None
  | (interface, addrs) :: interfaces' =>
      match first_link addrs with
      | Some a => Some a
      | None => first_mac interfaces'
      end
  end.

(** [net_if_addrs] is what the call [psutil.net_if_addrs()] does.  The
    result is the address or [None], with the exceptions logged. *)
Definition get_first_mac_address
    (net_if_addrs : outcome (list (pystr * list snicaddr)))
    : option pystr * list exn :=
  match net_if_addrs with
  | Return interfaces => (first_mac interfaces, [])
  | Raise e => (None, [e])
  end.

(** *** The options of the game *)

(** [str(uuid.uuid5(uuid.NAMESPACE_DNS, name))], for a [name] that is a
    [str]. *)
Variable uuid5 : pystr → pystr.

(** [str(v)], for a value that is not a [str]. *)
Variable py_str : pyval → pystr.

(** A value in an f-string. *)
Definition format_value (v : pyval) : pystr :=
  match v with PStr s => s | _ => py_str v end.

(** [uuid.uuid5] on [None] raises a [TypeError]. *)
Definition uuid5_of (mac_address : option pystr) : outcome pystr :=
  match mac_address with
  | Some name => Return (uuid5 name)
  | None => Raise TypeError
  end.

(** [config.get(k, default)], where [config] is what [json.load]
    returned: only a [dict] has the method. *)
Definition config_get (config : pyval) (k : string) (default : pyval)
    : outcome pyval :=
  match config with
  | PDict d => Return (py_get d (str_of k) default)
  | _ => Raise AttributeError
  end.

(** [v.strip()]: only a [str] has the method. *)
Definition py_strip (v : pyval) : outcome pystr :=
  match v with
  | PStr s => Return (strip s)
  | _ => Raise AttributeError
  end.

(** The dictionary [options] of [run]; [gameDirectory] is the directory of
    the build of that name. *)
Record options : Type := Options {
  executablePath : pyval;
  launcherVersion : pystr;
  gameDirectory : string;
  username : pyval;
  uuid : pystr;
  jvmArguments : list pystr;
  customResolution : bool;
  resolutionWidth : pyval;
  resolutionHeight : pyval;
  launcherName : pystr;
  session_id : pystr
}.

(** The part of [run] that follows the mod pass, from the MAC address to
    the dictionary [options], with the exceptions that
    [get_first_mac_address] logged: [net_if_addrs] is what
    [psutil.net_if_addrs()] does and [load_config] what
    [self.config_manager.load_config()] does. *)
Definition launch_options
    (net_if_addrs : outcome (list (pystr * list snicaddr)))
    (load_config : outcome pyval) (server_name : string)
    : outcome options * list exn :=
  let '(mac_address, logged) := get_first_mac_address net_if_addrs in
  (generated_uuid ← uuid5_of mac_address;
  config ← load_config;
  nickname ← config_get config "nickname" (PStr (str_of "Player"));
  ram ← config_get config "ram" (PStr []);
  jvm_args ← config_get config "jvm_args" (PStr []);
  java_path ← config_get config "java_path" (PStr (str_of "java"));
  let java_path := py_or java_path (PStr (str_of "java")) in
  res_x ← config_get config "resolution_x" (PStr []);
  res_y ← config_get config "resolution_y" (PStr []);
  let customResolution := truthy (py_and res_x res_y) in
  jvm_args ← config_get config "jvm_args" (PStr []);
  jvm_args ← py_strip jvm_args;
  let jvm_arguments := [str_of "-Xmx" ++ format_value ram ++ str_of "M"] in
  let jvm_arguments :=
    if truthy (PStr jvm_args) then jvm_arguments ++ split jvm_args
    else jvm_arguments in
  mret (Options java_path (str_of "0.1.4") server_name nickname
          generated_uuid jvm_arguments customResolution res_x res_y
          (str_of "YummyCraft Launcher") []),
   logged).

(** *** WebviewStart.create_window *)

(** The response to the request for [ui/config]: the status code and the
    value of [response.json()], [None] when that call raises. *)
Record ui_response : Type := UiResponse {
  ui_status : Z;
  ui_json : option pyval
}.

(** [response.raise_for_status()]: an [HTTPError], which is a
    [RequestException], for the statuses from 400 to 599. *)
Definition raise_for_status (response : ui_response) : outcome unit :=
  if (400 <=? ui_status response) && (ui_status response <? 600)
  then Raise RequestException else Return tt.

Definition response_json (response : ui_response) : outcome pyval :=
  match ui_json response with
  | Some v => Return v
  | None => Raise JSONDecodeError
  end.

(** [target[k] = v] with a [str] as key: a [dict] is updated, every other
    value raises a [TypeError]. *)
Definition py_setitem (target : pyval) (k : string) (v : pyval)
    : outcome pyval :=
  match target with
  | PDict d => Return (PDict (py_set d (str_of k) v))
  | _ => Raise TypeError
  end.

Definition default_config_ui : pyval :=
  PDict [(str_of "title", PStr (str_of "YummyCraft Launcher"));
         (str_of "background_color", PStr (str_of "#222222"));
         (str_of "min_size", PList [PInt 600; PInt 400]);
         (str_of "transparent", PBool false);
         (str_of "frameless", PBool false);
         (str_of "resizable", PBool true);
         (str_of "height", PInt 600);
         (str_of "width", PInt 900)].

(** What [create_window] logs. *)
Inductive ui_log : Type :=
  | UiConfigLoaded
  | UiConfigError (e : exn).

(** [webview.create_window], a function of the library, called with
    keyword arguments, and what a call of it does: the window it returns
    or the exception it raises (for a keyword it does not know, say). *)
Variable window_call : Type.
Variable webview_create_window : list (pystr * pyval) → window_call.

(** [**config_ui]: the items of a [dict]. *)
Definition py_kwargs (v : pyval) : outcome (list (pystr * pyval)) :=
  match v with
  | PDict d => Return d
  | _ => Raise TypeError
  end.

(** The dictionary [config_ui] before the two assignments, with what is
    logged: [get] is what [requests.get] does on the URL of [ui/config]. *)
Definition fetch_config_ui (get : outcome ui_response)
    : pyval * list ui_log :=
  let fetched :=
    response ← get;
    raise_for_status response;;
    response_json response in
  match fetched with
  | Return config_ui => (config_ui, [UiConfigLoaded])
  | Raise e => (default_config_ui, [UiConfigError e])
  end.

(** [create_window]: [Return c] when [webview.create_window] was called
    and [c] is what the call did, [Raise e] when [e] was raised before the
    call.  [api_url] is the value of [self.api_url]. *)
Definition create_window (api_url : pyval) (get : outcome ui_response)
    : outcome window_call * list ui_log :=
  let '(config_ui, log) := fetch_config_ui get in
  (config_ui ←
     py_setitem config_ui "url"
       (PStr (format_value api_url ++ str_of "/launcher/ui/index.html"));
   config_ui ← py_setitem config_ui "js_api" PApi;
   kwargs ← py_kwargs config_ui;
   mret (webview_create_window kwargs),
   log).

End Host.

(** ** More example worlds *)

(** The manifest is the empty object. *)
Definition ex_net_empty (r : request) : reply :=
  match r with
  | ListMod _ => Reply (Response 200 None [] false (Some []))
  | _ => ex_net r
  end.

(** The body of the manifest is not JSON. *)
Definition ex_net_garbled (r : request) : reply :=
  match r with
  | ListMod _ => Reply (Response 200 None [] false None)
  | _ => ex_net r
  end.


(** A machine with a loopback interface and a network card; 17 is the
    [AF_LINK] of Linux and 2 is [AF_INET]. *)
Definition ex_interfaces : list (pystr * list snicaddr) :=
  [(str_of "lo", [Snicaddr 2 (str_of "127.0.0.1")]);
   (str_of "eth0",
    [Snicaddr 2 (str_of "192.168.0.2");
     Snicaddr 17 (str_of "aa:bb:cc:dd:ee:ff")])].

(** A configuration with two JVM arguments between blanks, no path of
    Java and one dimension of the resolution. *)
Definition ex_config : pyval :=
  PDict [(str_of "nickname", PStr (str_of "Steve"));
         (str_of "ram", PStr (str_of "2048"));
         (str_of "jvm_args", PStr (str_of " -XX:+UseG1GC  -Dfoo=bar "));
         (str_of "java_path", PStr []);
         (str_of "resolution_x", PStr (str_of "1280"));
         (str_of "resolution_y", PStr [])].

(** Stand-ins for [uuid.uuid5] and [str] in the examples, which format
    strings only. *)
Definition ex_uuid5 (name : pystr) : pystr := str_of "uuid5:" ++ name.

Definition ex_py_str (v : pyval) : pystr := str_of "?".

(** ** Reasoning about computations *)

Lemma bind_unfold {A B} (m : M A) (f : A → M B) fs :
  (m ≫= f) fs =
  match m fs with
  | (Return a, fs1, ev1) =>
      match f a fs1 with (o, fs2, ev2) => (o, fs2, ev1 ++ ev2) end
  | (Raise e, fs1, ev1) => (Raise e, fs1, ev1)
  end.
Proof. reflexivity. Qed.

Lemma bind_Return {A B} (m : M A) (f : A → M B) fs a fs1 ev1 :
  m fs = (Return a, fs1, ev1) →
  (m ≫= f) fs = match f a fs1 with (o, fs2, ev2) => (o, fs2, ev1 ++ ev2) end.
Proof. intros H. rewrite bind_unfold, H. reflexivity. Qed.

Lemma bind_Raise {A B} (m : M A) (f : A → M B) fs e fs1 ev1 :
  m fs = (Raise e, fs1, ev1) → (m ≫= f) fs = (Raise e, fs1, ev1).
Proof. intros H. rewrite bind_unfold, H. reflexivity. Qed.

Lemma bind_inv {A B} (m : M A) (f : A → M B) fs o fs' ev :
  (m ≫= f) fs = (o, fs', ev) →
  (∃ a fs1 ev1 ev2,
     m fs = (Return a, fs1, ev1) ∧ f a fs1 = (o, fs', ev2) ∧ ev = ev1 ++ ev2)
  ∨ (∃ e, m fs = (Raise e, fs', ev) ∧ o = Raise e).
Proof.
  rewrite bind_unfold. destruct (m fs) as [[[a|e] fs1] ev1].
  - destruct (f a fs1) as [[o2 fs2] ev2] eqn:Hf. intros [= <- <- <-].
    left. eauto 10.
  - intros [= <- <- <-]. right. eauto.
Qed.

Lemma bind_inv_Return {A B} (m : M A) (f : A → M B) fs b fs' ev :
  (m ≫= f) fs = (Return b, fs', ev) →
  ∃ a fs1 ev1 ev2,
    m fs = (Return a, fs1, ev1) ∧ f a fs1 = (Return b, fs', ev2) ∧
    ev = ev1 ++ ev2.
Proof. intros [H | (e & _ & [=])]%bind_inv. exact H. Qed.

(** ** Event lists *)

Lemma removed_app ev1 ev2 : removed (ev1 ++ ev2) = removed ev1 ++ removed ev2.
Proof. apply omap_app. Qed.

Lemma opened_app ev1 ev2 : opened (ev1 ++ ev2) = opened ev1 ++ opened ev2.
Proof. apply omap_app. Qed.

Lemma requests_app ev1 ev2 :
  requests (ev1 ++ ev2) = requests ev1 ++ requests ev2.
Proof. apply omap_app. Qed.

Lemma removed_cons e ev :
  removed (e :: ev) =
  match e with ERemove p => p :: removed ev | _ => removed ev end.
Proof. by destruct e. Qed.

Lemma opened_cons e ev :
  opened (e :: ev) =
  match e with EOpenW p => p :: opened ev | _ => opened ev end.
Proof. by destruct e. Qed.

Lemma requests_cons e ev :
  requests (e :: ev) =
  match e with EGet r => r :: requests ev | _ => requests ev end.
Proof. by destruct e. Qed.

(** Pushes the three projections through an explicit list of events. *)
Ltac project_events :=
  repeat first
    [ rewrite removed_cons | rewrite opened_cons | rewrite requests_cons
    | rewrite removed_app | rewrite opened_app | rewrite requests_app ];
  cbv iota.

Lemma removed_mods_app ev1 ev2 :
  removed_mods (ev1 ++ ev2) = removed_mods ev1 ++ removed_mods ev2.
Proof. unfold removed_mods. by rewrite removed_app, omap_app. Qed.

Lemma requested_mods_app ev1 ev2 :
  requested_mods (ev1 ++ ev2) = requested_mods ev1 ++ requested_mods ev2.
Proof. unfold requested_mods. by rewrite requests_app, omap_app. Qed.

Lemma written_mods_app ev1 ev2 :
  written_mods (ev1 ++ ev2) = written_mods ev1 ++ written_mods ev2.
Proof. unfold written_mods. by rewrite opened_app, omap_app. Qed.

(** ** Dictionaries *)

Lemma dict_get_Some d k v : dict_get d k = Some v → (k, v) ∈ d.
Proof.
  induction d as [|[k' v'] d IH]; simpl; [done|].
  destruct (String.eqb_spec k' k) as [->|Hne].
  - intros [= ->]. left.
  - intros H. right. auto.
Qed.

Lemma dict_get_None d k : dict_get d k = None ↔ k ∉ dict_keys d.
Proof.
  unfold dict_keys. induction d as [|[k' v'] d IH]; simpl.
  - split; [intros _ ?%elem_of_nil; done | done].
  - rewrite not_elem_of_cons. destruct (String.eqb_spec k' k) as [->|Hne].
    + split; [done | intros [? _]; done].
    + rewrite IH. split; [by intros ? | by intros [_ ?]].
Qed.

Lemma dict_mem_keys d k : dict_mem d k = true ↔ k ∈ dict_keys d.
Proof.
  unfold dict_mem. destruct (dict_get d k) eqn:E.
  - split; [intros _ | done].
    destruct (decide (k ∈ dict_keys d)) as [|Hn]; [done|].
    apply dict_get_None in Hn. congruence.
  - split; [done|]. intros Hin. apply dict_get_None in E. done.
Qed.

Lemma elem_of_keys d k : k ∈ keys d ↔ is_Some (dict_get d k).
Proof.
  unfold keys. rewrite elem_of_list_to_set, <- dict_mem_keys. unfold dict_mem.
  destruct (dict_get d k); split; done.
Qed.

Lemma dict_get_NoDup d k v :
  NoDup (dict_keys d) → (k, v) ∈ d → dict_get d k = Some v.
Proof.
  unfold dict_keys. induction d as [|[k' v'] d IH]; simpl.
  - by intros _ ?%elem_of_nil.
  - rewrite NoDup_cons. intros [Hk Hd] [[= -> ->]|Hin]%elem_of_cons.
    + by rewrite String.eqb_refl.
    + destruct (String.eqb_spec k' k) as [->|Hne]; [|auto].
      exfalso. apply Hk. apply list_elem_of_fmap. by exists (k, v).
Qed.

Lemma dict_set_keys d k v :
  dict_keys (dict_set d k v) =
  if dict_mem d k then dict_keys d else dict_keys d ++ [k].
Proof.
  unfold dict_keys, dict_mem. induction d as [|[k' v'] d IH]; csimpl; [done|].
  destruct (String.eqb k' k); csimpl; [done|].
  rewrite IH. by destruct (dict_get d k).
Qed.

Lemma dict_set_NoDup d k v :
  NoDup (dict_keys d) → NoDup (dict_keys (dict_set d k v)).
Proof.
  intros Hd. rewrite dict_set_keys. destruct (dict_mem d k) eqn:E; [done|].
  apply NoDup_app. repeat split; [done | | apply NoDup_singleton].
  intros x Hx ->%list_elem_of_singleton.
  apply dict_mem_keys in Hx. congruence.
Qed.

Lemma dict_of_pairs_NoDup ps : NoDup (dict_keys (dict_of_pairs ps)).
Proof.
  unfold dict_of_pairs.
  assert (∀ d, NoDup (dict_keys d) →
    NoDup (dict_keys (foldl (λ d p, dict_set d p.1 p.2) d ps))) as H.
  { induction ps as [|p ps IH]; simpl; [done|].
    intros d Hd. apply IH. by apply dict_set_NoDup. }
  apply H. constructor.
Qed.

Lemma differs_spec local_hash remote_hash :
  differs local_hash remote_hash = true ↔ local_hash ≠ Some remote_hash.
Proof.
  destruct local_hash as [h|]; simpl; [|done].
  destruct (String.eqb_spec h remote_hash) as [->|Hne]; simpl.
  - split; [done | intros H; by destruct H].
  - split; [intros _ [= ?]; done | done].
Qed.
(** ** Directory listings and the file system *)

Lemma lookup_alter_entry g l k :
  lookup_entry (alter_entry g l k) k = g <$> lookup_entry l k.
Proof.
  induction l as [|[n f] l IH]; simpl; [done|].
  destruct (String.eqb n k) eqn:E; simpl; rewrite E; done.
Qed.

Lemma lookup_alter_entry_ne g l k k' :
  k ≠ k' → lookup_entry (alter_entry g l k) k' = lookup_entry l k'.
Proof.
  intros Hne. induction l as [|[n f] l IH]; simpl; [done|].
  destruct (String.eqb_spec n k) as [->|Hn]; simpl.
  - by destruct (String.eqb_spec k k').
  - by rewrite IH.
Qed.

Lemma lookup_entry_app l l' k :
  lookup_entry (l ++ l') k =
  match lookup_entry l k with
  | Some f => Some f
  | None => lookup_entry l' k
  end.
Proof.
  induction l as [|[n f] l IH]; simpl; [done|].
  by destruct (String.eqb n k).
Qed.

Lemma lookup_remove_entry_ne l k k' :
  k ≠ k' → lookup_entry (remove_entry l k) k' = lookup_entry l k'.
Proof.
  intros Hne. unfold remove_entry.
  induction l as [|[n f] l IH]; [done|].
  rewrite filter_cons. simpl. destruct (decide (n ≠ k)) as [Hn|Hn]; simpl.
  - by rewrite IH.
  - apply dec_stable in Hn as ->. destruct (String.eqb_spec k k'); done.
Qed.

Lemma mods_of_insert fs s b s' :
  mods_of (<[s := b]> fs) s' = if decide (s = s') then mods b else mods_of fs s'.
Proof.
  unfold mods_of. rewrite lookup_insert. by destruct (decide (s = s')).
Qed.

Lemma lookup_remove_entry l k : lookup_entry (remove_entry l k) k = None.
Proof.
  unfold remove_entry. induction l as [|[n f] l IH]; [done|].
  rewrite filter_cons. simpl. destruct (decide (n ≠ k)) as [Hn|Hn]; [|done].
  simpl. by destruct (String.eqb_spec n k).
Qed.

Lemma mods_of_Some fs s l :
  mods_of fs s = Some l → ∃ b, fs !! s = Some b ∧ mods b = Some l.
Proof. unfold mods_of. destruct (fs !! s); [eauto | done]. Qed.

Section Proofs.

Variable sha256 : bytes → string.
Variable extractall : bytes → build → bool * build.
Variable net : request → reply.

Lemma makedirs_mods_spec s fs :
  ∃ fs0, makedirs_mods s fs = (Return tt, fs0, []) ∧
         mods_of fs0 s = Some (default [] (mods_of fs s)) ∧
         (is_Some (mods_of fs s) → fs0 = fs) ∧
         (∀ s', s' ≠ s → fs0 !! s' = fs !! s').
Proof.
  unfold makedirs_mods, mods_of. destruct (fs !! s) as [b|] eqn:Hb.
  - destruct (mods b) as [l|] eqn:Hl.
    + exists fs. rewrite Hb. simpl. by rewrite Hl.
    + eexists. split; [done|]. rewrite lookup_insert_eq. simpl.
      split_and!; [done | by intros [? ?] |].
      intros s' Hs'. by rewrite lookup_insert_ne.
  - eexists. split; [done|]. rewrite lookup_insert_eq. simpl.
    split_and!; [done | by intros [? ?] |].
    intros s' Hs'. by rewrite lookup_insert_ne.
Qed.

Lemma entry_at_insert fs s b k :
  entry_at (<[s := b]> fs) s k =
  match mods b with Some l => lookup_entry l k | None => None end.
Proof. unfold entry_at. by rewrite mods_of_insert, decide_True. Qed.

Lemma only_changes_refl s k fs : is_Some (mods_of fs s) → only_changes s k fs fs.
Proof. by intros H. Qed.

Lemma only_changes_trans s k fs1 fs2 fs3 :
  only_changes s k fs1 fs2 → only_changes s k fs2 fs3 →
  only_changes s k fs1 fs3.
Proof.
  intros (H1 & H2 & Hk & Hs) (_ & H3 & Hk' & Hs'). split_and!; [done..| |].
  - intros k' Hne. by rewrite Hk', Hk.
  - intros s' Hne. by rewrite Hs', Hs.
Qed.

Lemma only_changes_insert s k fs b l l' :
  fs !! s = Some b → mods b = Some l →
  (∀ k', k' ≠ k → lookup_entry l' k' = lookup_entry l k') →
  only_changes s k fs (<[s := set_mods (Some l') b]> fs).
Proof.
  intros Hb Hl Hk.
  assert (mods_of fs s = Some l) as Hm by (unfold mods_of; by rewrite Hb).
  unfold only_changes, entry_at.
  rewrite !mods_of_insert, decide_True, Hm by done. simpl.
  split_and!; [done.. | |].
  - intros k' Hne. by apply Hk.
  - intros; by rewrite lookup_insert_ne.
Qed.

(** Opening a mod file for writing succeeds unless a directory has its
    name; the file is then empty and the other entries are as before. *)
Lemma open_wb_mod s k fs :
  is_Some (mods_of fs s) →
  entry_at fs s k ≠ Some SubDir →
  ∃ fs' r,
    open_wb (ModPath s k) fs = (Return tt, fs', [EOpenW (ModPath s k)]) ∧
    entry_at fs' s k = Some (RegFile r []) ∧
    only_changes s k fs fs'.
Proof.
  intros [l (b & Hb & Hl)%mods_of_Some] Hk. unfold open_wb.
  unfold entry_at, mods_of in Hk. rewrite Hb, Hl in *.
  destruct (lookup_entry l k) as [[r d|]|] eqn:E; [| done |].
  - eexists _, r. split; [done|]. rewrite entry_at_insert. simpl.
    rewrite lookup_alter_entry, E. split; [done|].
    eapply only_changes_insert; [done.. |].
    intros; by apply lookup_alter_entry_ne.
  - eexists _, true. split; [done|]. rewrite entry_at_insert. simpl.
    rewrite lookup_entry_app, E. simpl. rewrite String.eqb_refl.
    split; [done|]. eapply only_changes_insert; [done.. |].
    intros k' Hk'. rewrite lookup_entry_app. simpl.
    destruct (String.eqb_spec k k'); [done|]. by destruct (lookup_entry l k').
Qed.

Lemma open_wb_mod_inv s k fs o fs' ev :
  open_wb (ModPath s k) fs = (o, fs', ev) →
  (o = Return tt ∧ ev = [EOpenW (ModPath s k)] ∧ only_changes s k fs fs') ∨
  (∃ e, o = Raise e ∧ fs' = fs ∧ ev = []).
Proof.
  destruct (mods_of fs s) as [l|] eqn:Hl.
  - assert (entry_at fs s k = Some SubDir ∨ entry_at fs s k ≠ Some SubDir)
      as [E|E] by (destruct (entry_at fs s k) as [[]|]; auto).
    + unfold entry_at in E. rewrite Hl in E.
      apply mods_of_Some in Hl as (b & Hb & Hl). unfold open_wb.
      rewrite Hb, Hl, E. intros [= <- <- <-]. right. eauto.
    + destruct (open_wb_mod s k fs) as (fs1 & r & -> & _ & Hch);
        [by eauto | done |].
      intros [= <- <- <-]. left. eauto.
  - unfold mods_of in Hl. unfold open_wb. destruct (fs !! s) as [b|].
    + rewrite Hl. intros [= <- <- <-]. right. eauto.
    + intros [= <- <- <-]. right. eauto.
Qed.

(** Writing to an open mod file appends to it and to nothing else. *)
Lemma file_write_mod s k chunk fs r d :
  entry_at fs s k = Some (RegFile r d) →
  ∃ fs',
    file_write (ModPath s k) chunk fs = (Return tt, fs', []) ∧
    entry_at fs' s k = Some (RegFile r (d ++ chunk)) ∧
    only_changes s k fs fs'.
Proof.
  intros Hk. unfold entry_at in Hk.
  destruct (mods_of fs s) as [l|] eqn:Hm; [|done].
  apply mods_of_Some in Hm as (b & Hb & Hl).
  unfold file_write. rewrite Hb, Hl.
  eexists. split; [done|]. rewrite entry_at_insert. simpl.
  rewrite lookup_alter_entry, Hk. split; [done|].
  eapply only_changes_insert; [done.. |].
  intros; by apply lookup_alter_entry_ne.
Qed.

(** Removing a mod file succeeds when a regular file has that name, and
    leaves the other entries as they are. *)
Lemma os_remove_mod s k fs r d :
  entry_at fs s k = Some (RegFile r d) →
  ∃ fs',
    os_remove (ModPath s k) fs = (Return tt, fs', [ERemove (ModPath s k)]) ∧
    entry_at fs' s k = None ∧
    only_changes s k fs fs'.
Proof.
  intros Hk. unfold entry_at in Hk.
  destruct (mods_of fs s) as [l|] eqn:Hm; [|done].
  apply mods_of_Some in Hm as (b & Hb & Hl).
  unfold os_remove. rewrite Hb, Hl, Hk.
  eexists. split; [done|]. rewrite entry_at_insert. simpl.
  rewrite lookup_remove_entry. split; [done|].
  eapply only_changes_insert; [done.. |].
  intros; by apply lookup_remove_entry_ne.
Qed.

Lemma os_remove_mod_inv s k fs o fs' ev :
  os_remove (ModPath s k) fs = (o, fs', ev) →
  (o = Return tt ∧ ev = [ERemove (ModPath s k)] ∧ only_changes s k fs fs') ∨
  (∃ e, o = Raise e ∧ fs' = fs ∧ ev = []).
Proof.
  destruct (entry_at fs s k) as [[r d|]|] eqn:E.
  - destruct (os_remove_mod s k fs r d E) as (fs1 & -> & _ & Hch).
    intros [= <- <- <-]. left. eauto.
  - unfold entry_at in E. destruct (mods_of fs s) as [l|] eqn:Hm; [|done].
    apply mods_of_Some in Hm as (b & Hb & Hl). unfold os_remove.
    rewrite Hb, Hl, E. intros [= <- <- <-]. right. eauto.
  - unfold entry_at, mods_of in E. unfold os_remove.
    destruct (fs !! s) as [b|]; [destruct (mods b) as [l|]; [rewrite E|] |];
      intros [= <- <- <-]; right; eauto.
Qed.

End Proofs.
Section ModManager.

Variable sha256 : bytes → string.
Variable net : request → reply.

Lemma requests_get_Reply r response fs :
  net r = Reply response →
  requests_get net r fs = (Return response, fs, [EGet r]).
Proof.
  intros H. unfold requests_get. rewrite bind_unfold. simpl. by rewrite H.
Qed.

Lemma requests_get_failed r fs :
  net r = ConnectionFailed →
  requests_get net r fs = (Raise RequestException, fs, [EGet r]).
Proof.
  intros H. unfold requests_get. rewrite bind_unfold. simpl. by rewrite H.
Qed.

Lemma percent_of_nonzero downloaded total_size fs :
  total_size ≠ 0 →
  percent_of downloaded total_size fs =
  (Return (Z.quot (downloaded * 100) total_size), fs, []).
Proof.
  intros H. unfold percent_of. by rewrite (proj2 (Z.eqb_neq _ _) H).
Qed.

Lemma write_mod_chunks_ok k s total_size cs :
  total_size ≠ 0 →
  ∀ downloaded fs r d,
    entry_at fs s k = Some (RegFile r d) →
    ∃ fs' ev,
      write_mod_chunks k s total_size cs downloaded fs = (Return tt, fs', ev) ∧
      entry_at fs' s k = Some (RegFile r (d ++ concat cs)) ∧
      only_changes s k fs fs' ∧ quiet ev.
Proof.
  intros Ht. induction cs as [|c cs IH]; intros n fs r d Hk.
  - exists fs, []. simpl. rewrite app_nil_r.
    split_and!; [done.. | | done].
    apply only_changes_refl. unfold entry_at in Hk.
    destruct (mods_of fs s); [eauto | done].
  - destruct (file_write_mod s k c fs r d Hk) as (fs1 & Hw & Hk1 & Hch1).
    destruct (IH (n + Z.of_nat (length c)) fs1 r (d ++ c) Hk1)
      as (fs2 & ev & Hrec & Hk2 & Hch2 & Hq).
    cbn [write_mod_chunks]. rewrite (bind_Return _ _ _ _ _ _ Hw).
    rewrite (bind_Return _ _ _ _ _ _ (percent_of_nonzero _ _ _ Ht)).
    rewrite bind_unfold. cbn [set_status_message emit]. rewrite Hrec.
    eexists _, _. split; [done|]. simpl. rewrite <- (assoc_L (++)) in Hk2.
    split_and!; [done | by eapply only_changes_trans | apply Hq].
Qed.

Lemma write_mod_chunks_zero k s c cs downloaded fs r d :
  entry_at fs s k = Some (RegFile r d) →
  ∃ fs',
    write_mod_chunks k s 0 (c :: cs) downloaded fs =
      (Raise ZeroDivisionError, fs', []) ∧
    entry_at fs' s k = Some (RegFile r (d ++ c)) ∧
    only_changes s k fs fs'.
Proof.
  intros Hk.
  destruct (file_write_mod s k c fs r d Hk) as (fs1 & Hw & Hk1 & Hch1).
  cbn [write_mod_chunks]. rewrite (bind_Return _ _ _ _ _ _ Hw).
  rewrite bind_unfold. simpl. eauto.
Qed.

Lemma write_mod_chunks_inv k s total_size cs downloaded fs r d o fs' ev :
  entry_at fs s k = Some (RegFile r d) →
  write_mod_chunks k s total_size cs downloaded fs = (o, fs', ev) →
  only_changes s k fs fs' ∧ quiet ev.
Proof.
  intros Hk. destruct (decide (total_size = 0)) as [->|Ht].
  - destruct cs as [|c cs].
    + intros [= <- <- <-]. split; [|done]. apply only_changes_refl.
      unfold entry_at in Hk. destruct (mods_of fs s); [eauto | done].
    + destruct (write_mod_chunks_zero k s c cs downloaded fs r d Hk)
        as (fs1 & -> & _ & Hch).
      intros [= <- <- <-]. done.
  - destruct (write_mod_chunks_ok k s total_size cs Ht downloaded fs r d Hk)
      as (fs1 & ev1 & -> & _ & Hch & Hq).
    intros [= <- <- <-]. done.
Qed.

(** *** [download_mod] *)

Lemma download_mod_failed k s fs :
  net (DownloadMod s k) = ConnectionFailed →
  download_mod net k s fs =
  (Return tt, fs,
   [EGet (DownloadMod s k); ELog ERROR (MsgModError k RequestException);
    EStatus (MsgModErrorShort k)]).
Proof.
  intros H. unfold download_mod, try_except.
  rewrite (bind_Raise _ _ _ _ _ _ (requests_get_failed _ _ H)). done.
Qed.

Lemma download_mod_refused k s fs response :
  net (DownloadMod s k) = Reply response →
  status_code response ≠ 200 →
  download_mod net k s fs =
  (Return tt, fs,
   [EGet (DownloadMod s k);
    ELog ERROR (MsgModStatus k (status_code response));
    EStatus (MsgModFailed k)]).
Proof.
  intros H Hs. unfold download_mod, try_except.
  rewrite (bind_Return _ _ _ _ _ _ (requests_get_Reply _ _ _ H)).
  rewrite (proj2 (Z.eqb_neq _ _) Hs). done.
Qed.

(** A download whose stream is received, whole or in part, without a
    division by zero: the destination holds what was received, whether the
    stream ended or broke. *)
Lemma download_mod_streamed k s fs response :
  net (DownloadMod s k) = Reply response →
  status_code response = 200 →
  total_size_of response ≠ 0 ∨ chunks response = [] →
  is_Some (mods_of fs s) →
  entry_at fs s k ≠ Some SubDir →
  ∃ fs' ev r,
    download_mod net k s fs = (Return tt, fs', ev) ∧
    entry_at fs' s k = Some (RegFile r (concat (chunks response))) ∧
    only_changes s k fs fs' ∧
    removed ev = [] ∧ requests ev = [DownloadMod s k] ∧
    opened ev = [ModPath s k].
Proof.
  intros H Hs Ht Hm Hk.
  destruct (open_wb_mod s k fs Hm Hk) as (fs1 & r & Ho & Hk1 & Hch1).
  assert (∃ fs2 ev2,
    write_mod_chunks k s (total_size_of response) (chunks response) 0 fs1
      = (Return tt, fs2, ev2) ∧
    entry_at fs2 s k = Some (RegFile r (concat (chunks response))) ∧
    only_changes s k fs1 fs2 ∧ quiet ev2) as (fs2 & ev2 & Hw & Hk2 & Hch2 & Hq).
  { destruct Ht as [Ht | ->].
    - apply (write_mod_chunks_ok k s _ _ Ht 0 fs1 r [] Hk1).
    - exists fs1, []. split_and!; [done.. | | done].
      apply only_changes_refl, Hch1. }
  destruct Hq as (Hq1 & Hq2 & Hq3).
  unfold download_mod, try_except.
  rewrite (bind_Return _ _ _ _ _ _ (requests_get_Reply _ _ _ H)).
  rewrite Hs. change (200 =? 200) with true. cbv iota.
  rewrite (bind_Return _ _ _ _ _ _ Ho), (bind_Return _ _ _ _ _ _ Hw).
  unfold end_of_stream. destruct (broken response); simpl.
  - eexists _, _, r. split; [done|].
    split_and!; [done | by eapply only_changes_trans | ..];
      project_events; by rewrite ?Hq1, ?Hq2, ?Hq3.
  - eexists _, _, r. split; [done|].
    split_and!; [done | by eapply only_changes_trans | ..];
      project_events; by rewrite ?Hq1, ?Hq2, ?Hq3.
Qed.

(** A download without a usable [Content-Length]: the first chunk is
    written, then the percentage divides by zero, and nothing in
    [download_mod] catches that. *)
Lemma download_mod_zero k s fs response c cs :
  net (DownloadMod s k) = Reply response →
  status_code response = 200 →
  total_size_of response = 0 →
  chunks response = c :: cs →
  is_Some (mods_of fs s) →
  entry_at fs s k ≠ Some SubDir →
  ∃ fs' r,
    download_mod net k s fs =
      (Raise ZeroDivisionError, fs',
       [EGet (DownloadMod s k); EOpenW (ModPath s k)]) ∧
    entry_at fs' s k = Some (RegFile r c) ∧
    only_changes s k fs fs'.
Proof.
  intros H Hs Ht Hc Hm Hk.
  destruct (open_wb_mod s k fs Hm Hk) as (fs1 & r & Ho & Hk1 & Hch1).
  destruct (write_mod_chunks_zero k s c cs 0 fs1 r [] Hk1)
    as (fs2 & Hw & Hk2 & Hch2).
  unfold download_mod, try_except.
  rewrite (bind_Return _ _ _ _ _ _ (requests_get_Reply _ _ _ H)).
  rewrite Hs. change (200 =? 200) with true. cbv iota.
  rewrite (bind_Return _ _ _ _ _ _ Ho), Ht, Hc.
  rewrite (bind_Raise _ _ _ _ _ _ Hw). simpl.
  eexists _, r. split; [done|]. split; [done|].
  by eapply only_changes_trans.
Qed.

(** Whatever the server answers, [download_mod] removes nothing, sends the
    one request for its mod, writes at most to its own destination, and
    leaves every other entry of the [mods] directory alone. *)
Lemma download_mod_inv k s fs o fs' ev :
  is_Some (mods_of fs s) →
  download_mod net k s fs = (o, fs', ev) →
  removed ev = [] ∧ requests ev = [DownloadMod s k] ∧
  (opened ev = [] ∨ opened ev = [ModPath s k]) ∧
  only_changes s k fs fs'.
Proof.
  intros Hm. destruct (net (DownloadMod s k)) as [|response] eqn:H.
  { rewrite (download_mod_failed _ _ _ H). intros [= <- <- <-].
    split_and!; [done | done | by left | by apply only_changes_refl]. }
  destruct (decide (status_code response = 200)) as [Hs|Hs]; cycle 1.
  { rewrite (download_mod_refused _ _ _ _ H Hs). intros [= <- <- <-].
    split_and!; [done | done | by left | by apply only_changes_refl]. }
  assert (entry_at fs s k = Some SubDir ∨ entry_at fs s k ≠ Some SubDir)
    as [Hk|Hk] by (destruct (entry_at fs s k) as [[]|]; auto).
  { unfold download_mod, try_except.
    rewrite (bind_Return _ _ _ _ _ _ (requests_get_Reply _ _ _ H)).
    rewrite Hs. change (200 =? 200) with true. cbv iota.
    destruct (open_wb (ModPath s k) fs) as [[o1 fs1] ev1] eqn:Ho.
    apply open_wb_mod_inv in Ho as Ho'.
    destruct Ho' as [(-> & -> & Hch) | (e & -> & -> & ->)].
    - exfalso. destruct Hm as [l Hl]. unfold entry_at in Hk. rewrite Hl in Hk.
      apply mods_of_Some in Hl as (b & Hb & Hl). unfold open_wb in Ho.
      rewrite Hb, Hl, Hk in Ho. done.
    - rewrite (bind_Raise _ _ _ _ _ _ Ho).
      assert (e = IsADirectoryError) as ->.
      { destruct Hm as [l Hl]. unfold entry_at in Hk. rewrite Hl in Hk.
        apply mods_of_Some in Hl as (b & Hb & Hl). unfold open_wb in Ho.
        rewrite Hb, Hl, Hk in Ho. by injection Ho as <-. }
      simpl. intros [= <- <- <-].
      split_and!; [done | done | by left | by apply only_changes_refl]. }
  destruct (decide (total_size_of response = 0)) as [Ht|Ht].
  - destruct (chunks response) as [|c cs] eqn:Hc.
    + destruct (download_mod_streamed k s fs response H Hs)
        as (fs1 & ev1 & r & -> & _ & Hch & ? & ? & ?); [by right | done..|].
      intros [= <- <- <-]. split_and!; [done | done | by right | done].
    + destruct (download_mod_zero k s fs response c cs H Hs Ht Hc Hm Hk)
        as (fs1 & r & -> & _ & Hch).
      intros [= <- <- <-]. split_and!; [done | done | by right | done].
  - destruct (download_mod_streamed k s fs response H Hs)
      as (fs1 & ev1 & r & -> & _ & Hch & ? & ? & ?); [by left | done..|].
    intros [= <- <- <-]. split_and!; [done | done | by right | done].
Qed.

End ModManager.

Lemma changes_within_refl s ks fs :
  is_Some (mods_of fs s) → changes_within s ks fs fs.
Proof. by intros H. Qed.

Lemma changes_within_trans s ks fs1 fs2 fs3 :
  changes_within s ks fs1 fs2 → changes_within s ks fs2 fs3 →
  changes_within s ks fs1 fs3.
Proof.
  intros (H1 & H2 & Hk & Hs) (_ & H3 & Hk' & Hs'). split_and!; [done..| |].
  - intros k' Hne. by rewrite Hk', Hk.
  - intros s' Hne. by rewrite Hs', Hs.
Qed.

Lemma changes_within_mono s ks ks' fs fs' :
  ks ⊆ ks' → changes_within s ks fs fs' → changes_within s ks' fs fs'.
Proof.
  intros Hsub (H1 & H2 & Hk & Hs). split_and!; [done..| |done].
  intros k' Hk'. apply Hk. intros ?. apply Hk'. by apply Hsub.
Qed.

Lemma only_changes_within s k fs fs' :
  only_changes s k fs fs' → changes_within s [k] fs fs'.
Proof.
  intros (H1 & H2 & Hk & Hs). split_and!; [done..| |done].
  intros k' Hk'. apply Hk. intros ->. apply Hk'. left.
Qed.

Section CheckMods.

Variable sha256 : bytes → string.
Variable net : request → reply.

(** *** The two inventories *)

Lemma get_remote_mods_dict_failed s fs :
  net (ListMod s) = ConnectionFailed →
  get_remote_mods_dict net s fs =
  (Raise RequestException, fs, [EGet (ListMod s)]).
Proof.
  intros H. unfold get_remote_mods_dict.
  by rewrite (bind_Raise _ _ _ _ _ _ (requests_get_failed _ _ _ H)).
Qed.

Lemma get_remote_mods_dict_refused s fs response :
  net (ListMod s) = Reply response →
  status_code response ≠ 200 →
  get_remote_mods_dict net s fs = (Return None, fs, [EGet (ListMod s)]).
Proof.
  intros H Hs. unfold get_remote_mods_dict.
  rewrite (bind_Return _ _ _ _ _ _ (requests_get_Reply _ _ _ _ H)).
  by rewrite (proj2 (Z.eqb_neq _ _) Hs).
Qed.

Lemma get_remote_mods_dict_ok s fs response ps :
  net (ListMod s) = Reply response →
  status_code response = 200 →
  json_pairs response = Some ps →
  get_remote_mods_dict net s fs =
  (Return (Some (dict_of_pairs ps)), fs, [EGet (ListMod s)]).
Proof.
  intros H Hs Hj. unfold get_remote_mods_dict.
  rewrite (bind_Return _ _ _ _ _ _ (requests_get_Reply _ _ _ _ H)).
  by rewrite Hs, Hj.
Qed.

(** The manifest fetch sends one request and does not touch the file
    system; a dictionary it returns has no repeated key. *)
Lemma get_remote_mods_dict_inv s fs o fs' ev :
  get_remote_mods_dict net s fs = (o, fs', ev) →
  fs' = fs ∧ ev = [EGet (ListMod s)] ∧
  (∀ R, o = Return (Some R) →
     NoDup (dict_keys R) ∧
     ∃ response ps, net (ListMod s) = Reply response ∧
       status_code response = 200 ∧ json_pairs response = Some ps ∧
       R = dict_of_pairs ps) ∧
  (o = Return None → request_fails (net (ListMod s))).
Proof.
  destruct (net (ListMod s)) as [|response] eqn:H.
  { rewrite (get_remote_mods_dict_failed _ _ H). intros [= <- <- <-].
    split_and!; done. }
  destruct (decide (status_code response = 200)) as [Hs|Hs]; cycle 1.
  { rewrite (get_remote_mods_dict_refused _ _ _ H Hs). intros [= <- <- <-].
    split_and!; done. }
  destruct (json_pairs response) as [ps|] eqn:Hj.
  - rewrite (get_remote_mods_dict_ok _ _ _ _ H Hs Hj). intros [= <- <- <-].
    split_and!; [done.. | | done].
    intros R [= <-]. split; [apply dict_of_pairs_NoDup | eauto 10].
  - unfold get_remote_mods_dict.
    rewrite (bind_Return _ _ _ _ _ _ (requests_get_Reply _ _ _ _ H)).
    rewrite Hs, Hj. intros [= <- <- <-]. split_and!; done.
Qed.

(** Hashing the files reads, and changes nothing. *)
Lemma hash_files_pure entries : ∀ files fs,
  ∃ o, hash_files sha256 entries files fs = (o, fs, []).
Proof.
  induction entries as [|[name f] entries IH]; intros files fs; simpl.
  - by eexists.
  - destruct f as [[] d|]; simpl.
    + rewrite bind_unfold. simpl.
      destruct (IH (dict_set files name (sha256 d)) fs) as [o ->]. by eexists.
    + rewrite bind_unfold. simpl. by eexists.
    + apply IH.
Qed.

(** One unreadable regular file makes the whole inventory fail. *)
Lemma hash_files_unreadable entries : ∀ files fs,
  Exists (λ e, unreadable e.2 = true) entries →
  hash_files sha256 entries files fs = (Raise PermissionError, fs, []).
Proof.
  induction entries as [|[name f] entries IH]; intros files fs Hex.
  - by apply Exists_nil in Hex.
  - apply Exists_cons in Hex. simpl. destruct f as [[] d|]; simpl in *.
    + rewrite bind_unfold. simpl. destruct Hex as [?|Hex]; [done|].
      by rewrite (IH _ _ Hex).
    + by rewrite bind_unfold.
    + destruct Hex as [?|Hex]; [done|]. by apply IH.
Qed.

(** When every regular file is readable the inventory is returned. *)
Lemma hash_files_readable entries : ∀ files fs,
  Forall (λ e, unreadable e.2 = false) entries →
  ∃ L, hash_files sha256 entries files fs = (Return L, fs, []).
Proof.
  induction entries as [|[name f] entries IH]; intros files fs Hall.
  - by eexists.
  - apply Forall_cons in Hall as [Hf Hall]. simpl.
    destruct f as [[] d|]; simpl in *; [|done|by apply IH].
    rewrite bind_unfold. simpl.
    destruct (IH (dict_set files name (sha256 d)) fs Hall) as [L ->].
    by eexists.
Qed.

Lemma get_local_mods_dict_eq s fs l :
  mods_of fs s = Some l →
  get_local_mods_dict sha256 s fs = hash_files sha256 l [] fs.
Proof.
  intros H. unfold get_local_mods_dict, iterdir. rewrite bind_unfold, H.
  destruct (hash_files_pure l [] fs) as [o ->]. done.
Qed.

Lemma get_local_mods_dict_pure s fs o fs' ev :
  get_local_mods_dict sha256 s fs = (o, fs', ev) → fs' = fs ∧ ev = [].
Proof.
  destruct (mods_of fs s) as [l|] eqn:H.
  - rewrite (get_local_mods_dict_eq _ _ _ H).
    destruct (hash_files_pure l [] fs) as [o' ->]. by intros [= <- <- <-].
  - unfold get_local_mods_dict, iterdir. rewrite bind_unfold, H.
    by intros [= <- <- <-].
Qed.

End CheckMods.

Section Loops.

Variable sha256 : bytes → string.
Variable net : request → reply.

(** *** The loop that removes stale mods *)

Lemma remove_stale_None s k fs :
  remove_stale s None k fs = (Raise TypeError, fs, []).
Proof. done. Qed.

Lemma remove_stale_present s R k fs :
  dict_mem R k = true → remove_stale s (Some R) k fs = (Return tt, fs, []).
Proof. intros H. unfold remove_stale. rewrite bind_unfold. simpl. by rewrite H. Qed.

Lemma remove_stale_absent s R k fs o fs' ev :
  dict_mem R k = false →
  remove_stale s (Some R) k fs = (o, fs', ev) →
  (o = Return tt ∧
   ev = [ERemove (ModPath s k); ELog INFO (MsgModRemoved k);
         EStatus (MsgModRemoved k)] ∧
   only_changes s k fs fs') ∨
  (∃ e, o = Raise e ∧ fs' = fs ∧ ev = []).
Proof.
  intros H. unfold remove_stale. rewrite bind_unfold. simpl. rewrite H. simpl.
  rewrite bind_unfold.
  destruct (os_remove (ModPath s k) fs) as [[o1 fs1] ev1] eqn:Hr.
  apply os_remove_mod_inv in Hr as [(-> & -> & Hch) | (e & -> & -> & ->)].
  - simpl. intros [= <- <- <-]. left. done.
  - intros [= <- <- <-]. right. eauto.
Qed.

Lemma remove_loop_None s k ks fs :
  for_each (k :: ks) (remove_stale s None) fs = (Raise TypeError, fs, []).
Proof. done. Qed.

(** What the first loop has done when it completes: it removed the local
    names that the manifest lacks, in order, and nothing else changed. *)
Lemma remove_loop_Return s R ks : ∀ fs fs' ev,
  is_Some (mods_of fs s) →
  for_each ks (remove_stale s (Some R)) fs = (Return tt, fs', ev) →
  removed ev = ModPath s <$> filter (λ k, dict_mem R k = false) ks ∧
  opened ev = [] ∧ requests ev = [] ∧
  changes_within s (filter (λ k, dict_mem R k = false) ks) fs fs'.
Proof.
  induction ks as [|k ks IH]; intros fs fs' ev Hm.
  - intros [= <- <-]. split_and!; [done.. |]. by apply changes_within_refl.
  - cbn [for_each]. intros ([] & fs1 & ev1 & ev2 & Hb & Hrest & ->)%bind_inv_Return.
    rewrite filter_cons. destruct (dict_mem R k) eqn:Hk.
    + rewrite (remove_stale_present _ _ _ _ Hk) in Hb. simplify_eq.
      rewrite decide_False by done. simpl. by apply IH.
    + apply (remove_stale_absent _ _ _ _ _ _ _ Hk) in Hb
        as [(_ & -> & Hch) | (e & [=] & _)].
      rewrite decide_True by done.
      destruct (IH fs1 fs' ev2) as (Hr & Ho & Hq & Hw); [apply Hch | done |].
      split_and!.
      * project_events. rewrite Hr. done.
      * project_events. done.
      * project_events. done.
      * eapply changes_within_trans.
        -- eapply changes_within_mono; [|by apply only_changes_within].
           intros y ->%list_elem_of_singleton. left.
        -- eapply changes_within_mono; [|done]. intros y Hy. by right.
Qed.

(** *** The loop that downloads *)

Lemma fetch_changed_same s L item fs :
  differs (dict_get L item.1) item.2 = false →
  fetch_changed net s L item fs = (Return tt, fs, []).
Proof. intros H. unfold fetch_changed. by rewrite H. Qed.

Lemma fetch_changed_differs s L item fs :
  differs (dict_get L item.1) item.2 = true →
  ∃ ev0,
    quiet ev0 ∧
    fetch_changed net s L item fs =
    match download_mod net item.1 s fs with
    | (o, fs', ev) => (o, fs', ev0 ++ ev)
    end.
Proof.
  intros H. unfold fetch_changed. rewrite H. rewrite bind_unfold.
  destruct (dict_get L item.1); simpl.
  - exists [ELog INFO (MsgModMismatch item.1); EStatus (MsgModMismatch item.1)].
    split; [by repeat split|]. by destruct (download_mod _ _ _ _) as [[??]?].
  - exists [ELog INFO (MsgModMissing item.1); EStatus (MsgModMissing item.1)].
    split; [by repeat split|]. by destruct (download_mod _ _ _ _) as [[??]?].
Qed.

Lemma fetch_changed_inv s L item fs o fs' ev :
  is_Some (mods_of fs s) →
  differs (dict_get L item.1) item.2 = true →
  fetch_changed net s L item fs = (o, fs', ev) →
  removed ev = [] ∧ requests ev = [DownloadMod s item.1] ∧
  (opened ev = [] ∨ opened ev = [ModPath s item.1]) ∧
  only_changes s item.1 fs fs'.
Proof.
  intros Hm Hd. destruct (fetch_changed_differs s L item fs Hd)
    as (ev0 & (Hq1 & Hq2 & Hq3) & ->).
  destruct (download_mod net item.1 s fs) as [[o1 fs1] ev1] eqn:Hdl.
  apply download_mod_inv in Hdl as (Hr & Hg & Ho & Hch); [|done].
  intros [= <- <- <-]. project_events. rewrite Hq1, Hq2, Hq3, Hr, Hg.
  split_and!; [done | done | | done]. destruct Ho as [-> | ->]; auto.
Qed.

(** What the second loop has done when it completes: one request for each
    item whose local digest differs, in order; no removal; writes to the
    requested names only. *)
Lemma fetch_loop_Return s L its : ∀ fs fs' ev,
  is_Some (mods_of fs s) →
  for_each its (fetch_changed net s L) fs = (Return tt, fs', ev) →
  let changed :=
    (filter (λ it, differs (dict_get L it.1) it.2 = true) its).*1 in
  removed ev = [] ∧
  requests ev = DownloadMod s <$> changed ∧
  opened ev ⊆ ModPath s <$> changed ∧
  changes_within s changed fs fs'.
Proof.
  induction its as [|it its IH]; intros fs fs' ev Hm.
  - intros [= <- <-]. split_and!; [done.. |]. by apply changes_within_refl.
  - cbn [for_each]. intros ([] & fs1 & ev1 & ev2 & Hb & Hrest & ->)%bind_inv_Return.
    rewrite filter_cons.
    destruct (differs (dict_get L it.1) it.2) eqn:Hd.
    + apply fetch_changed_inv in Hb as (Hr1 & Hg1 & Ho1 & Hch1); [|done..].
      rewrite decide_True by done.
      destruct (IH fs1 fs' ev2) as (Hr & Hg & Ho & Hw); [apply Hch1 | done |].
      cbn zeta. csimpl. project_events. rewrite Hr1, Hg1, Hr, Hg.
      split_and!; [done | done | |].
      * destruct Ho1 as [-> | ->]; simpl.
        -- intros y Hy. right. by apply Ho.
        -- intros y [->|Hy]%elem_of_cons; [left | right; by apply Ho].
      * eapply changes_within_trans.
        -- eapply changes_within_mono; [|by apply only_changes_within].
           intros y ->%list_elem_of_singleton. left.
        -- eapply changes_within_mono; [|done]. intros y Hy. by right.
    + rewrite (fetch_changed_same _ _ _ _ Hd) in Hb. simplify_eq.
      rewrite decide_False by done. simpl. by apply IH.
Qed.

(** A download whose percentage can be computed, to a name that is not a
    directory, returns. *)
Lemma download_mod_total k s fs :
  is_Some (mods_of fs s) →
  entry_at fs s k ≠ Some SubDir →
  has_usable_length (net (DownloadMod s k)) →
  ∃ fs' ev,
    download_mod net k s fs = (Return tt, fs', ev) ∧
    only_changes s k fs fs' ∧ entry_at fs' s k ≠ Some SubDir.
Proof.
  intros Hm Hk Hu. destruct (net (DownloadMod s k)) as [|response] eqn:H.
  { rewrite (download_mod_failed _ _ _ _ H). eexists _, _.
    split_and!; [done | by apply only_changes_refl | done]. }
  destruct (decide (status_code response = 200)) as [Hs|Hs]; cycle 1.
  { rewrite (download_mod_refused _ _ _ _ _ H Hs). eexists _, _.
    split_and!; [done | by apply only_changes_refl | done]. }
  destruct (download_mod_streamed net k s fs response H Hs (Hu Hs) Hm Hk)
    as (fs1 & ev1 & r & -> & Hk1 & Hch & _).
  eexists _, _. split_and!; [done | done |]. by rewrite Hk1.
Qed.

Lemma fetch_loop_total s L its : ∀ fs,
  is_Some (mods_of fs s) →
  (∀ it, it ∈ its → entry_at fs s it.1 ≠ Some SubDir) →
  (∀ it, it ∈ its → has_usable_length (net (DownloadMod s it.1))) →
  ∃ fs' ev, for_each its (fetch_changed net s L) fs = (Return tt, fs', ev).
Proof.
  induction its as [|it its IH]; intros fs Hm Hk Hu.
  - by eexists _, _.
  - cbn [for_each].
    assert (∃ fs1 ev1,
      fetch_changed net s L it fs = (Return tt, fs1, ev1) ∧
      is_Some (mods_of fs1 s) ∧
      ∀ it', it' ∈ its → entry_at fs1 s it'.1 ≠ Some SubDir)
      as (fs1 & ev1 & Hb & Hm1 & Hk1).
    { destruct (differs (dict_get L it.1) it.2) eqn:Hd.
      - destruct (fetch_changed_differs s L it fs Hd) as (ev0 & _ & ->).
        destruct (download_mod_total it.1 s fs) as (fs1 & ev1 & -> & Hch & Hk1);
          [done | apply Hk; left | apply Hu; left |].
        eexists _, _. split; [done|]. split; [apply Hch|].
        intros it' Hin. destruct (decide (it'.1 = it.1)) as [->|Hne]; [done|].
        destruct Hch as (_ & _ & Hch & _). rewrite (Hch _ Hne).
        apply Hk. by right.
      - rewrite (fetch_changed_same _ _ _ _ Hd). eexists _, _.
        split; [done|]. split; [done|]. intros it' Hin. apply Hk. by right. }
    rewrite (bind_Return _ _ _ _ _ _ Hb).
    destruct (IH fs1 Hm1 Hk1) as (fs2 & ev2 & ->).
    { intros it' Hin. apply Hu. by right. }
    by eexists _, _.
Qed.

End Loops.

(** ** The reconciliation pass *)

Lemma mod_names_of_paths s (ks : list string) :
  omap (λ p, match p with ModPath _ k => Some k | _ => None end)
    (ModPath s <$> ks) = ks.
Proof. induction ks as [|k ks IH]; csimpl; [done | by rewrite IH]. Qed.

Lemma mod_names_of_requests s (ks : list string) :
  omap (λ r, match r with DownloadMod _ k => Some k | _ => None end)
    (DownloadMod s <$> ks) = ks.
Proof. induction ks as [|k ks IH]; csimpl; [done | by rewrite IH]. Qed.

Lemma entry_at_makedirs_mods s fs fs0 k :
  makedirs_mods s fs = (Return tt, fs0, []) →
  entry_at fs0 s k = entry_at fs s k.
Proof.
  destruct (makedirs_mods_spec s fs) as (fs0' & -> & Hm & _ & _).
  intros [= <-]. unfold entry_at. rewrite Hm. by destruct (mods_of fs s).
Qed.

(** The names the first loop removes are the local names that the manifest
    lacks. *)
Lemma stale_names (L R : dict) :
  list_to_set (filter (λ k, dict_mem R k = false) (dict_keys L))
  = keys L ∖ keys R.
Proof.
  apply set_eq. intros k.
  rewrite elem_of_list_to_set, list_elem_of_filter, elem_of_difference.
  unfold keys. rewrite !elem_of_list_to_set, <- !dict_mem_keys.
  destruct (dict_mem R k), (dict_mem L k); intuition congruence.
Qed.

(** The names the second loop requests are the remote names whose local
    digest is not the remote one. *)
Lemma changed_names (L R : dict) :
  NoDup (dict_keys R) →
  list_to_set (filter (λ it, differs (dict_get L it.1) it.2 = true) R).*1
  = filter (λ k, dict_get L k ≠ dict_get R k) (keys R).
Proof.
  intros HR. apply set_eq. intros k.
  rewrite elem_of_list_to_set, list_elem_of_fmap, elem_of_filter, elem_of_keys.
  split.
  - intros ([k' h] & -> & [Hd Hin]%list_elem_of_filter). simpl in *.
    rewrite (dict_get_NoDup _ _ _ HR Hin). split; [|by eauto].
    by apply differs_spec.
  - intros [Hne [h Hh]]. exists (k, h). split; [done|].
    apply list_elem_of_filter. split; [|by apply dict_get_Some].
    simpl. apply differs_spec. by rewrite <- Hh.
Qed.

Section Reconciliation.

Variable sha256 : bytes → string.
Variable net : request → reply.

(** A pass that completes went through its five steps. *)
Lemma check_mods_Return s fs fs' ev :
  check_mods sha256 net s fs = (Return tt, fs', ev) →
  ∃ fs0 R L fs1 ev1 ev2,
    makedirs_mods s fs = (Return tt, fs0, []) ∧
    get_remote_mods_dict net s fs0 =
      (Return (Some R), fs0, [EGet (ListMod s)]) ∧
    NoDup (dict_keys R) ∧
    get_local_mods_dict sha256 s fs0 = (Return L, fs0, []) ∧
    for_each (dict_keys L) (remove_stale s (Some R)) fs0
      = (Return tt, fs1, ev1) ∧
    for_each R (fetch_changed net s L) fs1 = (Return tt, fs', ev2) ∧
    ev = EGet (ListMod s) :: ev1 ++ ev2.
Proof.
  unfold check_mods.
  destruct (makedirs_mods_spec s fs) as (fs0 & Hmk & Hm & _ & _).
  rewrite (bind_Return _ _ _ _ _ _ Hmk).
  match goal with
  | |- match ?m with _ => _ end = _ → _ =>
      destruct m as [[o fsx] evx] eqn:Hrest
  end.
  simpl. intros [= -> -> <-].
  apply bind_inv_Return in Hrest as (R & ? & ? & evr & Hrem & Hrest & ->).
  apply get_remote_mods_dict_inv in Hrem as Hrem'.
  destruct Hrem' as (-> & -> & HR & _).
  apply bind_inv_Return in Hrest as (L & ? & ? & evl & Hloc & Hrest & ->).
  apply get_local_mods_dict_pure in Hloc as Hloc'. destruct Hloc' as [-> ->].
  apply bind_inv_Return in Hrest as ([] & fs1 & ev1 & evi & Hl1 & Hrest & ->).
  apply bind_inv_Return in Hrest as (its & ? & ? & ev2 & Hit & Hl2 & ->).
  destruct R as [R|]; [|done]. injection Hit as <- <- <-.
  destruct (HR R eq_refl) as [Hnd _].
  exists fs0, R, L, fs1, ev1, ev2. done.
Qed.

(** The decisions of a pass that ran to its end, as its events show
    them: the names removed are those of [keys L - keys R], the names
    requested are the remote names whose local digest differs, and the
    other names of the two inventories were neither removed, nor
    requested, nor written. *)
Lemma check_mods_decisions s fs fs' ev :
  check_mods sha256 net s fs = (Return tt, fs', ev) →
  ∃ (L R : dict) fs0,
    makedirs_mods s fs = (Return tt, fs0, []) ∧
    get_local_mods_dict sha256 s fs0 = (Return L, fs0, []) ∧
    get_remote_mods_dict net s fs0 =
      (Return (Some R), fs0, [EGet (ListMod s)]) ∧
    Delete_set ev = keys L ∖ keys R ∧
    Download_set ev = filter (λ k, dict_get L k ≠ dict_get R k) (keys R) ∧
    Keep_set L R ev = filter (λ k, dict_get L k = dict_get R k) (keys R) ∧
    (∀ k, k ∈ Keep_set L R ev → entry_at fs' s k = entry_at fs s k) ∧
    Delete_set ev ## Download_set ev ∧
    Delete_set ev ## Keep_set L R ev ∧
    Download_set ev ## Keep_set L R ev ∧
    Delete_set ev ∪ Download_set ev ∪ Keep_set L R ev = keys L ∪ keys R.
Proof.
  intros (fs0 & R & L & fs1 & ev1 & ev2 & Hmk & Hrem & HR & Hloc & Hl1 & Hl2
          & ->)%check_mods_Return.
  destruct (makedirs_mods_spec s fs) as (fs0' & Hmk' & Hm0 & _ & _).
  rewrite Hmk in Hmk'. injection Hmk' as <-.
  apply remove_loop_Return in Hl1 as (Hr1 & Ho1 & Hg1 & Hch1); [|by eauto].
  apply fetch_loop_Return in Hl2 as (Hr2 & Hg2 & Ho2 & Hch2); [|apply Hch1].
  set (stale := filter (λ k, dict_mem R k = false) (dict_keys L)) in *.
  set (changed :=
    (filter (λ it, differs (dict_get L it.1) it.2 = true) R).*1) in *.
  assert (removed_mods (EGet (ListMod s) :: ev1 ++ ev2) = stale) as Hrm.
  { unfold removed_mods. project_events.
    by rewrite Hr1, Hr2, app_nil_r, mod_names_of_paths. }
  assert (requested_mods (EGet (ListMod s) :: ev1 ++ ev2) = changed) as Hrq.
  { unfold requested_mods. project_events.
    rewrite Hg1, Hg2. apply (mod_names_of_requests s changed). }
  assert (written_mods (EGet (ListMod s) :: ev1 ++ ev2) ⊆ changed) as Hwr.
  { unfold written_mods. project_events. rewrite Ho1. simpl.
    intros k (p & Hin%Ho2 & Hp)%list_elem_of_omap.
    apply list_elem_of_fmap in Hin as (k' & -> & Hin). by injection Hp as <-. }
  assert (Delete_set (EGet (ListMod s) :: ev1 ++ ev2) = keys L ∖ keys R)
    as HD by (unfold Delete_set; rewrite Hrm; apply stale_names).
  assert (Download_set (EGet (ListMod s) :: ev1 ++ ev2)
          = filter (λ k, dict_get L k ≠ dict_get R k) (keys R))
    as HW by (unfold Download_set; rewrite Hrq; by apply changed_names).
  assert (Keep_set L R (EGet (ListMod s) :: ev1 ++ ev2) =
          (keys L ∪ keys R) ∖
          (Delete_set (EGet (ListMod s) :: ev1 ++ ev2) ∪
           Download_set (EGet (ListMod s) :: ev1 ++ ev2))) as HK.
  { unfold Keep_set, Delete_set, Download_set. rewrite Hrm, Hrq.
    apply set_eq. intros k. rewrite !elem_of_difference, !elem_of_union.
    rewrite !elem_of_list_to_set, !elem_of_app. split.
    - intros [Hin Hn]. split; [done|]. intros [?|?]; apply Hn; auto.
    - intros [Hin Hn]. split; [done|].
      intros [?|[?|?%Hwr]]; apply Hn; auto. }
  assert (Keep_set L R (EGet (ListMod s) :: ev1 ++ ev2) =
          filter (λ k, dict_get L k = dict_get R k) (keys R)) as HK'.
  { rewrite HK, HD, HW. apply set_eq. intros k.
    rewrite elem_of_difference, !elem_of_union, elem_of_difference,
      !elem_of_filter.
    destruct (decide (dict_get L k = dict_get R k)) as [He|He];
      destruct (decide (k ∈ keys R)); destruct (decide (k ∈ keys L));
      intuition. }
  exists L, R, fs0. split_and!; try done.
  - intros k Hk. rewrite HK in Hk.
    apply elem_of_difference in Hk as [_ Hk].
    unfold Delete_set, Download_set in Hk. rewrite Hrm, Hrq in Hk.
    rewrite elem_of_union, !elem_of_list_to_set in Hk.
    destruct Hch1 as (_ & _ & Hk1 & _). destruct Hch2 as (_ & _ & Hk2 & _).
    rewrite Hk2, Hk1 by tauto. by apply entry_at_makedirs_mods.
  - rewrite HD, HW.
    intros k [_ Hn]%elem_of_difference [_ Hin]%elem_of_filter. done.
  - rewrite HK. intros k Hin [_ Hn]%elem_of_difference.
    apply Hn, elem_of_union. by left.
  - rewrite HK. intros k Hin [_ Hn]%elem_of_difference.
    apply Hn, elem_of_union. by right.
  - rewrite HK, HD, HW. apply set_eq. intros k.
    rewrite !elem_of_union, !elem_of_difference, !elem_of_union,
      elem_of_difference, elem_of_filter.
    destruct (decide (dict_get L k = dict_get R k)) as [He|He];
      destruct (decide (k ∈ keys R)); destruct (decide (k ∈ keys L));
      intuition.
Qed.

End Reconciliation.

Lemma filter_all {A} (P : A → Prop) `{∀ x, Decision (P x)} (l : list A) :
  (∀ x, P x) → filter P l = l.
Proof.
  intros HP. induction l as [|x l IH]; [done|].
  by rewrite filter_cons, decide_True, IH.
Qed.

Section Failures.

Variable sha256 : bytes → string.
Variable net : request → reply.

(** C7, at the failing input.  When the request for the manifest raises
    a transport error, the pass ends with that [RequestException] right
    after the request.  When the request is answered with a status that
    is not 200, the fetch signals nothing: [get_remote_mods_dict] returns
    [None] normally, and the pass then ends with an error that does not
    come from the fetch, namely the error of the local inventory when
    that raises, a [TypeError] at the first test [local_mod not in
    remote_mods] when the inventory has a name, and an [AttributeError] at
    [remote_mods.items()] when it has none.  In every case the only event
    is the request, and the [mods] directory is as [os.makedirs] left
    it: no file is removed. *)
Theorem check_mods_fetch_fails s fs :
  ∃ fs0,
    makedirs_mods s fs = (Return tt, fs0, []) ∧
    (∀ k, entry_at fs0 s k = entry_at fs s k) ∧
    (net (ListMod s) = ConnectionFailed →
     get_remote_mods_dict net s fs0 =
       (Raise RequestException, fs0, [EGet (ListMod s)]) ∧
     check_mods sha256 net s fs =
       (Raise RequestException, fs0, [EGet (ListMod s)])) ∧
    (∀ response,
       net (ListMod s) = Reply response → status_code response ≠ 200 →
       get_remote_mods_dict net s fs0 =
         (Return None, fs0, [EGet (ListMod s)]) ∧
       check_mods sha256 net s fs =
         (match (get_local_mods_dict sha256 s fs0).1.1 with
          | Return [] => Raise AttributeError
          | Return (_ :: _) => Raise TypeError
          | Raise e => Raise e
          end, fs0, [EGet (ListMod s)])).
Proof.
  destruct (makedirs_mods_spec s fs) as (fs0 & Hmk & Hm & _ & _).
  exists fs0. split; [done|]. split.
  { intros k. by eapply entry_at_makedirs_mods. }
  unfold check_mods. rewrite (bind_Return _ _ _ _ _ _ Hmk). split.
  - intros H. split; [by apply get_remote_mods_dict_failed|].
    by rewrite (bind_Raise _ _ _ _ _ _ (get_remote_mods_dict_failed _ _ _ H)).
  - intros response H Hs.
    split; [by apply (get_remote_mods_dict_refused net s fs0 response)|].
    rewrite (bind_Return _ _ _ _ _ _
               (get_remote_mods_dict_refused _ _ _ _ H Hs)).
    destruct (get_local_mods_dict sha256 s fs0) as [[o fsl] evl] eqn:Hloc.
    apply get_local_mods_dict_pure in Hloc as Hloc'. destruct Hloc' as [-> ->].
    destruct o as [L|e]; simpl.
    + rewrite (bind_Return _ _ _ _ _ _ Hloc). by destruct L as [|[k h] L].
    + by rewrite (bind_Raise _ _ _ _ _ _ Hloc).
Qed.

(** C6, as the code has it.  When a regular file of the [mods] directory
    cannot be read, computing the local inventory raises that file's
    [PermissionError] (an [OSError], Python's [IOError]) and yields no
    inventory; [check_mods] does not catch it, so a pass whose manifest
    fetch did not raise ends with that error, having removed nothing and
    downloaded nothing. *)
Theorem check_mods_unreadable s fs l r ev0 :
  mods_of fs s = Some l →
  Exists (λ e, unreadable e.2 = true) l →
  get_remote_mods_dict net s fs = (Return r, fs, ev0) →
  get_local_mods_dict sha256 s fs = (Raise PermissionError, fs, []) ∧
  is_OSError PermissionError = true ∧
  check_mods sha256 net s fs =
    (Raise PermissionError, fs, [EGet (ListMod s)]).
Proof.
  intros Hm Hex Hrem.
  assert (get_local_mods_dict sha256 s fs = (Raise PermissionError, fs, []))
    as Hloc.
  { rewrite (get_local_mods_dict_eq _ _ _ _ Hm).
    by apply hash_files_unreadable. }
  split; [done|]. split; [done|].
  destruct (makedirs_mods_spec s fs) as (fs0 & Hmk & _ & Hsame & _).
  rewrite (Hsame (mk_is_Some _ _ Hm)) in Hmk.
  apply get_remote_mods_dict_inv in Hrem as Hrem'.
  destruct Hrem' as (_ & -> & _).
  unfold check_mods. rewrite (bind_Return _ _ _ _ _ _ Hmk).
  rewrite (bind_Return _ _ _ _ _ _ Hrem).
  by rewrite (bind_Raise _ _ _ _ _ _ Hloc).
Qed.

(** On a build without a [mods] directory, a pass whose manifest is
    fetched and whose downloads do not divide by a zero [Content-Length]
    removes nothing and requests every entry of the manifest, in order. *)
Lemma check_mods_fresh_directory s fs response ps :
  (is_Some (mods_of fs s) → makedirs_mods s fs = (Return tt, fs, [])) ∧
  (mods_of fs s = None →
   net (ListMod s) = Reply response →
   status_code response = 200 →
   json_pairs response = Some ps →
   (∀ k, k ∈ dict_keys (dict_of_pairs ps) →
      has_usable_length (net (DownloadMod s k))) →
   ∃ fs0 fs' ev,
     makedirs_mods s fs = (Return tt, fs0, []) ∧
     mods_of fs0 s = Some [] ∧
     get_local_mods_dict sha256 s fs0 = (Return [], fs0, []) ∧
     check_mods sha256 net s fs = (Return tt, fs', ev) ∧
     removed ev = [] ∧
     requests ev =
       ListMod s :: (DownloadMod s <$> dict_keys (dict_of_pairs ps))).
Proof.
  destruct (makedirs_mods_spec s fs) as (fs0 & Hmk & Hm & Hsame & _).
  split.
  { intros His. by rewrite <- (Hsame His) at 2. }
  intros Hnone H Hs Hj Hu. rewrite Hnone in Hm. simpl in Hm.
  assert (get_local_mods_dict sha256 s fs0 = (Return [], fs0, [])) as Hloc
    by (by rewrite (get_local_mods_dict_eq _ _ _ _ Hm)).
  destruct (fetch_loop_total net s [] (dict_of_pairs ps) fs0)
    as (fs' & ev & Hloop).
  { by eauto. }
  { intros it _. unfold entry_at. by rewrite Hm. }
  { intros it Hin. apply Hu. apply list_elem_of_fmap. by exists it. }
  apply fetch_loop_Return in Hloop as Hloop'; [|by eauto].
  destruct Hloop' as (Hr & Hg & _ & _).
  exists fs0, fs', (EGet (ListMod s) :: ev). split_and!; [done..| | |].
  - unfold check_mods. rewrite (bind_Return _ _ _ _ _ _ Hmk).
    rewrite (bind_Return _ _ _ _ _ _
               (get_remote_mods_dict_ok _ _ _ _ _ H Hs Hj)).
    rewrite (bind_Return _ _ _ _ _ _ Hloc).
    erewrite (bind_Return (for_each _ _)); [|reflexivity].
    erewrite (bind_Return (items _)); [|reflexivity].
    by rewrite Hloop.
  - by project_events.
  - project_events. rewrite Hg, filter_all; [done|]. intros it. done.
Qed.

End Failures.

(** ** VersionManager *)

Lemma set_archive_set_archive a a' b :
  set_archive a (set_archive a' b) = set_archive a b.
Proof. done. Qed.

Lemma set_archive_id b : set_archive (archive b) b = b.
Proof. by destruct b. Qed.

Lemma makedirs_build_spec s fs :
  makedirs_build s fs =
    (Return tt, <[s := default (Build [] None None) (fs !! s)]> fs, []).
Proof.
  unfold makedirs_build. destruct (fs !! s) as [b|] eqn:Hb; simpl; [|done].
  by rewrite insert_id.
Qed.

Lemma open_wb_archive s fs b :
  fs !! s = Some b →
  open_wb (ArchivePath s) fs =
    (Return tt, <[s := set_archive (Some []) b]> fs, [EOpenW (ArchivePath s)]).
Proof. intros H. unfold open_wb. by rewrite H. Qed.

Lemma file_write_archive s fs b d chunk :
  fs !! s = Some b → archive b = Some d →
  file_write (ArchivePath s) chunk fs =
    (Return tt, <[s := set_archive (Some (d ++ chunk)) b]> fs, []).
Proof. intros H Ha. unfold file_write. by rewrite H, Ha. Qed.

Lemma write_fabric_chunks_ok s total_size cs :
  total_size ≠ 0 →
  ∀ downloaded last_percent fs b d,
    fs !! s = Some b → archive b = Some d →
    ∃ ev,
      write_fabric_chunks s total_size cs downloaded last_percent fs =
        (Return tt, <[s := set_archive (Some (d ++ concat cs)) b]> fs, ev) ∧
      quiet ev.
Proof.
  intros Ht. induction cs as [|c cs IH]; intros n lp fs b d Hb Ha.
  - exists []. simpl. rewrite app_nil_r, <- Ha, set_archive_id, insert_id by done.
    done.
  - cbn [write_fabric_chunks].
    rewrite (bind_Return _ _ _ _ _ _ (file_write_archive _ _ _ _ c Hb Ha)).
    rewrite (bind_Return _ _ _ _ _ _ (percent_of_nonzero _ _ _ Ht)).
    set (fs1 := <[s := set_archive (Some (d ++ c)) b]> fs).
    assert (fs1 !! s = Some (set_archive (Some (d ++ c)) b)) as Hb1
      by apply lookup_insert_eq.
    destruct (_ >? lp).
    + destruct (IH (n + Z.of_nat (length c))
                  (Z.quot ((n + Z.of_nat (length c)) * 100) total_size)
                  fs1 _ (d ++ c) Hb1 eq_refl) as (ev & Hrec & Hq).
      rewrite bind_unfold. cbn [set_status_message emit]. rewrite Hrec.
      unfold fs1. rewrite insert_insert_eq, set_archive_set_archive.
      rewrite <- (assoc_L (++)). simpl. eexists. split; [done|]. apply Hq.
    + destruct (IH (n + Z.of_nat (length c)) lp fs1 _ (d ++ c) Hb1 eq_refl)
        as (ev & Hrec & Hq).
      rewrite Hrec. unfold fs1.
      rewrite insert_insert_eq, set_archive_set_archive.
      rewrite <- (assoc_L (++)). simpl. eexists. split; [done|]. apply Hq.
Qed.

Lemma write_fabric_chunks_zero s c cs downloaded last_percent fs b d :
  fs !! s = Some b → archive b = Some d →
  write_fabric_chunks s 0 (c :: cs) downloaded last_percent fs =
    (Raise ZeroDivisionError, <[s := set_archive (Some (d ++ c)) b]> fs, []).
Proof.
  intros Hb Ha. cbn [write_fabric_chunks].
  rewrite (bind_Return _ _ _ _ _ _ (file_write_archive _ _ _ _ c Hb Ha)).
  by rewrite bind_unfold.
Qed.

Section VersionManager.

Variable extractall : bytes → build → bool * build.
Variable net : request → reply.

Lemma download_fabric_base_failed s fs :
  net (DownloadFabric s) = ConnectionFailed →
  download_fabric_base extractall net s fs =
    (Raise RequestException,
     <[s := default (Build [] None None) (fs !! s)]> fs,
     [EGet (DownloadFabric s)]).
Proof.
  intros H. unfold download_fabric_base.
  rewrite (bind_Return _ _ _ _ _ _ (makedirs_build_spec s fs)).
  by rewrite (bind_Raise _ _ _ _ _ _ (requests_get_failed _ _ _ H)).
Qed.

Lemma download_fabric_base_refused s fs response :
  net (DownloadFabric s) = Reply response →
  status_code response ≠ 200 →
  download_fabric_base extractall net s fs =
    (Return tt,
     <[s := default (Build [] None None) (fs !! s)]> fs,
     [EGet (DownloadFabric s);
      ELog ERROR (MsgFabricStatus (status_code response));
      EStatus MsgFabricFailed]).
Proof.
  intros H Hs. unfold download_fabric_base.
  rewrite (bind_Return _ _ _ _ _ _ (makedirs_build_spec s fs)).
  rewrite (bind_Return _ _ _ _ _ _ (requests_get_Reply _ _ _ _ H)).
  by rewrite (proj2 (Z.eqb_neq _ _) Hs).
Qed.

(** The extraction step: its exception is caught and logged. *)
Lemma extract_step s fs b data :
  fs !! s = Some b → archive b = Some data →
  ∃ ev,
    try_except
      (set_status_message MsgExtracting;; zip_extractall extractall s)
      catch_Exception
      (λ e, logging_error (MsgExtractError e)) fs
    = (Return tt, <[s := (extractall data b).2]> fs, ev) ∧
    quiet ev ∧
    ((extractall data b).1 = false →
     ELog ERROR (MsgExtractError BadZipFile) ∈ ev).
Proof.
  intros Hb Ha. unfold try_except. rewrite bind_unfold.
  cbn [set_status_message emit]. unfold zip_extractall. rewrite Hb, Ha.
  destruct (extractall data b) as [[] b']; simpl.
  - eexists. split; [done|]. split; [by repeat split | done].
  - eexists. split; [done|]. split; [by repeat split |].
    intros _. right. left.
Qed.

(** The removal of the archive: its exception is caught and logged, and
    the archive is absent afterwards. *)
Lemma remove_step s fs b :
  fs !! s = Some b →
  ∃ ev,
    try_except
      (os_remove (ArchivePath s))
      catch_Exception
      (λ e, logging_error (MsgArchiveRemoveError e)) fs
    = (Return tt, <[s := set_archive None b]> fs, ev) ∧
    requests ev = [].
Proof.
  intros Hb. unfold try_except, os_remove. rewrite Hb.
  destruct (archive b) eqn:Ha; simpl.
  - by eexists.
  - rewrite <- Ha, set_archive_id, insert_id by done. by eexists.
Qed.

(** A bootstrap whose archive is received whole: whether or not the
    extraction completes, [download_fabric_base] returns, and the archive
    is then gone. *)
Lemma download_fabric_base_streamed s fs response :
  net (DownloadFabric s) = Reply response →
  status_code response = 200 →
  total_size_of response ≠ 0 ∨ chunks response = [] →
  broken response = false →
  let data := concat (chunks response) in
  let b1 :=
    set_archive (Some data) (default (Build [] None None) (fs !! s)) in
  ∃ ev,
    download_fabric_base extractall net s fs =
      (Return tt, <[s := set_archive None (extractall data b1).2]> fs, ev) ∧
    requests ev = [DownloadFabric s] ∧
    ((extractall data b1).1 = false →
     ELog ERROR (MsgExtractError BadZipFile) ∈ ev).
Proof.
  intros H Hs Ht Hbr data b1.
  set (b0 := default (Build [] None None) (fs !! s)) in *.
  assert (∃ ev2,
    write_fabric_chunks s (total_size_of response) (chunks response) 0 0
      (<[s := set_archive (Some []) b0]> fs)
      = (Return tt, <[s := b1]> fs, ev2) ∧ quiet ev2) as (ev2 & Hw & Hq).
  { destruct Ht as [Ht | Hc].
    - destruct (write_fabric_chunks_ok s _ (chunks response) Ht 0 0
                  (<[s := set_archive (Some []) b0]> fs)
                  (set_archive (Some []) b0) [])
        as (ev2 & Hw & Hq); [apply lookup_insert_eq | done |].
      rewrite insert_insert_eq in Hw. eauto.
    - exists []. unfold b1, data. rewrite Hc. done. }
  destruct Hq as (Hq1 & Hq2 & Hq3).
  destruct (extract_step s (<[s := b1]> fs) b1 data)
    as (ev3 & Hex & (_ & _ & Hq3') & Hlog); [apply lookup_insert_eq | done |].
  rewrite insert_insert_eq in Hex.
  destruct (remove_step s (<[s := (extractall data b1).2]> fs)
              (extractall data b1).2) as (ev4 & Hrm & Hq4);
    [apply lookup_insert_eq |].
  rewrite insert_insert_eq in Hrm.
  unfold download_fabric_base.
  rewrite (bind_Return _ _ _ _ _ _ (makedirs_build_spec s fs)). fold b0.
  rewrite (bind_Return _ _ _ _ _ _ (requests_get_Reply _ _ _ _ H)).
  rewrite Hs. change (200 =? 200) with true. cbv iota.
  rewrite (bind_Return _ _ _ _ _ _
             (open_wb_archive s _ b0 (lookup_insert_eq _ _ _))).
  rewrite insert_insert_eq, (bind_Return _ _ _ _ _ _ Hw).
  unfold end_of_stream. rewrite Hbr.
  erewrite (bind_Return (mret tt)); [|reflexivity].
  erewrite (bind_Return (set_status_message _)); [|reflexivity].
  rewrite (bind_Return _ _ _ _ _ _ Hex), (bind_Return _ _ _ _ _ _ Hrm).
  cbn [set_status_message emit]. eexists. split; [done|]. split.
  - project_events. by rewrite Hq3, Hq3', Hq4.
  - intros Hf. specialize (Hlog Hf).
    repeat first [rewrite elem_of_cons | rewrite elem_of_app]. auto 10.
Qed.

(** A bootstrap whose stream breaks: the exception leaves
    [download_fabric_base], and the archive holds what was received. *)
Lemma download_fabric_base_interrupted s fs response :
  net (DownloadFabric s) = Reply response →
  status_code response = 200 →
  total_size_of response ≠ 0 ∨ chunks response = [] →
  broken response = true →
  ∃ ev,
    download_fabric_base extractall net s fs =
      (Raise RequestException,
       <[s := set_archive (Some (concat (chunks response)))
                (default (Build [] None None) (fs !! s))]> fs,
       ev) ∧
    requests ev = [DownloadFabric s] ∧ removed ev = [].
Proof.
  intros H Hs Ht Hbr.
  set (b0 := default (Build [] None None) (fs !! s)) in *.
  set (b1 := set_archive (Some (concat (chunks response))) b0).
  assert (∃ ev2,
    write_fabric_chunks s (total_size_of response) (chunks response) 0 0
      (<[s := set_archive (Some []) b0]> fs)
      = (Return tt, <[s := b1]> fs, ev2) ∧ quiet ev2) as (ev2 & Hw & Hq).
  { destruct Ht as [Ht | Hc].
    - destruct (write_fabric_chunks_ok s _ (chunks response) Ht 0 0
                  (<[s := set_archive (Some []) b0]> fs)
                  (set_archive (Some []) b0) [])
        as (ev2 & Hw & Hq); [apply lookup_insert_eq | done |].
      rewrite insert_insert_eq in Hw. eauto.
    - exists []. unfold b1. rewrite Hc. done. }
  destruct Hq as (Hq1 & Hq2 & Hq3).
  unfold download_fabric_base.
  rewrite (bind_Return _ _ _ _ _ _ (makedirs_build_spec s fs)). fold b0.
  rewrite (bind_Return _ _ _ _ _ _ (requests_get_Reply _ _ _ _ H)).
  rewrite Hs. change (200 =? 200) with true. cbv iota.
  rewrite (bind_Return _ _ _ _ _ _
             (open_wb_archive s _ b0 (lookup_insert_eq _ _ _))).
  rewrite insert_insert_eq, (bind_Return _ _ _ _ _ _ Hw).
  unfold end_of_stream. rewrite Hbr.
  erewrite (bind_Raise (raise _)); [|reflexivity].
  eexists. split; [done|]. split; project_events; by rewrite ?Hq1, ?Hq3.
Qed.

(** A bootstrap without a usable [Content-Length]: the percentage of the
    first chunk divides by zero. *)
Lemma download_fabric_base_zero s fs response c cs :
  net (DownloadFabric s) = Reply response →
  status_code response = 200 →
  total_size_of response = 0 →
  chunks response = c :: cs →
  download_fabric_base extractall net s fs =
    (Raise ZeroDivisionError,
     <[s := set_archive (Some c) (default (Build [] None None) (fs !! s))]> fs,
     [EGet (DownloadFabric s); EOpenW (ArchivePath s)]).
Proof.
  intros H Hs Ht Hc.
  set (b0 := default (Build [] None None) (fs !! s)) in *.
  unfold download_fabric_base.
  rewrite (bind_Return _ _ _ _ _ _ (makedirs_build_spec s fs)). fold b0.
  rewrite (bind_Return _ _ _ _ _ _ (requests_get_Reply _ _ _ _ H)).
  rewrite Hs. change (200 =? 200) with true. cbv iota.
  rewrite (bind_Return _ _ _ _ _ _
             (open_wb_archive s _ b0 (lookup_insert_eq _ _ _))).
  rewrite insert_insert_eq, Ht, Hc.
  erewrite (bind_Raise (write_fabric_chunks _ _ _ _ _)); cycle 1.
  { apply (write_fabric_chunks_zero s c cs 0 0 _ (set_archive (Some []) b0) []);
      [apply lookup_insert_eq | done]. }
  by rewrite insert_insert_eq.
Qed.

(** Whatever happens, the bootstrap sends its one request. *)
Lemma download_fabric_base_requests s fs o fs' ev :
  download_fabric_base extractall net s fs = (o, fs', ev) →
  requests ev = [DownloadFabric s].
Proof.
  destruct (net (DownloadFabric s)) as [|response] eqn:H.
  { rewrite (download_fabric_base_failed _ _ H). by intros [= <- <- <-]. }
  destruct (decide (status_code response = 200)) as [Hs|Hs]; cycle 1.
  { rewrite (download_fabric_base_refused _ _ _ H Hs). by intros [= <- <- <-]. }
  assert (total_size_of response ≠ 0 ∨ chunks response = [] ∨
          ∃ c cs, total_size_of response = 0 ∧ chunks response = c :: cs)
    as [Ht | [Hc | (c & cs & Ht & Hc)]].
  { destruct (decide (total_size_of response = 0)); [|by auto].
    destruct (chunks response); [by auto|]. right. right. eauto. }
  - destruct (broken response) eqn:Hbr.
    + destruct (download_fabric_base_interrupted s fs response H Hs
                  (or_introl Ht) Hbr) as (ev1 & -> & Hr & _).
      by intros [= <- <- <-].
    + destruct (download_fabric_base_streamed s fs response H Hs
                  (or_introl Ht) Hbr) as (ev1 & -> & Hr & _).
      by intros [= <- <- <-].
  - destruct (broken response) eqn:Hbr.
    + destruct (download_fabric_base_interrupted s fs response H Hs
                  (or_intror Hc) Hbr) as (ev1 & -> & Hr & _).
      by intros [= <- <- <-].
    + destruct (download_fabric_base_streamed s fs response H Hs
                  (or_intror Hc) Hbr) as (ev1 & -> & Hr & _).
      by intros [= <- <- <-].
  - rewrite (download_fabric_base_zero s fs response c cs H Hs Ht Hc).
    by intros [= <- <- <-].
Qed.

End VersionManager.

Lemma find_version_spec installed_versions required_version :
  find_version installed_versions required_version = true
  ↔ required_version ∈ installed_versions.
Proof.
  induction installed_versions as [|v l IH]; simpl.
  - split; [done | by intros ?%elem_of_nil].
  - destruct (String.eqb_spec v required_version) as [->|Hne].
    + split; [intros _; left | done].
    + rewrite IH. split; [by right | intros [?|?]%elem_of_cons; congruence].
Qed.

Lemma file_at_archive_insert s b (fs : fsys) :
  file_at (<[s := b]> fs) (ArchivePath s) = archive b.
Proof. unfold file_at. by rewrite lookup_insert_eq. Qed.

Section Claims.

Variable sha256 : bytes → string.
Variable extractall : bytes → build → bool * build.
Variable net : request → reply.

Lemma get_installed_versions_spec s fs :
  get_installed_versions s fs = (Return (installed_ids fs s), fs, []).
Proof.
  unfold get_installed_versions, installed_ids. by destruct (fs !! s).
Qed.

Lemma check_fabric_version_installed s required fs :
  required ∈ installed_ids fs s →
  check_fabric_version extractall net s required fs =
    (Return tt, fs,
     [ELog INFO (MsgVersionInstalled required);
      EStatus (MsgVersionInstalled required)]).
Proof.
  intros Hin%find_version_spec. unfold check_fabric_version.
  rewrite (bind_Return _ _ _ _ _ _ (get_installed_versions_spec s fs)).
  by rewrite Hin.
Qed.

Lemma check_fabric_version_missing s required fs :
  required ∉ installed_ids fs s →
  check_fabric_version extractall net s required fs =
    match download_fabric_base extractall net s fs with
    | (o, fs', ev) =>
        (o, fs',
         [ELog INFO (MsgVersionMissing required);
          EStatus (MsgVersionMissing required)] ++ ev)
    end.
Proof.
  intros Hin. unfold check_fabric_version.
  rewrite (bind_Return _ _ _ _ _ _ (get_installed_versions_spec s fs)).
  destruct (find_version _ _) eqn:Hf.
  { by apply find_version_spec in Hf. }
  cbn [negb].
  repeat (rewrite bind_unfold; cbn [logging_info set_status_message emit]).
  by destruct (download_fabric_base _ _ _ _) as [[??]?].
Qed.

(** The pass starts with the request for the manifest, whatever follows. *)
Lemma check_mods_first_request s fs :
  ∃ o fs' ev, check_mods sha256 net s fs = (o, fs', EGet (ListMod s) :: ev).
Proof.
  destruct (makedirs_mods_spec s fs) as (fs0 & Hmk & _).
  unfold check_mods. rewrite (bind_Return _ _ _ _ _ _ Hmk).
  destruct (get_remote_mods_dict net s fs0) as [[o1 fs1] ev1] eqn:Hrem.
  apply get_remote_mods_dict_inv in Hrem as Hrem'.
  destruct Hrem' as (-> & -> & _). destruct o1 as [r|e].
  - rewrite (bind_Return _ _ _ _ _ _ Hrem).
    destruct ((get_local_mods_dict sha256 s ≫= _) fs0) as [[o2 fs2] ev2].
    simpl. by eexists _, _, _.
  - rewrite (bind_Raise _ _ _ _ _ _ Hrem). simpl. by eexists _, _, _.
Qed.

(** C2, as the code has it.  A download that fails before a byte is
    streamed (the request raises, or the status is not 200) leaves the file
    at its destination as it was.  A download whose stream breaks leaves at
    the final destination a file that holds exactly the bytes received
    before the break, in place of what was there: [download_mod] and
    [download_fabric_base] write to the final path directly. *)
Theorem download_keeps_received_bytes k s fs :
  (request_fails (net (DownloadMod s k)) →
   ∃ ev, download_mod net k s fs = (Return tt, fs, ev)) ∧
  (∀ response,
     streams (net (DownloadMod s k)) response → broken response = true →
     is_Some (mods_of fs s) → entry_at fs s k ≠ Some SubDir →
     ∃ fs' ev,
       download_mod net k s fs = (Return tt, fs', ev) ∧
       file_at fs' (ModPath s k) = Some (concat (chunks response))) ∧
  (request_fails (net (DownloadFabric s)) →
   ∃ o fs' ev,
     download_fabric_base extractall net s fs = (o, fs', ev) ∧
     file_at fs' (ArchivePath s) = file_at fs (ArchivePath s)) ∧
  (∀ response,
     streams (net (DownloadFabric s)) response → broken response = true →
     ∃ fs' ev,
       download_fabric_base extractall net s fs
         = (Raise RequestException, fs', ev) ∧
       file_at fs' (ArchivePath s) = Some (concat (chunks response))).
Proof.
  split_and!.
  - intros Hf. destruct (net (DownloadMod s k)) as [|response] eqn:H.
    + rewrite (download_mod_failed _ _ _ _ H). by eexists.
    + rewrite (download_mod_refused _ _ _ _ _ H Hf). by eexists.
  - intros response (H & Hs & Ht) Hbr Hm Hk.
    destruct (download_mod_streamed net k s fs response H Hs Ht Hm Hk)
      as (fs' & ev & r & Hd & He & _).
    exists fs', ev. split; [done|]. unfold file_at. by rewrite He.
  - intros Hf. destruct (net (DownloadFabric s)) as [|response] eqn:H.
    + rewrite (download_fabric_base_failed _ _ _ _ H). eexists _, _, _.
      split; [done|]. rewrite file_at_archive_insert. unfold file_at.
      by destruct (fs !! s).
    + rewrite (download_fabric_base_refused _ _ _ _ _ H Hf). eexists _, _, _.
      split; [done|]. rewrite file_at_archive_insert. unfold file_at.
      by destruct (fs !! s).
  - intros response (H & Hs & Ht) Hbr.
    destruct (download_fabric_base_interrupted extractall net s fs response
                H Hs Ht Hbr) as (ev & -> & _).
    eexists _, _. split; [done|]. by rewrite file_at_archive_insert.
Qed.

(** C3, as the code has it.  When the required version is not installed
    and the bootstrap fails by an exception of the transport (the request
    raises, or the stream of the archive breaks), the exception ends the
    run before mod reconciliation: the manifest is not requested and no
    mod is removed or downloaded.  When instead the bootstrap is refused
    with a status other than 200, or the archive is received (whether or
    not its extraction then succeeds), [download_fabric_base] logs and
    returns normally, and the run goes on to [check_mods], whose first
    action is the request for the manifest. *)
Theorem run_after_bootstrap s required fs :
  required ∉ installed_ids fs s →
  (net (DownloadFabric s) = ConnectionFailed ∨
   (∃ response,
      streams (net (DownloadFabric s)) response ∧ broken response = true) →
   ∃ fs' ev,
     run sha256 extractall net s required fs
       = (Raise RequestException, fs', ev) ∧
     requests ev = [DownloadFabric s] ∧ removed ev = []) ∧
  ((∃ response,
      net (DownloadFabric s) = Reply response ∧ status_code response ≠ 200) ∨
   (∃ response,
      streams (net (DownloadFabric s)) response ∧ broken response = false) →
   ∃ fs0 ev0 o fs' ev,
     check_fabric_version extractall net s required fs
       = (Return tt, fs0, ev0) ∧
     check_mods sha256 net s fs0 = (o, fs', EGet (ListMod s) :: ev) ∧
     run sha256 extractall net s required fs
       = (o, fs', ev0 ++ EGet (ListMod s) :: ev)).
Proof.
  intros Hmiss. split.
  - intros Hab.
    assert (∃ fs' ev,
      download_fabric_base extractall net s fs
        = (Raise RequestException, fs', ev) ∧
      requests ev = [DownloadFabric s] ∧ removed ev = [])
      as (fs' & ev & Hd & Hr & Hrm).
    { destruct Hab as [H | (response & (H & Hs & Ht) & Hbr)].
      - rewrite (download_fabric_base_failed _ _ _ _ H). by eexists _, _.
      - destruct (download_fabric_base_interrupted extractall net s fs
                    response H Hs Ht Hbr) as (ev & -> & ? & ?).
        by eexists _, _. }
    unfold run. erewrite bind_Raise; cycle 1.
    { rewrite (check_fabric_version_missing _ _ _ Hmiss), Hd. reflexivity. }
    eexists _, _. split; [done|].
    split; project_events; by rewrite ?Hr, ?Hrm.
  - intros Hgo.
    assert (∃ fs0 ev,
      download_fabric_base extractall net s fs = (Return tt, fs0, ev))
      as (fs0 & ev0 & Hd).
    { destruct Hgo as [(response & H & Hs) | (response & (H & Hs & Ht) & Hbr)].
      - rewrite (download_fabric_base_refused _ _ _ _ _ H Hs). by eexists _, _.
      - destruct (download_fabric_base_streamed extractall net s fs response
                    H Hs Ht Hbr) as (ev & -> & _).
        by eexists _, _. }
    destruct (check_mods_first_request s fs0) as (o & fs' & ev & Hcm).
    eexists fs0, _, o, fs', ev. split_and!.
    + rewrite (check_fabric_version_missing _ _ _ Hmiss), Hd. reflexivity.
    + done.
    + unfold run. erewrite bind_Return; cycle 1.
      { rewrite (check_fabric_version_missing _ _ _ Hmiss), Hd. reflexivity. }
      by rewrite Hcm.
Qed.

(** C4, at the failing input.  A download whose response has status 200,
    no [Content-Length] header and at least one chunk raises
    [ZeroDivisionError] while it reports the progress of the first chunk,
    after that chunk was written to the destination; neither
    [download_mod] nor [download_fabric_base] catches it. *)
Theorem download_without_content_length k s fs response c cs :
  content_length response = None →
  status_code response = 200 →
  chunks response = c :: cs →
  (net (DownloadMod s k) = Reply response →
   is_Some (mods_of fs s) → entry_at fs s k ≠ Some SubDir →
   ∃ fs',
     download_mod net k s fs =
       (Raise ZeroDivisionError, fs',
        [EGet (DownloadMod s k); EOpenW (ModPath s k)]) ∧
     file_at fs' (ModPath s k) = Some c) ∧
  (net (DownloadFabric s) = Reply response →
   ∃ fs',
     download_fabric_base extractall net s fs =
       (Raise ZeroDivisionError, fs',
        [EGet (DownloadFabric s); EOpenW (ArchivePath s)]) ∧
     file_at fs' (ArchivePath s) = Some c).
Proof.
  intros Hl Hs Hc.
  assert (total_size_of response = 0) as Ht
    by (unfold total_size_of; by rewrite Hl).
  split.
  - intros H Hm Hk.
    destruct (download_mod_zero net k s fs response c cs H Hs Ht Hc Hm Hk)
      as (fs' & r & Hd & He & _).
    exists fs'. split; [done|]. unfold file_at. by rewrite He.
  - intros H.
    rewrite (download_fabric_base_zero extractall net s fs response c cs
               H Hs Ht Hc).
    eexists. split; [done|]. by rewrite file_at_archive_insert.
Qed.

(** C5, as the code has it.  When the archive was received and its
    extraction fails, [download_fabric_base] catches the exception and
    logs it, raises nothing, and goes on to remove the archive as after a
    successful extraction: no archive is left at its path. *)
Theorem failed_extraction_removes_archive s fs response :
  streams (net (DownloadFabric s)) response →
  broken response = false →
  (extractall (concat (chunks response))
     (set_archive (Some (concat (chunks response)))
        (default (Build [] None None) (fs !! s)))).1 = false →
  ∃ fs' ev,
    download_fabric_base extractall net s fs = (Return tt, fs', ev) ∧
    ELog ERROR (MsgExtractError BadZipFile) ∈ ev ∧
    file_at fs' (ArchivePath s) = None.
Proof.
  intros (H & Hs & Ht) Hbr Hex.
  destruct (download_fabric_base_streamed extractall net s fs response
              H Hs Ht Hbr) as (ev & Hd & _ & Hlog).
  eexists _, ev. split; [exact Hd|]. split; [by apply Hlog|].
  by rewrite file_at_archive_insert.
Qed.

(** C8.  [check_fabric_version] takes the version as installed exactly
    when one of the identifiers listed for the build is the required
    string itself; it then returns without a request and without a change
    to the file system.  Otherwise the one request of the run of
    [check_fabric_version] is that of the bootstrap download that it
    starts: the check itself never uses the network. *)
Theorem check_fabric_version_gate s required fs :
  match check_fabric_version extractall net s required fs with
  | (o, fs', ev) =>
      (required ∈ installed_ids fs s ↔ requests ev = []) ∧
      (required ∈ installed_ids fs s → o = Return tt ∧ fs' = fs) ∧
      (required ∉ installed_ids fs s → requests ev = [DownloadFabric s])
  end.
Proof.
  destruct (decide (required ∈ installed_ids fs s)) as [Hin|Hin].
  - rewrite (check_fabric_version_installed _ _ _ Hin). by split_and!.
  - rewrite (check_fabric_version_missing _ _ _ Hin).
    destruct (download_fabric_base extractall net s fs) as [[o fs'] ev] eqn:Hd.
    apply download_fabric_base_requests in Hd.
    split_and!; [|done|]; project_events; rewrite Hd; [|done].
    split; [done | discriminate].
Qed.

(** C9.  [delete_build] never raises, whatever the name and whatever the
    state of the [builds] directory, hence also on a build that does not
    exist and on the state that a first call has left: every exception of
    [shutil.rmtree] is caught and logged.  For a name that is a single
    path component, a build that exists is removed, with nothing else,
    and on a build that does not exist the [FileNotFoundError] is logged
    and nothing changes; so a second call in a row changes nothing. *)
Theorem delete_build_idempotent s fs :
  (∃ fs1 ev1, delete_build s fs = (Return tt, fs1, ev1)) ∧
  (plain_name s = true →
   (∃ ev, delete_build s fs = (Return tt, delete s fs, ev)) ∧
   delete_build s (delete s fs) =
     (Return tt, delete s fs,
      [ELog ERROR (MsgBuildDeleteError s FileNotFoundError)]) ∧
   (fs !! s = None →
    delete_build s fs =
      (Return tt, fs,
       [ELog ERROR (MsgBuildDeleteError s FileNotFoundError)]))).
Proof.
  assert (∀ fs0 : fsys, fs0 !! s = None →
    delete_build s fs0 =
      (Return tt, fs0, [ELog ERROR (MsgBuildDeleteError s FileNotFoundError)]))
    as Habsent.
  { intros fs0 H. unfold delete_build, try_except. rewrite bind_unfold.
    unfold rmtree. by rewrite H. }
  assert (∃ ev, delete_build s fs = (Return tt, delete s fs, ev)) as Hfirst.
  { destruct (fs !! s) as [b|] eqn:Hb.
    - unfold delete_build, try_except. rewrite bind_unfold. unfold rmtree.
      rewrite Hb. by eexists.
    - rewrite (Habsent fs Hb), delete_id by done. by eexists. }
  split.
  - destruct Hfirst as [ev Hd]. by eexists _, _.
  - intros _. split; [done|]. split; [|apply Habsent].
    apply Habsent, lookup_delete_eq.
Qed.

End Claims.

(** ** The theorems at work on the example worlds *)

Example check_mods_example_sets :
  let ev := (check_mods ex_digest ex_net "srv" ex_fs).2 in
  removed_mods ev = ["a.jar"%string] ∧
  requested_mods ev = ["c.jar"%string] ∧
  written_mods ev = ["c.jar"%string].
Proof. by vm_compute. Qed.

(** The stream of [b.jar] breaks after one byte of two: the byte received
    replaces the file that was at the destination. *)
Lemma download_keeps_received_bytes_witness :
  ∃ fs' ev,
    download_mod ex_net_broken "b.jar" "srv" ex_fs = (Return tt, fs', ev) ∧
    file_at fs' (ModPath "srv" "b.jar") = Some [Byte.x63].
Proof.
  apply (proj1 (proj2 (download_keeps_received_bytes ex_extract_fails
                         ex_net_broken "b.jar"%string "srv"%string ex_fs))
           (Response 200 (Some 2) [[Byte.x63]] true None)).
  - split; [reflexivity|]. split; [reflexivity|]. left. discriminate.
  - reflexivity.
  - eexists. reflexivity.
  - discriminate.
Defined.

(** C2 fails on the code: after an interrupted download the destination is
    not what it was.  The file [b.jar] that was there is replaced by the
    byte received, and for the new file [c.jar] that byte is left under
    the final name. *)
Lemma interrupted_download_leaves_partial_file :
  ex_net_broken (DownloadMod "srv" "b.jar")
    = Reply (Response 200 (Some 2) [[Byte.x63]] true None) ∧
  file_at ex_fs (ModPath "srv" "b.jar") = Some [Byte.x62] ∧
  file_at (download_mod ex_net_broken "b.jar" "srv" ex_fs).1.2
    (ModPath "srv" "b.jar") = Some [Byte.x63] ∧
  file_at ex_fs (ModPath "srv" "c.jar") = None ∧
  file_at (download_mod ex_net_broken "c.jar" "srv" ex_fs).1.2
    (ModPath "srv" "c.jar") = Some [Byte.x63].
Proof. by vm_compute. Qed.

(** The server is down: the run stops at the bootstrap request. *)
Lemma run_after_bootstrap_witness :
  ∃ fs' ev,
    run ex_digest ex_extract_fails ex_net_down "srv" "fabric-1.20.1" ex_fs
      = (Raise RequestException, fs', ev) ∧
    requests ev = [DownloadFabric "srv"] ∧ removed ev = [].
Proof.
  apply (proj1 (run_after_bootstrap ex_digest ex_extract_fails ex_net_down
                  "srv"%string "fabric-1.20.1"%string ex_fs
                  (λ H, proj1 (elem_of_nil _) H))).
  left. reflexivity.
Defined.

(** C3 fails on the code: the bootstrap download is refused with 404, the
    refusal is logged, and the run goes on to request the manifest, to
    remove [a.jar] and to download [c.jar]. *)
Lemma failed_bootstrap_still_reconciles :
  installed_ids ex_fs "srv" = [] ∧
  ex_net (DownloadFabric "srv") = Reply (Response 404 None [] false None) ∧
  (run ex_digest ex_extract_fails ex_net "srv" "fabric-1.20.1" ex_fs).1.1
    = Return tt ∧
  (run ex_digest ex_extract_fails ex_net "srv" "fabric-1.20.1" ex_fs).2 =
    [ELog INFO (MsgVersionMissing "fabric-1.20.1");
     EStatus (MsgVersionMissing "fabric-1.20.1");
     EGet (DownloadFabric "srv"); ELog ERROR (MsgFabricStatus 404);
     EStatus MsgFabricFailed; EGet (ListMod "srv");
     ERemove (ModPath "srv" "a.jar"); ELog INFO (MsgModRemoved "a.jar");
     EStatus (MsgModRemoved "a.jar"); ELog INFO (MsgModMissing "c.jar");
     EStatus (MsgModMissing "c.jar"); EGet (DownloadMod "srv" "c.jar");
     EOpenW (ModPath "srv" "c.jar"); EStatus (MsgModProgress "c.jar" 100);
     ELog INFO (MsgModDownloaded "c.jar");
     EStatus (MsgModDownloaded "c.jar")].
Proof. by vm_compute. Qed.

(** A mod and the archive served without [Content-Length]. *)
Lemma download_without_content_length_witness :
  (∃ fs',
     download_mod ex_net_no_length "c.jar" "srv" ex_fs =
       (Raise ZeroDivisionError, fs',
        [EGet (DownloadMod "srv" "c.jar"); EOpenW (ModPath "srv" "c.jar")]) ∧
     file_at fs' (ModPath "srv" "c.jar") = Some [Byte.x63]) ∧
  (∃ fs',
     download_fabric_base ex_extract_fails ex_net_no_length "srv" ex_fs =
       (Raise ZeroDivisionError, fs',
        [EGet (DownloadFabric "srv"); EOpenW (ArchivePath "srv")]) ∧
     file_at fs' (ArchivePath "srv") = Some [Byte.x63]).
Proof.
  pose proof (download_without_content_length ex_extract_fails
                ex_net_no_length "c.jar"%string "srv"%string ex_fs
                (Response 200 None [[Byte.x63]] false None) [Byte.x63] []
                eq_refl eq_refl eq_refl) as [Hmod Hfabric].
  split.
  - apply Hmod; [reflexivity | eexists; reflexivity | discriminate].
  - apply Hfabric. reflexivity.
Defined.

(** The archive is received and cannot be extracted. *)
Lemma failed_extraction_removes_archive_witness :
  ∃ fs' ev,
    download_fabric_base ex_extract_fails ex_net_archive "srv" ex_fs
      = (Return tt, fs', ev) ∧
    ELog ERROR (MsgExtractError BadZipFile) ∈ ev ∧
    file_at fs' (ArchivePath "srv") = None.
Proof.
  apply (failed_extraction_removes_archive ex_extract_fails ex_net_archive
           "srv"%string ex_fs (Response 200 (Some 1) [[Byte.x50]] false None)).
  - split; [reflexivity|]. split; [reflexivity|]. left. discriminate.
  - reflexivity.
  - reflexivity.
Defined.

(** C5 fails on the code: the extraction of the received archive fails,
    [download_fabric_base] returns normally all the same, and the archive
    has been removed. *)
Lemma failed_extraction_loses_archive :
  (download_fabric_base ex_extract_fails ex_net_archive "srv" ex_fs).1.1
    = Return tt ∧
  (download_fabric_base ex_extract_fails ex_net_archive "srv" ex_fs).2 =
    [EGet (DownloadFabric "srv"); EOpenW (ArchivePath "srv");
     EStatus (MsgFabricProgress 100); EStatus MsgFabricDownloaded;
     EStatus MsgExtracting; ELog ERROR (MsgExtractError BadZipFile);
     ERemove (ArchivePath "srv"); EStatus MsgDone] ∧
  file_at
    (download_fabric_base ex_extract_fails ex_net_archive "srv" ex_fs).1.2
    (ArchivePath "srv") = None.
Proof. by vm_compute. Qed.

(** [a.jar] cannot be read. *)
Lemma check_mods_unreadable_witness :
  get_local_mods_dict ex_digest "srv" ex_fs_unreadable
    = (Raise PermissionError, ex_fs_unreadable, []) ∧
  is_OSError PermissionError = true ∧
  check_mods ex_digest ex_net "srv" ex_fs_unreadable
    = (Raise PermissionError, ex_fs_unreadable, [EGet (ListMod "srv")]).
Proof.
  apply (check_mods_unreadable ex_digest ex_net "srv"%string ex_fs_unreadable
           [("a.jar"%string, RegFile false [Byte.x61]);
            ("b.jar"%string, RegFile true [Byte.x62])]
           (Some (dict_of_pairs
                    [("b.jar"%string, "b"%string);
                     ("c.jar"%string, "c"%string)]))
           [EGet (ListMod "srv")]).
  - reflexivity.
  - left. reflexivity.
  - reflexivity.
Defined.

(** C6 fails on the code: with [a.jar] unreadable the pass ends with the
    [PermissionError]; the manifest was fetched, but [c.jar], which the
    manifest lists and the build lacks, is not downloaded. *)
Lemma unreadable_mod_aborts_pass :
  entry_at ex_fs_unreadable "srv" "a.jar" = Some (RegFile false [Byte.x61]) ∧
  check_mods ex_digest ex_net "srv" ex_fs_unreadable
    = (Raise PermissionError, ex_fs_unreadable, [EGet (ListMod "srv")]) ∧
  dict_get (dict_of_pairs [("b.jar", "b"); ("c.jar", "c")]%string) "c.jar"
    = Some "c"%string ∧
  requested_mods (check_mods ex_digest ex_net "srv" ex_fs_unreadable).2 = [].
Proof. by vm_compute. Qed.

(** The version is installed: no request. *)
Lemma check_fabric_version_gate_witness :
  check_fabric_version ex_extract_fails ex_net "srv" "fabric-1.20.1"
    ex_fs_installed
  = (Return tt, ex_fs_installed,
     [ELog INFO (MsgVersionInstalled "fabric-1.20.1");
      EStatus (MsgVersionInstalled "fabric-1.20.1")]) ∧
  requests
    (check_fabric_version ex_extract_fails ex_net "srv" "fabric-1.20.1"
       ex_fs_installed).2 = [].
Proof.
  pose proof (check_fabric_version_gate ex_extract_fails ex_net "srv"%string
                "fabric-1.20.1"%string ex_fs_installed) as H.
  destruct (check_fabric_version ex_extract_fails ex_net "srv" "fabric-1.20.1"
              ex_fs_installed) as [[o fs'] ev] eqn:E.
  destruct H as (Hiff & Hret & _).
  split; [vm_compute in E; by injection E as <- <- <-|].
  apply Hiff. left.
Defined.

(** The match of identifiers is exact: case and blanks count. *)
Example find_version_exact :
  find_version ["Fabric-1.20.1"; "fabric-1.20.1 "; "fabric-1.20"]%string
    "fabric-1.20.1" = false ∧
  find_version ["fabric-1.20"; "fabric-1.20.1"]%string "fabric-1.20.1" = true.
Proof. done. Qed.

(** ** Invariants kept whatever the outcome *)

Lemma preserves_pure {A} (I : fsys → Prop) (m : M A) :
  (∀ fs, ∃ o ev, m fs = (o, fs, ev)) → preserves I m.
Proof.
  intros Hp fs o fs' ev HI. destruct (Hp fs) as (o' & ev' & ->).
  by intros [= <- <- <-].
Qed.

Lemma preserves_bind {A B} (I : fsys → Prop) (m : M A) (f : A → M B) :
  preserves I m → (∀ a, preserves I (f a)) → preserves I (m ≫= f).
Proof.
  intros Hm Hf fs o fs' ev HI
    [(a & fs1 & ev1 & ev2 & H1 & H2 & ->) | (e & H1 & ->)]%bind_inv.
  - eapply Hf; [|exact H2]. by eapply Hm.
  - by eapply Hm.
Qed.

Lemma preserves_try {A} (I : fsys → Prop) (body : M A) catch handler :
  preserves I body → (∀ e, preserves I (handler e)) →
  preserves I (try_except body catch handler).
Proof.
  intros Hb Hh fs o fs' ev HI. unfold try_except.
  destruct (body fs) as [[[a|e] fs1] ev1] eqn:Hbody.
  - intros [= <- <- <-]. by eapply Hb.
  - destruct (catch e).
    + destruct (handler e fs1) as [[o2 fs2] ev2] eqn:Hhand.
      intros [= <- <- <-]. eapply Hh; [|exact Hhand]. by eapply Hb.
    + intros [= <- <- <-]. by eapply Hb.
Qed.

Lemma preserves_for_each {X} (I : fsys → Prop) (xs : list X) body :
  (∀ x, preserves I (body x)) → preserves I (for_each xs body).
Proof.
  intros Hb. induction xs as [|x xs IH].
  - apply preserves_pure. intros fs. by eexists _, _.
  - cbn [for_each]. apply preserves_bind; [apply Hb | intros _; apply IH].
Qed.

Lemma preserves_emit I e : preserves I (emit e).
Proof. apply preserves_pure. intros fs. by eexists _, _. Qed.

Lemma preserves_mret {A} I (a : A) : preserves I (mret a).
Proof. apply preserves_pure. intros fs. by eexists _, _. Qed.

Lemma preserves_raise {A} I e : preserves I (@raise A e).
Proof. apply preserves_pure. intros fs. by eexists _, _. Qed.

Lemma preserves_percent_of I downloaded total_size :
  preserves I (percent_of downloaded total_size).
Proof.
  apply preserves_pure. intros fs. unfold percent_of.
  destruct (total_size =? 0); by eexists _, _.
Qed.

Section Steps.

Variable sha256 : bytes → string.
Variable net : request → reply.
Variable s : string.
Variable I : fsys → Prop.
Hypothesis I_closed : step_closed s I.

Lemma preserves_requests_get r : preserves I (requests_get net r).
Proof.
  apply preserves_pure. intros fs. unfold requests_get. rewrite bind_unfold.
  simpl. destruct (net r); by eexists _, _.
Qed.

Lemma preserves_makedirs_mods : preserves I (makedirs_mods s).
Proof.
  intros fs o fs' ev HI. unfold makedirs_mods.
  destruct (fs !! s) as [b|] eqn:Hb.
  - destruct (mods b) as [l|] eqn:Hl; intros [= <- <- <-]; [done|].
    eapply I_closed; [done|]. by apply step_mkdir_mods.
  - intros [= <- <- <-]. eapply I_closed; [done|]. by apply step_mkdir_build.
Qed.

Lemma preserves_os_remove k : preserves I (os_remove (ModPath s k)).
Proof.
  intros fs o fs' ev HI. unfold os_remove.
  destruct (fs !! s) as [b|] eqn:Hb; [|by intros [= <- <- <-]].
  destruct (mods b) as [l|] eqn:Hl; [|by intros [= <- <- <-]].
  destruct (lookup_entry l k) as [[r d|]|]; intros [= <- <- <-]; [|done..].
  eapply I_closed; [done|]. eapply step_listing; [done..|]. constructor.
Qed.

Lemma preserves_open_wb k : preserves I (open_wb (ModPath s k)).
Proof.
  intros fs o fs' ev HI. unfold open_wb.
  destruct (fs !! s) as [b|] eqn:Hb; [|by intros [= <- <- <-]].
  destruct (mods b) as [l|] eqn:Hl; [|by intros [= <- <- <-]].
  destruct (lookup_entry l k) as [[r d|]|] eqn:Hk; intros [= <- <- <-].
  - eapply I_closed; [done|]. eapply step_listing; [done..|]. constructor.
  - done.
  - eapply I_closed; [done|]. eapply step_listing; [done..|].
    by constructor.
Qed.

Lemma preserves_file_write k chunk :
  preserves I (file_write (ModPath s k) chunk).
Proof.
  intros fs o fs' ev HI. unfold file_write.
  destruct (fs !! s) as [b|] eqn:Hb; [|by intros [= <- <- <-]].
  destruct (mods b) as [l|] eqn:Hl; intros [= <- <- <-]; [|done].
  eapply I_closed; [done|]. eapply step_listing; [done..|]. constructor.
Qed.

Lemma preserves_write_mod_chunks k total_size cs : ∀ downloaded,
  preserves I (write_mod_chunks k s total_size cs downloaded).
Proof.
  induction cs as [|c cs IH]; intros n; cbn [write_mod_chunks].
  - apply preserves_mret.
  - apply preserves_bind; [apply preserves_file_write | intros _].
    apply preserves_bind; [apply preserves_percent_of | intros p].
    apply preserves_bind; [apply preserves_emit | intros _]. apply IH.
Qed.

(** [download_mod] keeps every invariant that the steps keep. *)
Lemma preserves_download_mod k : preserves I (download_mod net k s).
Proof.
  unfold download_mod. apply preserves_try.
  - apply preserves_bind; [apply preserves_requests_get | intros response].
    destruct (status_code response =? 200).
    + apply preserves_bind; [apply preserves_open_wb | intros _].
      apply preserves_bind; [apply preserves_write_mod_chunks | intros _].
      apply preserves_bind.
      { unfold end_of_stream.
        destruct (broken response); [apply preserves_raise | apply preserves_mret]. }
      intros _. apply preserves_bind; [apply preserves_emit | intros _].
      apply preserves_emit.
    + apply preserves_bind; [apply preserves_emit | intros _].
      apply preserves_emit.
  - intros e. apply preserves_bind; [apply preserves_emit | intros _].
    apply preserves_emit.
Qed.

Lemma preserves_remove_stale remote_mods k :
  preserves I (remove_stale s remote_mods k).
Proof.
  unfold remove_stale. apply preserves_bind.
  - destruct remote_mods; [apply preserves_mret | apply preserves_raise].
  - intros [|]; [|apply preserves_mret].
    apply preserves_bind; [apply preserves_os_remove | intros _].
    apply preserves_bind; [apply preserves_emit | intros _].
    apply preserves_emit.
Qed.

Lemma preserves_fetch_changed local_mods item :
  preserves I (fetch_changed net s local_mods item).
Proof.
  unfold fetch_changed. destruct (differs _ _); [|apply preserves_mret].
  apply preserves_bind; [|intros _; apply preserves_download_mod].
  destruct (dict_get local_mods item.1);
    (apply preserves_bind; [apply preserves_emit | intros _; apply preserves_emit]).
Qed.




End Steps.

(** *** The invariants of the [mods] directory *)

Lemma alter_entry_names g l k : (alter_entry g l k).*1 = l.*1.
Proof.
  induction l as [|[n f] l IH]; csimpl; [done|].
  destruct (String.eqb n k); csimpl; [done | by rewrite IH].
Qed.

Lemma lookup_entry_None l k : lookup_entry l k = None ↔ k ∉ l.*1.
Proof.
  induction l as [|[n f] l IH]; csimpl.
  - split; [intros _ ?%elem_of_nil; done | done].
  - rewrite not_elem_of_cons. destruct (String.eqb_spec n k) as [->|Hne].
    + split; [done | intros [? _]; done].
    + rewrite IH. split; [by intros ? | by intros [_ ?]].
Qed.

Lemma lookup_entry_elem_of l k f : lookup_entry l k = Some f → (k, f) ∈ l.
Proof.
  induction l as [|[n g] l IH]; simpl; [done|].
  destruct (String.eqb_spec n k) as [->|Hne].
  - intros [= ->]. left.
  - intros H. right. auto.
Qed.

Lemma lookup_entry_NoDup l k f :
  NoDup l.*1 → (k, f) ∈ l → lookup_entry l k = Some f.
Proof.
  induction l as [|[n g] l IH]; csimpl.
  - by intros _ ?%elem_of_nil.
  - rewrite NoDup_cons. intros [Hn Hl] [[= -> ->]|Hin]%elem_of_cons.
    + by rewrite String.eqb_refl.
    + destruct (String.eqb_spec n k) as [->|Hne]; [|auto].
      exfalso. apply Hn. apply list_elem_of_fmap. by exists (k, f).
Qed.

Lemma remove_entry_names_NoDup l k : NoDup l.*1 → NoDup (remove_entry l k).*1.
Proof.
  unfold remove_entry. induction l as [|[n f] l IH]; csimpl; [done|].
  rewrite NoDup_cons. intros [Hn Hl]. rewrite filter_cons. simpl.
  destruct (decide (n ≠ k)); [|auto]. csimpl. apply NoDup_cons. split; [|auto].
  intros ([n' f'] & -> & [_ Hin]%list_elem_of_filter)%list_elem_of_fmap.
  apply Hn. apply list_elem_of_fmap. by exists (n', f').
Qed.

Lemma listing_step_NoDup k l l' :
  listing_step k l l' → NoDup l.*1 → NoDup l'.*1.
Proof.
  intros [l0 | l0 | l0 chunk | l0 Hnone] Hnd.
  - by apply remove_entry_names_NoDup.
  - by rewrite alter_entry_names.
  - by rewrite alter_entry_names.
  - rewrite fmap_app. apply NoDup_app. split_and!; [done | | apply NoDup_singleton].
    intros x Hx ->%list_elem_of_singleton. by apply lookup_entry_None in Hnone.
Qed.

Lemma listing_step_readable k l l' :
  listing_step k l l' →
  (∀ n r d, lookup_entry l n = Some (RegFile r d) → r = true) →
  ∀ n r d, lookup_entry l' n = Some (RegFile r d) → r = true.
Proof.
  intros Hstep Hl n r d.
  destruct (decide (k = n)) as [<-|Hne].
  - destruct Hstep as [l0 | l0 | l0 chunk | l0 Hnone].
    + by rewrite lookup_remove_entry.
    + rewrite lookup_alter_entry.
      destruct (lookup_entry l0 k) as [[r0 d0|]|] eqn:E; [|done..].
      intros [= <- <-]. eauto.
    + rewrite lookup_alter_entry.
      destruct (lookup_entry l0 k) as [[r0 d0|]|] eqn:E; [|done..].
      intros [= <- <-]. eauto.
    + rewrite lookup_entry_app, Hnone. simpl. rewrite String.eqb_refl.
      by intros [= <- <-].
  - destruct Hstep as [l0 | l0 | l0 chunk | l0 Hnone].
    + rewrite lookup_remove_entry_ne by done. apply Hl.
    + rewrite lookup_alter_entry_ne by done. apply Hl.
    + rewrite lookup_alter_entry_ne by done. apply Hl.
    + rewrite lookup_entry_app. simpl.
      destruct (lookup_entry l0 n) as [f|] eqn:E; [intros [= ->]; eauto|].
      by destruct (String.eqb_spec k n).
Qed.

Lemma distinct_names_closed s : step_closed s (distinct_names s).
Proof.
  intros fs fs' Hnd Hstep l'. destruct Hstep as [fs b l l1 k Hb Hl Hst | fs b Hb Hl | fs Hb];
    rewrite mods_of_insert, decide_True by done; simpl; intros [= <-].
  - eapply listing_step_NoDup; [done|]. apply Hnd. unfold mods_of. by rewrite Hb.
  - constructor.
  - constructor.
Qed.

Lemma all_readable_closed s : step_closed s (all_readable s).
Proof.
  intros fs fs' Hrd Hstep n r d.
  destruct Hstep as [fs b l l1 k Hb Hl Hst | fs b Hb Hl | fs Hb];
    rewrite entry_at_insert; simpl; [|done..].
  eapply listing_step_readable; [done|]. intros n' r' d' Hn'. eapply (Hrd n').
  unfold entry_at, mods_of. rewrite Hb, Hl. done.
Qed.


Lemma has_mods_closed s : step_closed s (λ fs, is_Some (mods_of fs s)).
Proof.
  intros fs fs' _ Hstep.
  destruct Hstep; rewrite mods_of_insert, decide_True by done; by eexists.
Qed.

(** ** The local inventory *)

Lemma dict_get_set_eq d k v : dict_get (dict_set d k v) k = Some v.
Proof.
  induction d as [|[k' v'] d IH]; simpl.
  - by rewrite String.eqb_refl.
  - destruct (String.eqb k' k) eqn:E; simpl; by rewrite E.
Qed.

Lemma dict_get_set_ne d k k' v :
  k ≠ k' → dict_get (dict_set d k v) k' = dict_get d k'.
Proof.
  intros Hne. induction d as [|[n v'] d IH]; simpl.
  - by destruct (String.eqb_spec k k').
  - destruct (String.eqb_spec n k) as [->|Hn]; simpl.
    + by destruct (String.eqb_spec k k').
    + by rewrite IH.
Qed.

Section Inventory.

Variable sha256 : bytes → string.

(** What [hash_files] returns: the digests of the regular files, over the
    dictionary it started from; and it returns only when every regular
    file could be read. *)
Lemma hash_files_Return l : ∀ files fs L fs' ev,
  NoDup l.*1 →
  hash_files sha256 l files fs = (Return L, fs', ev) →
  (∀ k, dict_get L k =
        match lookup_entry l k with
        | Some (RegFile _ d) => Some (sha256 d)
        | _ => dict_get files k
        end) ∧
  (∀ k r d, lookup_entry l k = Some (RegFile r d) → r = true) ∧
  (NoDup (dict_keys files) → NoDup (dict_keys L)).
Proof.
  induction l as [|[n f] l IH]; intros files fs L fs' ev Hnd; csimpl.
  - intros [= <- <- <-]. done.
  - csimpl in Hnd. apply NoDup_cons in Hnd as [Hn Hnd].
    apply lookup_entry_None in Hn. destruct f as [[] d|]; simpl.
    + rewrite bind_unfold. simpl.
      destruct (hash_files sha256 l _ fs) as [[o1 fs1] ev1] eqn:Hrec.
      intros [= -> <- <-].
      destruct (IH _ _ _ _ _ Hnd Hrec) as (Hget & Hrd & Hk). split_and!.
      * intros k. rewrite Hget. destruct (String.eqb_spec n k) as [->|Hne].
        -- by rewrite Hn, dict_get_set_eq.
        -- destruct (lookup_entry l k) as [[]|]; by rewrite ?dict_get_set_ne.
      * intros k r d'. destruct (String.eqb_spec n k); [by intros [= <- _]|].
        apply Hrd.
      * intros Hf. apply Hk. by apply dict_set_NoDup.
    + by rewrite bind_unfold.
    + intros Hrec. destruct (IH _ _ _ _ _ Hnd Hrec) as (Hget & Hrd & Hk).
      split_and!; [| |done].
      * intros k. rewrite Hget. destruct (String.eqb_spec n k) as [->|Hne].
        -- by rewrite Hn.
        -- done.
      * intros k r d'. destruct (String.eqb_spec n k); [done|]. apply Hrd.
Qed.

Lemma get_local_mods_dict_Return s fs L fs' ev :
  distinct_names s fs →
  get_local_mods_dict sha256 s fs = (Return L, fs', ev) →
  (∀ k, dict_get L k = digest_at sha256 fs s k) ∧
  all_readable s fs ∧ NoDup (dict_keys L).
Proof.
  intros Hnd. destruct (mods_of fs s) as [l|] eqn:Hm.
  - rewrite (get_local_mods_dict_eq _ _ _ _ Hm). intros Hh.
    apply hash_files_Return in Hh as (Hget & Hrd & Hk); [|by apply Hnd].
    split_and!.
    + intros k. rewrite Hget. unfold digest_at, entry_at. rewrite Hm.
      by destruct (lookup_entry l k) as [[]|].
    + intros k r d. unfold entry_at. rewrite Hm. apply Hrd.
    + apply Hk. constructor.
  - unfold get_local_mods_dict, iterdir. by rewrite bind_unfold, Hm.
Qed.

(** X1.  On a [mods] directory whose regular files can all be read, the
    local inventory is returned without a change to the file system; its
    keys are the names of the regular files, each with the digest of the
    content of its file, and sub-directories are not keys. *)
Theorem get_local_mods_dict_digests s fs :
  is_Some (mods_of fs s) →
  distinct_names s fs →
  all_readable s fs →
  ∃ L,
    get_local_mods_dict sha256 s fs = (Return L, fs, []) ∧
    (∀ k, dict_get L k = digest_at sha256 fs s k) ∧
    (∀ k, k ∈ keys L ↔ ∃ r d, entry_at fs s k = Some (RegFile r d)).
Proof.
  intros [l Hm] Hnd Hrd.
  destruct (hash_files_readable sha256 l [] fs) as [L HL].
  { apply Forall_forall. intros [n f] Hin. simpl.
    destruct f as [[] d|]; [done| |done].
    assert (false = true); [|done]. apply (Hrd n false d).
    unfold entry_at. rewrite Hm. apply lookup_entry_NoDup; [by apply Hnd | done]. }
  exists L. rewrite (get_local_mods_dict_eq _ _ _ _ Hm). split; [done|].
  assert (∀ k, dict_get L k = digest_at sha256 fs s k) as Hget.
  { eapply get_local_mods_dict_Return; [done|].
    by rewrite (get_local_mods_dict_eq _ _ _ _ Hm). }
  split; [done|]. intros k. rewrite elem_of_keys, Hget. unfold digest_at.
  destruct (entry_at fs s k) as [[r d|]|]; split.
  - eauto.
  - by eauto.
  - by intros [? ?].
  - by intros (? & ? & ?).
  - by intros [? ?].
  - by intros (? & ? & ?).
Qed.

End Inventory.

(** ** What a completed pass leaves behind *)

Section Completed.

Variable sha256 : bytes → string.
Variable net : request → reply.

Lemma os_remove_gone s k fs fs' ev :
  os_remove (ModPath s k) fs = (Return tt, fs', ev) →
  entry_at fs' s k = None.
Proof.
  unfold os_remove. destruct (fs !! s) as [b|]; [|done].
  destruct (mods b) as [l|]; [|done].
  destruct (lookup_entry l k) as [[r d|]|]; [|done..].
  intros [= <- <-]. rewrite entry_at_insert. simpl.
  apply lookup_remove_entry.
Qed.

Lemma remove_stale_gone s R k fs fs' ev :
  dict_mem R k = false →
  remove_stale s (Some R) k fs = (Return tt, fs', ev) →
  entry_at fs' s k = None.
Proof.
  intros H Hrs. unfold remove_stale in Hrs. rewrite bind_unfold in Hrs.
  simpl in Hrs. rewrite H in Hrs. simpl in Hrs. rewrite bind_unfold in Hrs.
  destruct (os_remove (ModPath s k) fs) as [[[[]|e] fs1] ev1] eqn:Hrm;
    simpl in Hrs; [|done].
  injection Hrs as <- <-. by eapply os_remove_gone.
Qed.

(** After the first loop the names it removed are no longer there. *)
Lemma remove_loop_gone s R ks : ∀ fs fs' ev,
  is_Some (mods_of fs s) →
  for_each ks (remove_stale s (Some R)) fs = (Return tt, fs', ev) →
  ∀ k, k ∈ ks → dict_mem R k = false → entry_at fs' s k = None.
Proof.
  induction ks as [|k0 ks IH]; intros fs fs' ev Hm Hloop k Hin Hk.
  - by apply elem_of_nil in Hin.
  - cbn [for_each] in Hloop.
    apply bind_inv_Return in Hloop as ([] & fs1 & ev1 & ev2 & Hb & Hrest & ->).
    assert (is_Some (mods_of fs1 s)) as Hm1.
    { eapply (preserves_remove_stale s _ (has_mods_closed s)); [|done]. done. }
    destruct (decide (k ∈ ks)) as [Hks|Hks]; [by eapply IH|].
    apply elem_of_cons in Hin as [->|?]; [|done].
    apply (remove_stale_gone _ _ _ _ _ _ Hk) in Hb.
    apply remove_loop_Return in Hrest as (_ & _ & _ & (_ & _ & Hsame & _));
      [|done].
    rewrite Hsame; [done|]. by intros [_ ?]%list_elem_of_filter.
Qed.

(** When every stale name is a regular file, the first loop runs to its
    end. *)
Lemma remove_loop_total s R ks : ∀ fs,
  NoDup ks →
  (∀ k, k ∈ ks → dict_mem R k = false →
        ∃ r d, entry_at fs s k = Some (RegFile r d)) →
  ∃ fs' ev, for_each ks (remove_stale s (Some R)) fs = (Return tt, fs', ev).
Proof.
  induction ks as [|k0 ks IH]; intros fs Hnd Hreg.
  - by eexists _, _.
  - apply NoDup_cons in Hnd as [Hk0 Hnd]. cbn [for_each].
    destruct (dict_mem R k0) eqn:Hmem.
    + rewrite (bind_Return _ _ _ _ _ _ (remove_stale_present s R k0 fs Hmem)).
      destruct (IH fs Hnd) as (fs' & ev & ->); [|by eexists _, _].
      intros k Hin. apply Hreg. by right.
    + destruct (Hreg k0) as (r & d & He); [by left | done |].
      destruct (os_remove_mod s k0 fs r d He) as (fs1 & Hrm & _ & Hch).
      assert (remove_stale s (Some R) k0 fs =
              (Return tt, fs1,
               [ERemove (ModPath s k0); ELog INFO (MsgModRemoved k0);
                EStatus (MsgModRemoved k0)])) as Hb.
      { unfold remove_stale. rewrite bind_unfold. simpl. rewrite Hmem. simpl.
        by rewrite (bind_Return _ _ _ _ _ _ Hrm). }
      rewrite (bind_Return _ _ _ _ _ _ Hb).
      destruct (IH fs1 Hnd) as (fs' & ev & ->); [|by eexists _, _].
      intros k Hin Hk. destruct Hch as (_ & _ & Hsame & _).
      rewrite Hsame; [apply Hreg; [by right | done]|]. by intros ->.
Qed.

Lemma get_local_mods_dict_total s fs :
  is_Some (mods_of fs s) → distinct_names s fs → all_readable s fs →
  ∃ L, get_local_mods_dict sha256 s fs = (Return L, fs, []).
Proof.
  intros [l Hm] Hnd Hrd. rewrite (get_local_mods_dict_eq _ _ _ _ Hm).
  apply hash_files_readable. apply Forall_forall. intros [n f] Hin. simpl.
  destruct f as [[] d|]; [done| |done].
  assert (false = true); [|done]. apply (Hrd n false d).
  unfold entry_at. rewrite Hm. apply lookup_entry_NoDup; [by apply Hnd | done].
Qed.

(** The state of a pass that ran to its end, step by step: [fs0] after
    [os.makedirs], [fs1] after the removals, [fs'] after the downloads. *)
Lemma check_mods_completed s fs fs' ev :
  distinct_names s fs →
  check_mods sha256 net s fs = (Return tt, fs', ev) →
  ∃ fs0 R L fs1 ev2,
    let stale := filter (λ k, dict_mem R k = false) (dict_keys L) in
    let changed :=
      (filter (λ it, differs (dict_get L it.1) it.2 = true) R).*1 in
    makedirs_mods s fs = (Return tt, fs0, []) ∧
    get_remote_mods_dict net s fs0 =
      (Return (Some R), fs0, [EGet (ListMod s)]) ∧
    NoDup (dict_keys R) ∧
    (∀ k, entry_at fs0 s k = entry_at fs s k) ∧
    distinct_names s fs0 ∧ all_readable s fs0 ∧
    (∀ k, dict_get L k = digest_at sha256 fs0 s k) ∧
    for_each R (fetch_changed net s L) fs1 = (Return tt, fs', ev2) ∧
    changes_within s stale fs0 fs1 ∧
    (∀ k, k ∈ stale → entry_at fs1 s k = None) ∧
    changes_within s changed fs1 fs' ∧
    removed_mods ev = stale ∧ requested_mods ev = changed ∧
    requests ev = ListMod s :: (DownloadMod s <$> changed).
Proof.
  intros Hnd
    (fs0 & R & L & fs1 & ev1 & ev2 & Hmk & Hrem & HR & Hloc & Hl1 & Hl2 & ->)
    %check_mods_Return.
  assert (distinct_names s fs0) as Hnd0.
  { eapply (preserves_makedirs_mods s _ (distinct_names_closed s)); done. }
  destruct (makedirs_mods_spec s fs) as (fs0' & Hmk' & Hm0 & _).
  rewrite Hmk in Hmk'. injection Hmk' as <-.
  apply get_local_mods_dict_Return in Hloc as (Hget & Hrd0 & _); [|done].
  apply remove_loop_Return in Hl1 as Hl1'; [|by eauto].
  destruct Hl1' as (Hr1 & _ & Hg1 & Hch1).
  apply fetch_loop_Return in Hl2 as Hl2'; [|apply Hch1].
  destruct Hl2' as (Hr2 & Hg2 & _ & Hch2).
  exists fs0, R, L, fs1, ev2. cbn zeta. split_and!; try done.
  - intros k. by eapply entry_at_makedirs_mods.
  - intros k [Hin Hk]%list_elem_of_filter.
    by eapply (remove_loop_gone s R (dict_keys L) fs0 fs1 ev1); eauto.
  - unfold removed_mods. project_events.
    by rewrite Hr1, Hr2, app_nil_r, mod_names_of_paths.
  - unfold requested_mods. project_events. rewrite Hg1, Hg2.
    apply mod_names_of_requests.
  - project_events. by rewrite Hg1, Hg2.
Qed.

(** X2.  For a build name and manifest names that are single path
    components: after a pass that ran to its end, every regular file of
    the [mods] directory bears a name of the manifest: the stale files
    are gone, whether or not the downloads succeeded. *)
Theorem check_mods_leaves_no_stale_file s fs fs' ev :
  plain_name s = true →
  plain_manifest net s →
  distinct_names s fs →
  check_mods sha256 net s fs = (Return tt, fs', ev) →
  ∃ R fs0,
    makedirs_mods s fs = (Return tt, fs0, []) ∧
    get_remote_mods_dict net s fs0 =
      (Return (Some R), fs0, [EGet (ListMod s)]) ∧
    ∀ k r d, entry_at fs' s k = Some (RegFile r d) → k ∈ keys R.
Proof.
  intros _ _ Hnd Hcm.
  destruct (check_mods_completed s fs fs' ev Hnd Hcm)
    as (fs0 & R & L & fs1 & ev2 & Hmk & Hrem & HR & He0 & _ & _ & Hget & _
        & Hch1 & Hgone & Hch2 & _).
  exists R, fs0. split; [done|]. split; [done|]. intros k r d He.
  destruct (decide (k ∈ keys R)) as [|Hk]; [done|]. exfalso.
  assert (dict_mem R k = false) as Hmem.
  { destruct (dict_mem R k) eqn:E; [|done].
    apply dict_mem_keys in E. destruct Hk. unfold keys.
    by apply elem_of_list_to_set. }
  destruct Hch2 as (_ & _ & Hsame2 & _). rewrite Hsame2 in He; cycle 1.
  { intros ([k' h] & -> & [_ Hin]%list_elem_of_filter)%list_elem_of_fmap.
    apply Hk. unfold keys. apply elem_of_list_to_set, list_elem_of_fmap.
    by exists (k', h). }
  destruct (decide (k ∈ dict_keys L)) as [HL|HL].
  - rewrite Hgone in He; [done|]. by apply list_elem_of_filter.
  - destruct Hch1 as (_ & _ & Hsame1 & _). rewrite Hsame1 in He; cycle 1.
    { by intros [_ ?]%list_elem_of_filter. }
    apply dict_get_None in HL. rewrite Hget in HL. unfold digest_at in HL.
    by rewrite He in HL.
Qed.

(** When the files can be read, the manifest is fetched and no download
    can raise, the pass runs to its end. *)
Lemma check_mods_returns s fs response ps :
  distinct_names s fs →
  all_readable s fs →
  net (ListMod s) = Reply response →
  status_code response = 200 →
  json_pairs response = Some ps →
  (∀ k, k ∈ dict_keys (dict_of_pairs ps) →
        entry_at fs s k ≠ Some SubDir ∧
        has_usable_length (net (DownloadMod s k))) →
  ∃ fs' ev, check_mods sha256 net s fs = (Return tt, fs', ev).
Proof.
  intros Hnd Hrd H Hs Hj Hnames. set (R := dict_of_pairs ps) in *.
  destruct (makedirs_mods_spec s fs) as (fs0 & Hmk & Hm0 & _).
  assert (∀ k, entry_at fs0 s k = entry_at fs s k) as He0
    by (intros; by eapply entry_at_makedirs_mods).
  assert (distinct_names s fs0) as Hnd0.
  { eapply (preserves_makedirs_mods s _ (distinct_names_closed s)); done. }
  assert (all_readable s fs0) as Hrd0.
  { eapply (preserves_makedirs_mods s _ (all_readable_closed s)); done. }
  destruct (get_local_mods_dict_total s fs0) as (L & Hloc); [by eauto|done..|].
  apply get_local_mods_dict_Return in Hloc as Hloc'; [|done].
  destruct Hloc' as (Hget & _ & HLnd).
  destruct (remove_loop_total s R (dict_keys L) fs0 HLnd) as (fs1 & ev1 & Hl1).
  { intros k Hin _. apply dict_mem_keys in Hin. unfold dict_mem in Hin.
    rewrite Hget in Hin. unfold digest_at in Hin.
    destruct (entry_at fs0 s k) as [[r d|]|]; [by eauto | done..]. }
  apply remove_loop_Return in Hl1 as Hl1'; [|by eauto].
  destruct Hl1' as (_ & _ & _ & Hch1).
  destruct (fetch_loop_total net s L R fs1) as (fs' & ev2 & Hl2).
  { apply Hch1. }
  { intros it Hin. assert (it.1 ∈ dict_keys R) as Hk
      by (apply list_elem_of_fmap; by exists it).
    destruct (decide (it.1 ∈ filter (λ k, dict_mem R k = false) (dict_keys L)))
      as [[Hmem _]%list_elem_of_filter|Hns].
    - apply dict_mem_keys in Hk. congruence.
    - destruct Hch1 as (_ & _ & Hsame & _). rewrite (Hsame _ Hns), He0.
      by apply Hnames. }
  { intros it Hin. apply Hnames, list_elem_of_fmap. by exists it. }
  exists fs', (EGet (ListMod s) :: ev1 ++ ev2).
  unfold check_mods. rewrite (bind_Return _ _ _ _ _ _ Hmk).
  rewrite (bind_Return _ _ _ _ _ _
             (get_remote_mods_dict_ok _ _ _ _ _ H Hs Hj)).
  rewrite (bind_Return _ _ _ _ _ _ Hloc), (bind_Return _ _ _ _ _ _ Hl1).
  erewrite (bind_Return (items _)); [|reflexivity].
  fold R. by rewrite Hl2.
Qed.

(** X4.  A manifest that is the empty object empties the directory.  When
    the server answers the manifest request with status 200 and [{}], the
    pass removes every regular file of the [mods] directory and requests
    no download. *)
Theorem check_mods_empty_manifest s fs response :
  distinct_names s fs →
  all_readable s fs →
  net (ListMod s) = Reply response →
  status_code response = 200 →
  json_pairs response = Some [] →
  ∃ fs' ev,
    check_mods sha256 net s fs = (Return tt, fs', ev) ∧
    requests ev = [ListMod s] ∧
    (∀ k, k ∈ removed_mods ev ↔ ∃ r d, entry_at fs s k = Some (RegFile r d)) ∧
    (∀ k r d, entry_at fs' s k ≠ Some (RegFile r d)).
Proof.
  intros Hnd Hrd H Hs Hj.
  destruct (check_mods_returns s fs response [] Hnd Hrd H Hs Hj)
    as (fs' & ev & Hcm).
  { by intros k ?%elem_of_nil. }
  exists fs', ev. split; [done|].
  destruct (check_mods_completed s fs fs' ev Hnd Hcm)
    as (fs0 & R & L & fs1 & ev2 & Hmk & Hrem & HR & He0 & _ & _ & Hget & Hl2
        & Hch1 & Hgone & _ & Hrm & _ & Hrq).
  destruct (makedirs_mods_spec s fs) as (fs0' & Hmk' & Hm0 & _).
  rewrite Hmk in Hmk'. injection Hmk' as <-.
  rewrite (get_remote_mods_dict_ok _ _ _ _ _ H Hs Hj) in Hrem.
  injection Hrem as <-. change (dict_of_pairs []) with (@nil (string * string)) in *.
  injection Hl2 as <- <-.
  assert (∀ k, k ∈ removed_mods ev ↔
               ∃ r d, entry_at fs s k = Some (RegFile r d)) as Hall.
  { intros k. rewrite Hrm, list_elem_of_filter, <- dict_mem_keys.
    unfold dict_mem. rewrite Hget. unfold digest_at. rewrite He0.
    destruct (entry_at fs s k) as [[r d|]|]; split;
      try done; try (by intros (? & ? & ?)); try (by intros [_ ?]); eauto. }
  split_and!; [done..|].
  intros k r d He.
  destruct (decide (k ∈ removed_mods ev)) as [Hin|Hin].
  - rewrite Hrm in Hin. by rewrite (Hgone k Hin) in He.
  - destruct Hch1 as (_ & _ & Hsame & _). rewrite Hsame, He0 in He.
    + apply Hin, Hall. eauto.
    + by rewrite Hrm in Hin.
Qed.

End Completed.

(** ** A second pass *)

Section SecondPass.

Variable sha256 : bytes → string.
Variable net : request → reply.

Lemma remove_loop_noop s R ks fs :
  (∀ k, k ∈ ks → dict_mem R k = true) →
  for_each ks (remove_stale s (Some R)) fs = (Return tt, fs, []).
Proof.
  induction ks as [|k ks IH]; intros Hall; [done|]. cbn [for_each].
  rewrite (bind_Return _ _ _ _ _ _
             (remove_stale_present s R k fs (Hall k (list_elem_of_here _ _)))).
  rewrite IH; [done|]. intros k' Hin. apply Hall. by right.
Qed.

Lemma fetch_loop_noop s L its fs :
  (∀ it, it ∈ its → differs (dict_get L it.1) it.2 = false) →
  for_each its (fetch_changed net s L) fs = (Return tt, fs, []).
Proof.
  induction its as [|it its IH]; intros Hall; [done|]. cbn [for_each].
  rewrite (bind_Return _ _ _ _ _ _
             (fetch_changed_same net s L it fs
                (Hall it (list_elem_of_here _ _)))).
  rewrite IH; [done|]. intros it' Hin. apply Hall. by right.
Qed.

(** A download to a name that a sub-directory bears cannot open its
    destination. *)
Lemma download_mod_directory k s fs response o fs' ev :
  net (DownloadMod s k) = Reply response →
  status_code response = 200 →
  entry_at fs s k = Some SubDir →
  download_mod net k s fs = (o, fs', ev) →
  o = Raise IsADirectoryError.
Proof.
  intros H Hs Hk. unfold download_mod, try_except.
  rewrite (bind_Return _ _ _ _ _ _ (requests_get_Reply _ _ _ _ H)).
  rewrite Hs. change (200 =? 200) with true. cbv iota.
  assert (open_wb (ModPath s k) fs = (Raise IsADirectoryError, fs, [])) as Ho.
  { unfold entry_at, mods_of in Hk. unfold open_wb.
    destruct (fs !! s) as [b|]; [|done]. destruct (mods b) as [l|]; [|done].
    by rewrite Hk. }
  rewrite (bind_Raise _ _ _ _ _ _ Ho). simpl. by intros [= <- _ _].
Qed.

(** After the second loop, a mod that the server delivered has the digest
    of the manifest. *)
Lemma fetch_loop_delivered s L its : ∀ fs fs' ev,
  is_Some (mods_of fs s) →
  NoDup its.*1 →
  for_each its (fetch_changed net s L) fs = (Return tt, fs', ev) →
  ∀ k h, (k, h) ∈ its →
    differs (dict_get L k) h = true →
    delivers sha256 net s k h →
    digest_at sha256 fs' s k = Some h.
Proof.
  induction its as [|it0 its IH]; intros fs fs' ev Hm Hnd Hloop k h Hin Hd Hdel.
  - by apply elem_of_nil in Hin.
  - csimpl in Hnd. apply NoDup_cons in Hnd as [Hit0 Hnd].
    cbn [for_each] in Hloop.
    apply bind_inv_Return in Hloop as ([] & fs1 & ev1 & ev2 & Hb & Hrest & ->).
    assert (is_Some (mods_of fs1 s)) as Hm1.
    { eapply (preserves_fetch_changed net s _ (has_mods_closed s)); done. }
    apply elem_of_cons in Hin as [<-|Hin]; [|by eapply IH].
    destruct (fetch_changed_differs net s L (k, h) fs Hd) as (ev0 & _ & Hfc).
    rewrite Hb in Hfc. simpl in Hfc.
    destruct (download_mod net k s fs) as [[o1 fs1'] ev1'] eqn:Hdl.
    injection Hfc as <- <- ->.
    destruct Hdel as (r & (H & Hs & Ht) & Hbr & Hh).
    assert (entry_at fs s k ≠ Some SubDir) as Hk.
    { intros Hk. by apply (download_mod_directory _ _ _ _ _ _ _ H Hs Hk) in Hdl. }
    destruct (download_mod_streamed net k s fs r H Hs Ht Hm Hk)
      as (fs2 & ev3 & rd & Hdl' & He & _).
    rewrite Hdl in Hdl'. injection Hdl' as <- _.
    apply fetch_loop_Return in Hrest as (_ & _ & _ & (_ & _ & Hsame & _));
      [|done].
    unfold digest_at. rewrite Hsame, He; [by rewrite Hh|].
    intros ([k' h'] & Hk' & [_ Hin']%list_elem_of_filter)%list_elem_of_fmap.
    simpl in Hk'. subst k'. apply Hit0. apply list_elem_of_fmap.
    by exists (k, h').
Qed.

(** X5.  Idempotence.  For a build name and manifest names that are
    single path components: after a pass that ran to its end and in which
    the server delivered, with the digest of the manifest, every mod that
    had to be downloaded, a second pass over the same manifest requests
    the manifest and does nothing else: no removal, no download, and the
    file system stays as it is. *)
Theorem check_mods_idempotent s fs fs' ev response ps :
  plain_name s = true →
  plain_manifest net s →
  distinct_names s fs →
  net (ListMod s) = Reply response →
  json_pairs response = Some ps →
  (∀ k h, dict_get (dict_of_pairs ps) k = Some h →
          digest_at sha256 fs s k ≠ Some h →
          delivers sha256 net s k h) →
  check_mods sha256 net s fs = (Return tt, fs', ev) →
  check_mods sha256 net s fs' = (Return tt, fs', [EGet (ListMod s)]).
Proof.
  intros _ _ Hnd H Hj Hdel Hcm.
  destruct (check_mods_completed sha256 net s fs fs' ev Hnd Hcm)
    as (fs0 & R & L & fs1 & ev2 & Hmk & Hrem & HR & He0 & Hnd0 & Hrd0 & Hget
        & Hl2 & Hch1 & Hgone & Hch2 & _).
  apply get_remote_mods_dict_inv in Hrem as Hrem'.
  destruct Hrem' as (_ & _ & Hrem' & _).
  destruct (Hrem' R eq_refl) as (_ & response' & ps' & H' & Hs & Hj' & ->).
  rewrite H in H'. injection H' as <-. rewrite Hj in Hj'. injection Hj' as <-.
  set (R := dict_of_pairs ps) in *.
  (* the file system after the pass *)
  assert (is_Some (mods_of fs' s)) as Hm' by apply Hch2.
  assert (distinct_names s fs' ∧ all_readable s fs') as [Hnd' Hrd'].
  { apply check_mods_Return in Hcm
      as (fs0' & R' & L' & fs1' & ev1' & ev2' & Hmk' & _ & _ & _ & Hl1' & Hl2'
          & _).
    rewrite Hmk in Hmk'. injection Hmk' as <-. split.
    - eapply (preserves_for_each _ _ _
                (λ it, preserves_fetch_changed net s _ (distinct_names_closed s)
                         _ it)); [|exact Hl2'].
      eapply (preserves_for_each _ _ _
                (λ k, preserves_remove_stale s _ (distinct_names_closed s)
                        _ k)); [|exact Hl1']. done.
    - eapply (preserves_for_each _ _ _
                (λ it, preserves_fetch_changed net s _ (all_readable_closed s)
                         _ it)); [|exact Hl2'].
      eapply (preserves_for_each _ _ _
                (λ k, preserves_remove_stale s _ (all_readable_closed s)
                        _ k)); [|exact Hl1']. done. }
  (* every name of the manifest now has the digest of the manifest *)
  assert (∀ k h, (k, h) ∈ R → digest_at sha256 fs' s k = Some h) as Hgood.
  { intros k h Hin.
    destruct (differs (dict_get L k) h) eqn:Hd.
    - eapply (fetch_loop_delivered s L R fs1 fs' ev2); [apply Hch1|done..|].
      apply Hdel; [by apply dict_get_NoDup|].
      apply differs_spec in Hd. unfold digest_at. rewrite <- He0.
      by rewrite Hget in Hd.
    - assert (dict_get L k = Some h) as HL.
      { destruct (dict_get L k) as [h'|] eqn:E; [|done]. simpl in Hd.
        apply negb_false_iff in Hd. by apply String.eqb_eq in Hd as ->. }
      destruct Hch1 as (_ & _ & Hsame1 & _).
      destruct Hch2 as (_ & _ & Hsame2 & _).
      unfold digest_at. rewrite Hsame2, Hsame1.
      + rewrite Hget in HL. exact HL.
      + intros [Hmem _]%list_elem_of_filter.
        assert (dict_mem R k = true); [|congruence].
        apply dict_mem_keys, list_elem_of_fmap. by exists (k, h).
      + intros ([k' h'] & Hk' & [Hd' Hin']%list_elem_of_filter)
          %list_elem_of_fmap.
        simpl in *. subst k'.
        assert (h' = h) as ->.
        { apply (dict_get_NoDup _ _ _ HR) in Hin'.
          apply (dict_get_NoDup _ _ _ HR) in Hin. congruence. }
        congruence. }
  (* and no other regular file is left *)
  assert (∀ k r d, entry_at fs' s k = Some (RegFile r d) → dict_mem R k = true)
    as Honly.
  { intros k r d He. destruct (dict_mem R k) eqn:Hmem; [done|]. exfalso.
    destruct Hch2 as (_ & _ & Hsame2 & _). rewrite Hsame2 in He; cycle 1.
    { intros ([k' h] & -> & [_ Hin]%list_elem_of_filter)%list_elem_of_fmap.
      assert (dict_mem R k' = true); [|simpl in *; congruence].
      apply dict_mem_keys, list_elem_of_fmap. by exists (k', h). }
    destruct (decide (k ∈ dict_keys L)) as [HL|HL].
    - rewrite Hgone in He; [done|]. by apply list_elem_of_filter.
    - destruct Hch1 as (_ & _ & Hsame1 & _). rewrite Hsame1 in He; cycle 1.
      { by intros [_ ?]%list_elem_of_filter. }
      apply dict_get_None in HL. rewrite Hget in HL. unfold digest_at in HL.
      by rewrite He in HL. }
  (* the second pass *)
  destruct (get_local_mods_dict_total sha256 s fs' Hm' Hnd' Hrd') as (L' & Hloc').
  apply get_local_mods_dict_Return in Hloc' as Hget'; [|done].
  destruct Hget' as (Hget' & _ & _).
  destruct (makedirs_mods_spec s fs') as (fs0' & Hmk' & _ & Hsame & _).
  rewrite (Hsame Hm') in Hmk'.
  unfold check_mods. rewrite (bind_Return _ _ _ _ _ _ Hmk').
  rewrite (bind_Return _ _ _ _ _ _
             (get_remote_mods_dict_ok _ _ _ _ _ H Hs Hj)).
  rewrite (bind_Return _ _ _ _ _ _ Hloc').
  assert (∀ k, k ∈ dict_keys L' → dict_mem R k = true) as Hkeys.
  { intros k Hin. apply dict_mem_keys in Hin. unfold dict_mem in Hin.
    rewrite Hget' in Hin. unfold digest_at in Hin.
    destruct (entry_at fs' s k) as [[r d|]|] eqn:He; [|done..].
    by eapply Honly. }
  rewrite (bind_Return _ _ _ _ _ _
             (remove_loop_noop s R (dict_keys L') fs' Hkeys)).
  erewrite (bind_Return (items _)); [|reflexivity]. fold R.
  rewrite fetch_loop_noop; [done|].
  intros [k h] Hin. simpl. rewrite Hget', (Hgood k h Hin). simpl.
  by rewrite String.eqb_refl.
Qed.

End SecondPass.

(** ** One build at a time *)

Section Isolation.

Variable sha256 : bytes → string.
Variable extractall : bytes → build → bool * build.
Variable net : request → reply.
Variable s : string.
Variable fs0 : fsys.










End Isolation.


(** ** Progress reports *)


Lemma fabric_progress_app ev1 ev2 :
  fabric_progress (ev1 ++ ev2) = fabric_progress ev1 ++ fabric_progress ev2.
Proof. apply omap_app. Qed.


Lemma fabric_progress_statuses (ps : list Z) :
  fabric_progress ((λ p, EStatus (MsgFabricProgress p)) <$> ps) = ps.
Proof. induction ps as [|p ps IH]; csimpl; [done | by rewrite IH]. Qed.



Lemma percents_bounds total_size cs : ∀ downloaded,
  0 < total_size → 0 ≤ downloaded →
  downloaded + Z.of_nat (length (concat cs)) ≤ total_size →
  Forall (λ p, 0 ≤ p ≤ 100) (percents total_size cs downloaded).
Proof.
  induction cs as [|c cs IH]; intros n Ht Hn Hsum; simpl; [constructor|].
  simpl in Hsum. rewrite length_app, Nat2Z.inj_add in Hsum.
  constructor; [|apply IH; lia].
  rewrite Z.quot_div_nonneg by lia. split.
  - apply Z.div_pos; lia.
  - apply Z.div_le_upper_bound; lia.
Qed.

Lemma advancing_sorted ps : ∀ last_percent,
  StronglySorted Z.lt (advancing last_percent ps) ∧
  Forall (λ p, last_percent < p) (advancing last_percent ps).
Proof.
  induction ps as [|p ps IH]; intros lp; simpl.
  - split; constructor.
  - destruct (Z.gtb_spec p lp) as [Hgt|Hle]; [|apply IH].
    destruct (IH p) as [Hs Hf]. split.
    + by constructor.
    + constructor; [lia|]. eapply Forall_impl; [exact Hf|]. simpl. lia.
Qed.

Lemma advancing_sublist ps : ∀ last_percent (P : Z → Prop),
  Forall P ps → Forall P (advancing last_percent ps).
Proof.
  induction ps as [|p ps IH]; intros lp P Hall; simpl; [done|].
  apply Forall_cons in Hall as [Hp Hall].
  destruct (p >? lp); [constructor|]; auto.
Qed.

(** A strictly increasing list of integers between [lo] and [hi] has at
    most [hi - lo] elements. *)
Lemma increasing_length (l : list Z) : ∀ lo hi,
  StronglySorted Z.lt l → Forall (λ p, lo < p ≤ hi) l →
  Z.of_nat (length l) ≤ Z.max 0 (hi - lo).
Proof.
  induction l as [|p l IH]; intros lo hi Hs Hb; simpl; [lia|].
  apply StronglySorted_inv in Hs as [Hs Hp].
  apply Forall_cons in Hb as [Hpb Hb].
  assert (Forall (λ q, p < q ≤ hi) l) as Hb'.
  { apply Forall_forall. intros q Hq. split.
    - by eapply Forall_forall in Hp.
    - eapply Forall_forall in Hb; [|done]. lia. }
  specialize (IH p hi Hs Hb'). lia.
Qed.

Section Traces.

Variable extractall : bytes → build → bool * build.
Variable net : request → reply.




End Traces.

Section FabricTrace.

Variable sha256 : bytes → string.
Variable extractall : bytes → build → bool * build.
Variable net : request → reply.

(** The loop of [download_fabric_base], with the messages it shows. *)
Lemma write_fabric_chunks_trace s total_size cs :
  total_size ≠ 0 →
  ∀ downloaded last_percent fs b d,
    fs !! s = Some b → archive b = Some d →
    write_fabric_chunks s total_size cs downloaded last_percent fs =
      (Return tt, <[s := set_archive (Some (d ++ concat cs)) b]> fs,
       (λ p, EStatus (MsgFabricProgress p)) <$>
         advancing last_percent (percents total_size cs downloaded)).
Proof.
  intros Ht. induction cs as [|c cs IH]; intros n lp fs b d Hb Ha.
  - simpl. by rewrite app_nil_r, <- Ha, set_archive_id, insert_id.
  - cbn [write_fabric_chunks percents advancing].
    rewrite (bind_Return _ _ _ _ _ _ (file_write_archive _ _ _ _ c Hb Ha)).
    rewrite (bind_Return _ _ _ _ _ _ (percent_of_nonzero _ _ _ Ht)).
    set (fs1 := <[s := set_archive (Some (d ++ c)) b]> fs).
    assert (fs1 !! s = Some (set_archive (Some (d ++ c)) b)) as Hb1
      by apply lookup_insert_eq.
    destruct (_ >? lp).
    + rewrite bind_unfold. cbn [set_status_message emit].
      rewrite (IH _ _ fs1 _ (d ++ c) Hb1 eq_refl). unfold fs1.
      rewrite insert_insert_eq, set_archive_set_archive.
      by rewrite <- (assoc_L (++)).
    + rewrite (IH _ _ fs1 _ (d ++ c) Hb1 eq_refl). unfold fs1.
      rewrite insert_insert_eq, set_archive_set_archive.
      by rewrite <- (assoc_L (++)).
Qed.

Lemma extract_step_trace s fs b data :
  fs !! s = Some b → archive b = Some data →
  try_except
    (set_status_message MsgExtracting;; zip_extractall extractall s)
    catch_Exception
    (λ e, logging_error (MsgExtractError e)) fs
  = (Return tt, <[s := (extractall data b).2]> fs,
     EStatus MsgExtracting ::
     if (extractall data b).1 then []
     else [ELog ERROR (MsgExtractError BadZipFile)]).
Proof.
  intros Hb Ha. unfold try_except. rewrite bind_unfold.
  cbn [set_status_message emit]. unfold zip_extractall. rewrite Hb, Ha.
  by destruct (extractall data b) as [[] b'].
Qed.

Lemma remove_step_trace s fs b :
  fs !! s = Some b →
  try_except
    (os_remove (ArchivePath s))
    catch_Exception
    (λ e, logging_error (MsgArchiveRemoveError e)) fs
  = (Return tt, <[s := set_archive None b]> fs,
     match archive b with
     | Some _ => [ERemove (ArchivePath s)]
     | None => [ELog ERROR (MsgArchiveRemoveError FileNotFoundError)]
     end).
Proof.
  intros Hb. unfold try_except, os_remove. rewrite Hb.
  destruct (archive b) eqn:Ha; simpl; [done|].
  by rewrite <- Ha, set_archive_id, insert_id.
Qed.

(** The whole trace of a bootstrap whose archive is streamed. *)
Lemma download_fabric_base_trace s fs response :
  streams (net (DownloadFabric s)) response →
  let data := concat (chunks response) in
  let b1 :=
    set_archive (Some data) (default (Build [] None None) (fs !! s)) in
  let progress :=
    (λ p, EStatus (MsgFabricProgress p)) <$>
      advancing 0 (percents (total_size_of response) (chunks response) 0) in
  download_fabric_base extractall net s fs =
    if broken response then
      (Raise RequestException, <[s := b1]> fs,
       [EGet (DownloadFabric s); EOpenW (ArchivePath s)] ++ progress)
    else
      (Return tt, <[s := set_archive None (extractall data b1).2]> fs,
       [EGet (DownloadFabric s); EOpenW (ArchivePath s)] ++ progress ++
       [EStatus MsgFabricDownloaded; EStatus MsgExtracting] ++
       (if (extractall data b1).1 then []
        else [ELog ERROR (MsgExtractError BadZipFile)]) ++
       match archive (extractall data b1).2 with
       | Some _ => [ERemove (ArchivePath s)]
       | None => [ELog ERROR (MsgArchiveRemoveError FileNotFoundError)]
       end ++
       [EStatus MsgDone]).
Proof.
  intros (H & Hs & Ht) data b1 progress.
  set (b0 := default (Build [] None None) (fs !! s)) in *.
  assert (
    write_fabric_chunks s (total_size_of response) (chunks response) 0 0
      (<[s := set_archive (Some []) b0]> fs)
      = (Return tt, <[s := b1]> fs, progress)) as Hw.
  { destruct Ht as [Ht | Hc].
    - rewrite (write_fabric_chunks_trace s _ (chunks response) Ht 0 0
                 (<[s := set_archive (Some []) b0]> fs)
                 (set_archive (Some []) b0) []);
        [|apply lookup_insert_eq | done].
      by rewrite insert_insert_eq.
    - unfold progress, b1, data. rewrite Hc. done. }
  pose proof (extract_step_trace s (<[s := b1]> fs) b1 data
                (lookup_insert_eq _ _ _) eq_refl) as Hex.
  rewrite insert_insert_eq in Hex.
  pose proof (remove_step_trace s (<[s := (extractall data b1).2]> fs)
                (extractall data b1).2 (lookup_insert_eq _ _ _)) as Hrm.
  rewrite insert_insert_eq in Hrm.
  unfold download_fabric_base.
  rewrite (bind_Return _ _ _ _ _ _ (makedirs_build_spec s fs)). fold b0.
  rewrite (bind_Return _ _ _ _ _ _ (requests_get_Reply _ _ _ _ H)).
  rewrite Hs. change (200 =? 200) with true. cbv iota.
  rewrite (bind_Return _ _ _ _ _ _
             (open_wb_archive s _ b0 (lookup_insert_eq _ _ _))).
  rewrite insert_insert_eq, (bind_Return _ _ _ _ _ _ Hw).
  unfold end_of_stream. destruct (broken response).
  - erewrite (bind_Raise (raise _)); [|reflexivity]. simpl.
    by rewrite app_nil_r.
  - erewrite (bind_Return (mret tt)); [|reflexivity].
    erewrite (bind_Return (set_status_message _)); [|reflexivity].
    rewrite (bind_Return _ _ _ _ _ _ Hex), (bind_Return _ _ _ _ _ _ Hrm).
    cbn [set_status_message emit]. simpl. reflexivity.
Qed.

(** X8.  The bootstrap reports each percentage once.  While the archive is
    streamed, [download_fabric_base] shows a percentage only when it
    exceeds the last one shown: the percentages shown are positive and
    strictly increasing, so for a body that is not longer than its
    [Content-Length] they are at most 100 messages, however small the
    chunks. *)
Theorem download_fabric_base_progress s fs response o fs' ev :
  streams (net (DownloadFabric s)) response →
  download_fabric_base extractall net s fs = (o, fs', ev) →
  StronglySorted Z.lt (fabric_progress ev) ∧
  Forall (λ p, 0 < p) (fabric_progress ev) ∧
  (Z.of_nat (length (concat (chunks response))) ≤ total_size_of response →
   Forall (λ p, p ≤ 100) (fabric_progress ev) ∧
   (length (fabric_progress ev) ≤ 100)%nat).
Proof.
  intros Hst Hd. rewrite (download_fabric_base_trace s fs response Hst) in Hd.
  set (ps := percents (total_size_of response) (chunks response) 0) in *.
  assert (fabric_progress ev = advancing 0 ps) as ->.
  { assert (∀ l, fabric_progress
                (EGet (DownloadFabric s) :: EOpenW (ArchivePath s) :: l)
              = fabric_progress l) as Hhead by done.
    destruct (broken response); injection Hd as <- <- <-; rewrite Hhead.
    - apply fabric_progress_statuses.
    - rewrite fabric_progress_app, fabric_progress_statuses.
      destruct (extractall _ _).1, (archive _); simpl; apply app_nil_r. }
  destruct (advancing_sorted ps 0) as [Hs Hpos].
  split; [done|]. split; [done|]. intros Hlen.
  assert (Forall (λ p, p ≤ 100) (advancing 0 ps)) as Hle.
  { apply advancing_sublist. destruct Hst as (_ & _ & [Ht | Hc]).
    - destruct (decide (0 < total_size_of response)) as [Hp|Hn].
      + eapply Forall_impl; [apply percents_bounds; lia|]. simpl. lia.
      + assert (chunks response = []) as Hc; [|unfold ps; by rewrite Hc].
        destruct (chunks response) as [|c cs] eqn:Hc; [done|].
        assert (concat (c :: cs) = []) as Hnil.
        { apply length_zero_iff_nil. lia. }
        exfalso. lia.
    - unfold ps. rewrite Hc. constructor. }
  split; [done|].
  pose proof (increasing_length (advancing 0 ps) 0 100 Hs) as Hcount.
  assert (Forall (λ p, 0 < p ≤ 100) (advancing 0 ps)) as Hb.
  { apply Forall_forall. intros p Hp. split.
    - by eapply Forall_forall in Hpos.
    - by eapply Forall_forall in Hle. }
  specialize (Hcount Hb). lia.
Qed.

End FabricTrace.

(** ** More on the mod pass *)


Lemma hash_files_keys_NoDup sha256 l : ∀ files fs L fs' ev,
  NoDup (dict_keys files) →
  hash_files sha256 l files fs = (Return L, fs', ev) →
  NoDup (dict_keys L).
Proof.
  induction l as [|[n f] l IH]; intros files fs L fs' ev Hnd; simpl.
  - by intros [= <- _ _].
  - destruct f as [[] d|]; simpl.
    + rewrite bind_unfold. simpl.
      destruct (hash_files sha256 l _ fs) as [[o1 fs1] ev1] eqn:Hh.
      intros [= -> _ _]. eapply IH; [|exact Hh]. by apply dict_set_NoDup.
    + rewrite bind_unfold. simpl. done.
    + by apply IH.
Qed.

Section Pass.

Variable sha256 : bytes → string.
Variable net : request → reply.

(** X9.  A body that is not JSON.  When the manifest request is answered
    with status 200 and a body that [response.json()] cannot parse, the
    pass ends with that error right after the request: nothing is
    removed, nothing is downloaded, and the [mods] directory keeps its
    entries. *)
Theorem check_mods_unparsable_manifest s fs response :
  net (ListMod s) = Reply response →
  status_code response = 200 →
  json_pairs response = None →
  ∃ fs',
    check_mods sha256 net s fs =
      (Raise JSONDecodeError, fs', [EGet (ListMod s)]) ∧
    (∀ k, entry_at fs' s k = entry_at fs s k) ∧
    (∀ s', s' ≠ s → fs' !! s' = fs !! s').
Proof.
  intros H Hs Hj.
  destruct (makedirs_mods_spec s fs) as (fs0 & Hmk & _ & _ & Hother).
  exists fs0. split_and!; [|intros k; by eapply entry_at_makedirs_mods|done].
  unfold check_mods. rewrite (bind_Return _ _ _ _ _ _ Hmk).
  assert (get_remote_mods_dict net s fs0 =
            (Raise JSONDecodeError, fs0, [EGet (ListMod s)])) as Hr.
  { unfold get_remote_mods_dict.
    rewrite (bind_Return _ _ _ _ _ _ (requests_get_Reply _ _ _ _ H)).
    rewrite Hs, Hj. reflexivity. }
  by rewrite (bind_Raise _ _ _ _ _ _ Hr).
Qed.


(** X11.  A completed pass acts once on each name, removals first.  The
    events of a pass that ran to its end are the manifest request, then
    those of the removals, then those of the downloads; no file is
    removed twice and no mod is requested twice, also when the JSON of the
    manifest repeats a key. *)
Theorem check_mods_acts_once s fs fs' ev :
  check_mods sha256 net s fs = (Return tt, fs', ev) →
  NoDup (removed_mods ev) ∧
  NoDup (requested_mods ev) ∧
  ∃ ev1 ev2,
    ev = EGet (ListMod s) :: ev1 ++ ev2 ∧
    requests ev1 = [] ∧ opened ev1 = [] ∧ removed ev2 = [].
Proof.
  intros Hcm.
  destruct (check_mods_Return sha256 net s fs fs' ev Hcm)
    as (fs0 & R & L & fs1 & ev1 & ev2 & Hmk & Hrem & HR & Hloc & Hl1 & Hl2
        & ->).
  destruct (makedirs_mods_spec s fs) as (fs0' & Hmk' & Hm0 & _).
  rewrite Hmk in Hmk'. injection Hmk' as <-.
  assert (is_Some (mods_of fs0 s)) as Hsome by (by rewrite Hm0).
  destruct (remove_loop_Return s R _ _ _ _ Hsome Hl1)
    as (Hrm1 & Hop1 & Hrq1 & Hch1).
  assert (is_Some (mods_of fs1 s)) as Hsome1 by apply Hch1.
  destruct (fetch_loop_Return net s L R _ _ _ Hsome1 Hl2)
    as (Hrm2 & Hrq2 & _ & _).
  assert (NoDup (dict_keys L)) as HL.
  { destruct Hsome as [l Hl].
    rewrite (get_local_mods_dict_eq sha256 s fs0 l Hl) in Hloc.
    eapply hash_files_keys_NoDup; [|exact Hloc]. constructor. }
  split_and!.
  - unfold removed_mods. project_events.
    rewrite Hrm1, Hrm2, app_nil_r, mod_names_of_paths.
    by apply NoDup_filter.
  - unfold requested_mods. project_events.
    rewrite Hrq1, Hrq2. simpl. rewrite mod_names_of_requests.
    apply NoDup_fmap_fst.
    + intros k h1 h2 [_ H1]%list_elem_of_filter [_ H2]%list_elem_of_filter.
      apply (dict_get_NoDup R k h1 HR) in H1.
      apply (dict_get_NoDup R k h2 HR) in H2. congruence.
    + apply NoDup_filter. eapply NoDup_fmap_1. exact HR.
  - by exists ev1, ev2.
Qed.

End Pass.

(** ** The MAC address *)

Lemma first_link_filter AF_LINK addrs :
  first_link AF_LINK addrs =
  address <$> head (filter (λ a, family a = AF_LINK) addrs).
Proof.
  induction addrs as [|a addrs IH]; simpl; [done|].
  rewrite filter_cons. destruct (Z.eqb_spec (family a) AF_LINK) as [He|He].
  - by rewrite decide_True.
  - by rewrite decide_False.
Qed.

Lemma first_mac_filter AF_LINK interfaces :
  first_mac AF_LINK interfaces =
  address <$> head (filter (λ a, family a = AF_LINK) (concat interfaces.*2)).
Proof.
  induction interfaces as [|[i addrs] interfaces IH]; simpl; [done|].
  rewrite filter_app, first_link_filter, IH.
  by destruct (filter _ addrs).
Qed.

(** X13.  The address chosen.  [get_first_mac_address] never raises.  Its
    result is the address of the first link-layer entry among the
    addresses of all interfaces, taken interface by interface in the order
    of [psutil.net_if_addrs()]; it is [None] exactly when no interface has
    such an entry or when [psutil] raised, and only then is anything
    logged. *)
Theorem get_first_mac_address_first AF_LINK net_if_addrs :
  let link a := family a = AF_LINK in
  match net_if_addrs with
  | Return interfaces =>
      get_first_mac_address AF_LINK net_if_addrs =
        (address <$> head (filter link (concat interfaces.*2)), []) ∧
      ((get_first_mac_address AF_LINK net_if_addrs).1 = None ↔
       Forall (λ a, ¬ link a) (concat interfaces.*2))
  | Raise e => get_first_mac_address AF_LINK net_if_addrs = (None, [e])
  end.
Proof.
  intros link. destruct net_if_addrs as [interfaces|e]; [|done].
  simpl. rewrite first_mac_filter. split; [done|].
  fold link. split.
  - intros Hnone. apply Forall_forall. intros a Hin Hl.
    assert (a ∈ filter link (concat interfaces.*2)) as Hf
      by (by apply list_elem_of_filter).
    destruct (filter link (concat interfaces.*2)); [|done].
    by apply elem_of_nil in Hf.
  - intros Hall. destruct (filter link (concat interfaces.*2)) as [|a l] eqn:Hf;
      [done|].
    assert (a ∈ filter link (concat interfaces.*2)) as Hin
      by (rewrite Hf; left).
    apply list_elem_of_filter in Hin as [Hl Hin].
    rewrite Forall_forall in Hall. by destruct (Hall a Hin).
Qed.

(** ** Splitting on white space *)

Lemma split_from_words s : ∀ word,
  Forall (λ c, isspace c = false) word →
  Forall (λ w, w ≠ [] ∧ Forall (λ c, isspace c = false) w)
    (split_from s word).
Proof.
  induction s as [|c s IH]; intros word Hw; simpl.
  - destruct word; [constructor|]. constructor; [done | constructor].
  - destruct (isspace c) eqn:Hc.
    + destruct word as [|c' word]; [by apply IH|].
      constructor; [done|]. by apply IH.
    + apply IH. apply Forall_app. split; [done|]. by repeat constructor.
Qed.

Lemma split_from_concat s : ∀ word,
  concat (split_from s word) = word ++ filter (λ c, isspace c = false) s.
Proof.
  induction s as [|c s IH]; intros word; simpl.
  - destruct word; simpl; by rewrite ?app_nil_r.
  - rewrite filter_cons. destruct (isspace c) eqn:Hc.
    + rewrite decide_False by done.
      destruct word as [|c' word]; simpl; by rewrite IH.
    + rewrite decide_True by done. rewrite IH. by rewrite <- (assoc_L (++)).
Qed.

Lemma split_from_lstrip s : split_from (lstrip s) [] = split_from s [].
Proof.
  induction s as [|c s IH]; simpl; [done|].
  destruct (isspace c) eqn:Hc; [done|]. simpl. by rewrite Hc.
Qed.

Lemma split_from_trailing s spaces : ∀ word,
  Forall (λ c, isspace c = true) spaces →
  split_from (s ++ spaces) word = split_from s word.
Proof.
  intros word Hsp. revert word.
  induction s as [|c s IH]; intros word; simpl.
  - revert word. induction Hsp as [|c spaces Hc _ IH]; intros word; [done|].
    simpl. rewrite Hc. destruct word; [apply IH|]. by rewrite IH.
  - destruct (isspace c); [|apply IH]. destruct word; by rewrite IH.
Qed.

Lemma lstrip_suffix s :
  ∃ spaces, s = spaces ++ lstrip s ∧ Forall (λ c, isspace c = true) spaces.
Proof.
  induction s as [|c s (spaces & IH & Hsp)]; simpl.
  - by exists [].
  - destruct (isspace c) eqn:Hc.
    + exists (c :: spaces). split; [by rewrite IH at 1|]. by constructor.
    + by exists [].
Qed.

Lemma split_strip s : split (strip s) = split s.
Proof.
  unfold split, strip. rewrite <- (split_from_lstrip s).
  destruct (lstrip_suffix (reverse (lstrip s))) as (spaces & Heq & Hsp).
  apply (f_equal reverse) in Heq.
  rewrite reverse_involutive, reverse_app in Heq.
  rewrite Heq at 2. symmetry. apply split_from_trailing.
  by apply Forall_reverse.
Qed.

(** ** Dictionaries of values *)

Lemma py_get_set_eq d k v default : py_get (py_set d k v) k default = v.
Proof.
  induction d as [|[k' v'] d IH]; simpl.
  - by rewrite decide_True.
  - destruct (decide (k' = k)) as [->|Hne]; simpl.
    + by rewrite decide_True.
    + by rewrite decide_False.
Qed.

Lemma py_get_set_ne d k k' v default :
  k ≠ k' → py_get (py_set d k v) k' default = py_get d k' default.
Proof.
  intros Hne. induction d as [|[k0 v0] d IH]; simpl.
  - by rewrite decide_False.
  - destruct (decide (k0 = k)) as [->|Hne0]; simpl.
    + by rewrite !decide_False.
    + destruct (decide (k0 = k')); [done | exact IH].
Qed.

(** ** The options of the game *)

Section Options.

Variable AF_LINK : Z.
Variable uuid5 : pystr → pystr.
Variable py_str : pyval → pystr.

(** The words added to [jvm_arguments]: the guard [if jvm_args] and the
    call of [strip] change nothing. *)
Lemma jvm_arguments_words (first : pystr) jvm_args :
  (if truthy (PStr (strip jvm_args)) then [first] ++ split (strip jvm_args)
   else [first]) = first :: split jvm_args.
Proof.
  rewrite <- (split_strip jvm_args).
  by destruct (strip jvm_args).
Qed.

Lemma truthy_py_or x y : truthy y = true → truthy (py_or x y) = true.
Proof. unfold py_or. by destruct (truthy x) eqn:Hx. Qed.

Lemma truthy_py_and x y :
  truthy (py_and x y) = true ↔ truthy x = true ∧ truthy y = true.
Proof.
  unfold py_and. destruct (truthy x) eqn:Hx.
  - split; [done | by intros [_ ?]].
  - rewrite Hx. split; [done | by intros [? _]].
Qed.

(** X14.  How the preparation of a launch ends.  It raises a [TypeError]
    when [get_first_mac_address] found no address ([uuid.uuid5] is then
    called on [None]), the exception of [load_config] when the
    configuration cannot be loaded, and an [AttributeError] when the
    configuration is not a [dict] or its [jvm_args] is not a [str].  In
    every other case it returns the options, with the UUID computed from
    the MAC address alone. *)
Theorem launch_options_outcome net_if_addrs load_config server_name :
  let mac_address := (get_first_mac_address AF_LINK net_if_addrs).1 in
  match (launch_options AF_LINK uuid5 py_str net_if_addrs load_config
           server_name).1 with
  | Return opts =>
      ∃ a d jvm_args,
        mac_address = Some a ∧ load_config = Return (PDict d) ∧
        py_get d (str_of "jvm_args") (PStr []) = PStr jvm_args ∧
        uuid opts = uuid5 a
  | Raise e =>
      (mac_address = None ∧ e = TypeError) ∨
      (is_Some mac_address ∧ load_config = Raise e) ∨
      (is_Some mac_address ∧ e = AttributeError ∧
       ∃ config,
         load_config = Return config ∧
         ∀ d jvm_args,
           config = PDict d →
           py_get d (str_of "jvm_args") (PStr []) ≠ PStr jvm_args)
  end.
Proof.
  intros mac_address. unfold launch_options. subst mac_address.
  destruct (get_first_mac_address AF_LINK net_if_addrs) as [[a|] logged];
    simpl; [|by left].
  destruct load_config as [config|e]; simpl; [|right; left; eauto].
  destruct config as [| | | | |l|d|];
    try (right; right; split_and!; [by eexists | done |];
         eexists; split; [done|]; by intros d j [=]).
  simpl.
  destruct (py_get d (str_of "jvm_args") (PStr [])) as [| | | |j| | |] eqn:Hj;
    simpl;
    try (right; right; split_and!; [by eexists | done |];
         eexists; split; [done|]; intros d' j' [= <-]; by rewrite Hj).
  by exists a, d, j.
Qed.

(** X15.  The options of a launch.  When the preparation returns, the JVM
    arguments are [-Xmx<ram>M] followed by the words of the configured
    [jvm_args], split at white space: every word is non-empty and free of
    white space, and together they are the characters of [jvm_args] that
    are not white space (quotes do not group words).  The path of Java is
    never an empty value, and a custom resolution is asked exactly when
    both dimensions are non-empty values. *)
Theorem launch_options_arguments net_if_addrs load_config server_name opts
    logged :
  launch_options AF_LINK uuid5 py_str net_if_addrs load_config server_name
    = (Return opts, logged) →
  ∃ d jvm_args,
    load_config = Return (PDict d) ∧
    py_get d (str_of "jvm_args") (PStr []) = PStr jvm_args ∧
    jvmArguments opts =
      (str_of "-Xmx" ++
       format_value py_str (py_get d (str_of "ram") (PStr [])) ++
       str_of "M") :: split jvm_args ∧
    Forall (λ w, w ≠ [] ∧ Forall (λ c, isspace c = false) w)
      (split jvm_args) ∧
    concat (split jvm_args) = filter (λ c, isspace c = false) jvm_args ∧
    truthy (executablePath opts) = true ∧
    (customResolution opts = true ↔
     truthy (resolutionWidth opts) = true ∧
     truthy (resolutionHeight opts) = true).
Proof.
  unfold launch_options.
  destruct (get_first_mac_address AF_LINK net_if_addrs) as [[a|] logged'];
    simpl; [|done].
  destruct load_config as [config|e]; simpl; [|done].
  destruct config as [| | | | |l|d|]; try done. simpl.
  destruct (py_get d (str_of "jvm_args") (PStr [])) as [| | | |j| | |] eqn:Hj;
    try done.
  simpl. intros [= <- _]. exists d, j. simpl.
  split_and!; [done | done | | | | |].
  - apply jvm_arguments_words.
  - by apply split_from_words.
  - apply split_from_concat.
  - by apply truthy_py_or.
  - apply truthy_py_and.
Qed.

End Options.

(** ** The window *)

Lemma ui_config_fetched (get : outcome ui_response) :
  match (response ← get;
         raise_for_status response;; response_json response) with
  | Return v =>
      ∃ r, get = Return r ∧ ¬ (400 ≤ ui_status r < 600) ∧ ui_json r = Some v
  | Raise e =>
      match get with
      | Return r => 400 ≤ ui_status r < 600 ∨ ui_json r = None
      | Raise _ => True
      end
  end.
Proof.
  destruct get as [r|e]; simpl; [|done].
  unfold raise_for_status, response_json.
  destruct (Z.leb_spec 400 (ui_status r)) as [H4|H4];
    [destruct (Z.ltb_spec (ui_status r) 600) as [H6|H6]|]; simpl;
    [left; lia| |];
    (destruct (ui_json r) as [v|] eqn:Hv; simpl;
     [exists r; split_and!; [done | lia | done] | by right]).
Qed.

Lemma window_arguments_of config_ui url :
  match (config_ui ← py_setitem config_ui "url" url;
         config_ui ← py_setitem config_ui "js_api" PApi;
         py_kwargs config_ui) with
  | Return d =>
      ∃ base,
        config_ui = PDict base ∧
        py_get d (str_of "url") PNone = url ∧
        py_get d (str_of "js_api") PNone = PApi ∧
        ∀ k default,
          k ≠ str_of "url" → k ≠ str_of "js_api" →
          py_get d k default = py_get base k default
  | Raise e => e = TypeError ∧ ∀ d, config_ui ≠ PDict d
  end.
Proof.
  destruct config_ui as [| | | | | |base|]; simpl; try done.
  exists base. split_and!; [done | | |].
  - rewrite py_get_set_ne by done. apply py_get_set_eq.
  - apply py_get_set_eq.
  - intros k default Hu Hj. by rewrite !py_get_set_ne.
Qed.

(** X16.  The window.  Before it calls [webview.create_window],
    [create_window] raises only a [TypeError], exactly when the server's
    configuration was fetched and is not a JSON object; the library is
    then not called.  In every other case it calls the library once, and
    what the call does, a window or an exception of the library, is the
    result of [create_window].  The keyword arguments of the call carry
    the launcher's own [url] and [js_api], whatever the server sent under
    these keys, and every other argument as the server sent it; when the
    request fails, is answered with a status from 400 to 599, or has a
    body that is not JSON, they are the built-in defaults instead. *)
Theorem create_window_arguments py_str (window_call : Type)
    (webview_create_window : list (pystr * pyval) → window_call)
    api_url get :
  let url :=
    PStr (format_value py_str api_url ++ str_of "/launcher/ui/index.html") in
  let failed :=
    match get with
    | Return r => 400 ≤ ui_status r < 600 ∨ ui_json r = None
    | Raise _ => True
    end in
  match (create_window py_str window_call webview_create_window api_url
           get).1 with
  | Return call =>
      ∃ d base,
        call = webview_create_window d ∧
        py_get d (str_of "url") PNone = url ∧
        py_get d (str_of "js_api") PNone = PApi ∧
        (∀ k default,
           k ≠ str_of "url" → k ≠ str_of "js_api" →
           py_get d k default = py_get base k default) ∧
        (failed → default_config_ui = PDict base) ∧
        (¬ failed → ∃ r, get = Return r ∧ ui_json r = Some (PDict base))
  | Raise e =>
      e = TypeError ∧ ¬ failed ∧
      ∃ r v, get = Return r ∧ ui_json r = Some v ∧ ∀ d, v ≠ PDict d
  end.
Proof.
  intros url failed. unfold create_window, fetch_config_ui. fold url.
  cbv zeta.
  pose proof (ui_config_fetched get) as Hf.
  destruct (get ≫= _) as [config_ui|e0]; cbv beta iota; cbn [fst].
  - destruct Hf as (r & Hget & Hst & Hjs).
    assert (¬ failed) as Hnot.
    { unfold failed. rewrite Hget. intros [?|?]; [done | congruence]. }
    pose proof (window_arguments_of config_ui url) as Hw.
    destruct config_ui as [| | | | | |base|];
      try (destruct Hw as [_ Hno]; simpl; split_and!; [done..|];
           eexists r, _; split_and!; [done..|]; by intros d).
    destruct Hw as (base' & [= <-] & Hu & Hj & Hk). simpl.
    eexists _, base. split_and!; [done..| |]; [done|].
    intros _. by exists r.
  - pose proof (window_arguments_of default_config_ui url) as Hw.
    destruct Hw as (base & Hb & Hu & Hj & Hk). simpl.
    eexists _, base. split_and!; [done..| |]; [done|].
    intros Hnot. by destruct Hnot.
Qed.


(** ** The reconciliation pass and the files it leaves *)


Section Effects.

Variable sha256 : bytes → string.
Variable net : request → reply.




End Effects.

(** ** The further theorems at work on the example worlds *)

Lemma ex_fs_mods :
  mods_of ex_fs "srv" =
  Some [("a.jar"%string, RegFile true [Byte.x61]);
        ("b.jar"%string, RegFile true [Byte.x62])].
Proof. by vm_compute. Qed.

Lemma ex_fs_distinct_names : distinct_names "srv" ex_fs.
Proof.
  intros l. rewrite ex_fs_mods. intros [= <-].
  apply (bool_decide_unpack _). by vm_compute.
Qed.

Lemma ex_fs_entry_at k :
  entry_at ex_fs "srv" k =
  lookup_entry [("a.jar"%string, RegFile true [Byte.x61]);
                ("b.jar"%string, RegFile true [Byte.x62])] k.
Proof. unfold entry_at. rewrite ex_fs_mods. reflexivity. Qed.

Lemma ex_fs_all_readable : all_readable "srv" ex_fs.
Proof.
  intros k r d. rewrite ex_fs_entry_at. cbn [lookup_entry].
  destruct (String.eqb "a.jar" k); [congruence|].
  destruct (String.eqb "b.jar" k); congruence.
Qed.



Lemma ex_manifest_plain (net : request → reply) :
  net (ListMod "srv") = Reply ex_manifest → plain_manifest net "srv".
Proof.
  intros Hnet response ps H Hj k Hk. rewrite Hnet in H. injection H as <-.
  injection Hj as <-.
  change (dict_keys [("b.jar", "b"); ("c.jar", "c")]%string)
    with ["b.jar"%string; "c.jar"%string] in Hk.
  apply elem_of_cons in Hk as [->|Hk]; [by vm_compute|].
  apply elem_of_cons in Hk as [->|Hk]; [by vm_compute|].
  by apply elem_of_nil in Hk.
Qed.


(** The manifest request is answered with 503: the fetch returns [None]
    without an error, and the pass ends with the [TypeError] of the first
    membership test. *)
Lemma check_mods_fetch_fails_witness :
  get_remote_mods_dict ex_net_503 "srv" ex_fs =
    (Return None, ex_fs, [EGet (ListMod "srv")]) ∧
  check_mods ex_digest ex_net_503 "srv" ex_fs =
    (Raise TypeError, ex_fs, [EGet (ListMod "srv")]).
Proof.
  destruct (check_mods_fetch_fails ex_digest ex_net_503 "srv"%string ex_fs)
    as (fs0 & Hmk & _ & _ & Hbad).
  assert (makedirs_mods "srv" ex_fs = (Return tt, ex_fs, [])) as E
    by (vm_compute; reflexivity).
  rewrite E in Hmk. injection Hmk as <-.
  destruct (Hbad (Response 503 None [] false None)) as [Hr Hc].
  - reflexivity.
  - discriminate.
  - split; [exact Hr|]. rewrite Hc. vm_compute. reflexivity.
Defined.

(** Destroying [srv], and destroying it again. *)
Lemma delete_build_idempotent_witness :
  (∃ fs1 ev1, delete_build "srv" ex_fs = (Return tt, fs1, ev1)) ∧
  delete_build "srv" (delete "srv"%string ex_fs) =
    (Return tt, delete "srv"%string ex_fs,
     [ELog ERROR (MsgBuildDeleteError "srv" FileNotFoundError)]).
Proof.
  destruct (delete_build_idempotent "srv"%string ex_fs) as [H1 H2].
  split; [exact H1|]. apply H2. reflexivity.
Defined.


(** The inventory of [ex_fs]: [a.jar] and [b.jar] with their digests. *)
Lemma get_local_mods_dict_digests_witness :
  ∃ L,
    get_local_mods_dict ex_digest "srv" ex_fs = (Return L, ex_fs, []) ∧
    (∀ k, dict_get L k = digest_at ex_digest ex_fs "srv" k) ∧
    (∀ k, k ∈ keys L ↔ ∃ r d, entry_at ex_fs "srv" k = Some (RegFile r d)).
Proof.
  apply (get_local_mods_dict_digests ex_digest "srv"%string ex_fs).
  - eexists. reflexivity.
  - exact ex_fs_distinct_names.
  - exact ex_fs_all_readable.
Defined.

(** After the pass of the scenario, the regular files are among [b.jar]
    and [c.jar]. *)
Lemma check_mods_leaves_no_stale_file_witness :
  ∃ R fs0,
    makedirs_mods "srv" ex_fs = (Return tt, fs0, []) ∧
    get_remote_mods_dict ex_net "srv" fs0 =
      (Return (Some R), fs0, [EGet (ListMod "srv")]) ∧
    ∀ k r d,
      entry_at (check_mods ex_digest ex_net "srv" ex_fs).1.2 "srv" k
        = Some (RegFile r d) →
      k ∈ keys R.
Proof.
  apply (check_mods_leaves_no_stale_file ex_digest ex_net "srv"%string ex_fs
           _ (check_mods ex_digest ex_net "srv" ex_fs).2).
  - reflexivity.
  - by apply ex_manifest_plain.
  - exact ex_fs_distinct_names.
  - vm_compute. reflexivity.
Defined.

(** The empty manifest removes [a.jar] and [b.jar]. *)
Lemma check_mods_empty_manifest_witness :
  ∃ fs' ev,
    check_mods ex_digest ex_net_empty "srv" ex_fs = (Return tt, fs', ev) ∧
    requests ev = [ListMod "srv"] ∧
    (∀ k, k ∈ removed_mods ev ↔
          ∃ r d, entry_at ex_fs "srv" k = Some (RegFile r d)) ∧
    (∀ k r d, entry_at fs' "srv" k ≠ Some (RegFile r d)).
Proof.
  apply (check_mods_empty_manifest ex_digest ex_net_empty "srv"%string ex_fs
           (Response 200 None [] false (Some []))).
  - exact ex_fs_distinct_names.
  - exact ex_fs_all_readable.
  - reflexivity.
  - reflexivity.
  - reflexivity.
Defined.

(** A second pass of the scenario only requests the manifest. *)
Lemma check_mods_idempotent_witness :
  let fs' := (check_mods ex_digest ex_net "srv" ex_fs).1.2 in
  check_mods ex_digest ex_net "srv" fs' =
    (Return tt, fs', [EGet (ListMod "srv")]).
Proof.
  apply (check_mods_idempotent ex_digest ex_net "srv"%string ex_fs _
           (check_mods ex_digest ex_net "srv" ex_fs).2 ex_manifest
           [("b.jar", "b"); ("c.jar", "c")]%string).
  - reflexivity.
  - by apply ex_manifest_plain.
  - exact ex_fs_distinct_names.
  - reflexivity.
  - reflexivity.
  - intros k h Hget Hne.
    change (dict_of_pairs [("b.jar", "b"); ("c.jar", "c")]%string)
      with [("b.jar", "b"); ("c.jar", "c")]%string in Hget.
    cbn [dict_get] in Hget.
    destruct (String.eqb_spec "b.jar" k) as [<-|_].
    { injection Hget as <-. by destruct Hne. }
    destruct (String.eqb_spec "c.jar" k) as [<-|_]; [|discriminate].
    injection Hget as <-.
    exists (Response 200 (Some 1) [[Byte.x63]] false None).
    split; [|split; reflexivity].
    split; [reflexivity|]. split; [reflexivity|]. left. discriminate.
  - vm_compute. reflexivity.
Defined.



(** The archive of one byte is reported once, as 100 percent. *)
Lemma download_fabric_base_progress_witness :
  let ev := (download_fabric_base ex_extract_fails ex_net_archive "srv"
               ex_fs).2 in
  StronglySorted Z.lt (fabric_progress ev) ∧
  Forall (λ p, 0 < p) (fabric_progress ev) ∧
  Forall (λ p, p ≤ 100) (fabric_progress ev) ∧
  (length (fabric_progress ev) ≤ 100)%nat.
Proof.
  destruct (download_fabric_base_progress ex_extract_fails ex_net_archive
              "srv"%string ex_fs
              (Response 200 (Some 1) [[Byte.x50]] false None)
              (download_fabric_base ex_extract_fails ex_net_archive "srv"
                 ex_fs).1.1
              (download_fabric_base ex_extract_fails ex_net_archive "srv"
                 ex_fs).1.2
              (download_fabric_base ex_extract_fails ex_net_archive "srv"
                 ex_fs).2)
    as (Hs & Hp & Hb).
  - split; [reflexivity|]. split; [reflexivity|]. left. discriminate.
  - vm_compute. reflexivity.
  - split; [exact Hs|]. split; [exact Hp|]. apply Hb. vm_compute. discriminate.
Defined.

(** A manifest that is not JSON: the pass stops and [ex_fs] keeps its
    files. *)
Lemma check_mods_unparsable_manifest_witness :
  ∃ fs',
    check_mods ex_digest ex_net_garbled "srv" ex_fs =
      (Raise JSONDecodeError, fs', [EGet (ListMod "srv")]) ∧
    (∀ k, entry_at fs' "srv" k = entry_at ex_fs "srv" k) ∧
    (∀ s', s' ≠ "srv"%string → fs' !! s' = ex_fs !! s').
Proof.
  apply (check_mods_unparsable_manifest ex_digest ex_net_garbled
           "srv"%string ex_fs (Response 200 None [] false None)).
  - reflexivity.
  - reflexivity.
  - reflexivity.
Defined.


(** The pass of the scenario removes and requests each name once. *)
Lemma check_mods_acts_once_witness :
  let ev := (check_mods ex_digest ex_net "srv" ex_fs).2 in
  NoDup (removed_mods ev) ∧ NoDup (requested_mods ev) ∧
  ∃ ev1 ev2,
    ev = EGet (ListMod "srv") :: ev1 ++ ev2 ∧
    requests ev1 = [] ∧ opened ev1 = [] ∧ removed ev2 = [].
Proof.
  apply (check_mods_acts_once ex_digest ex_net "srv"%string ex_fs
           (check_mods ex_digest ex_net "srv" ex_fs).1.2).
  vm_compute. reflexivity.
Defined.

(** The options for [ex_config]: the two words of [jvm_args] follow
    [-Xmx2048M], and the path of Java is [java]. *)
Lemma launch_options_arguments_witness :
  ∃ opts,
    launch_options 17 ex_uuid5 ex_py_str (Return ex_interfaces)
      (Return ex_config) "srv" = (Return opts, []) ∧
    jvmArguments opts =
      [str_of "-Xmx2048M"; str_of "-XX:+UseG1GC"; str_of "-Dfoo=bar"] ∧
    executablePath opts = PStr (str_of "java") ∧
    customResolution opts = false ∧
    truthy (executablePath opts) = true.
Proof.
  eexists. split; [vm_compute; reflexivity|].
  split; [vm_compute; reflexivity|].
  split; [vm_compute; reflexivity|].
  split; [vm_compute; reflexivity|].
  destruct (launch_options_arguments 17 ex_uuid5 ex_py_str
              (Return ex_interfaces) (Return ex_config) "srv"%string _ []
              eq_refl)
    as (d & j & _ & _ & _ & _ & _ & Hp & _).
  exact Hp.
Defined.
